(** * Photo Upscaler web client: progress synchronisation

    A shallow embedding of the browser-side code that keeps the page
    informed about server jobs:

    - [src/upscaler/web/app.js]: the WebSocket connection with its
      keepalive and reconnect timers, the dispatch of pushed frames, the
      job submissions and the comparison poll loop;
    - [src/upscaler/web/components/ProgressTracker.js]: the reducer
      [progressTracker().handleWSEvent] from pushed frames to a percentage
      and a label, and [batchPanel()] with its job poll loop;
    - the components around them: [imageUploader()], which hands the file
      to [app()]; [comparisonView()], which listens to the events of the
      comparison; [imageViewer()]; [modelSelector()], which refreshes the
      models store; [settingsPanel()].

    Handlers are functions on the component's fields.  What a handler asks
    of the browser (fetch, dispatchEvent, setTimeout) is returned as a list
    of effects in program order; the timers and sockets of the connection
    code live in an explicit browser state.  A frame of the push channel
    is text: [Json] has the values that [JSON.parse] makes of it and the
    conversions that the reducer applies to them. *)

From Stdlib Require Import ZArith QArith Qround Qpower Qabs SpecFloat.
From Stdlib Require Import String Ascii List Lia Lqa Bool DecimalString Sorted.
From Stdlib Require DecimalPos DecimalZ.
From stdpp Require Import gmap strings list.
Import ListNotations.
Open Scope string_scope.
Open Scope list_scope.

(** ** JavaScript numbers

    A JS number is an IEEE-754 binary64.  Every value that occurs below is
    a rational, so a number is carried as a [Q] and each arithmetic
    operator rounds its exact result to 53 significant bits, ties to even
    ([round53]).  This is binary64 arithmetic wherever the result is in the
    normal range and the divisor is not zero, which is the case at every
    operator of the embedded code. *)
Module JS.

Definition pow2 (e : Z) : Q := (2 ^ e)%Q.

(** floor of the binary logarithm of a positive rational *)
Definition ilog2 (q : Q) : Z :=
  let l := (Z.log2 (Qnum q) - Z.log2 (Zpos (Qden q)))%Z in
  if Qle_bool (pow2 l) q then l else (l - 1)%Z.

(** nearest integer, ties to the even one *)
Definition rne (x : Q) : Z :=
  let f := Qfloor x in
  match (x - inject_Z f ?= 1 # 2)%Q with
  | Lt => f
  | Gt => (f + 1)%Z
  | Eq => if Z.even f then f else (f + 1)%Z
  end.

Definition round53_pos (q : Q) : Q :=
  let e := (ilog2 q - 52)%Z in
  (inject_Z (rne (q / pow2 e)) * pow2 e)%Q.

Definition round53 (q : Q) : Q :=
  match Qnum q with
  | Z0 => 0%Q
  | Zpos _ => round53_pos q
  | Zneg _ => (- round53_pos (- q))%Q
  end.

(** the operators [/], [*] and [-] *)
Definition fdiv (x y : Q) : Q := round53 (x / y).
Definition fmul (x y : Q) : Q := round53 (x * y).
Definition fsub (x y : Q) : Q := round53 (x - y).

(** the comparison [x > y] *)
Definition gtb (x y : Q) : bool := negb (Qle_bool x y).

(** [Math.round]: the nearest integer, a tie going towards +infinity *)
Definition Math_round (x : Q) : Z := Qfloor (x + (1 # 2)).

(** [Math.ceil] *)
Definition Math_ceil (x : Q) : Z := Qceiling x.

(** a count read from a JSON frame, as a number *)
Definition ofN (n : N) : Q := inject_Z (Z.of_N n).

(** [`${n}`] for an integer [n]: its decimal digits (what
    Number::toString gives below 10^21) *)
Definition toString (z : Z) : string := NilZero.string_of_int (Z.to_int z).

(** [x.toFixed(1)] *)
Definition toFixed1 (x : Q) : string :=
  let s := if Qle_bool 0 x then "" else "-" in
  let n := Qfloor (Qabs x * 10 + (1 # 2)) in
  s +:+ toString (n / 10) +:+ "." +:+ toString (n mod 10).

(** [x || d] on an optional count: absent and 0 are falsy *)
Definition orN (x : option N) (d : N) : N :=
  match x with
  | Some n => if (n =? 0)%N then d else n
  | None => d
  end.

(** [x || d] on an optional string: absent and the empty string are falsy *)
Definition orS (x : option string) (d : string) : string :=
  match x with
  | Some s => if String.eqb s "" then d else s
  | None => d
  end.

(** the outcome of [await fetch(url)] followed by [await res.json()]:
    either of them threw, or the body parsed to [a] *)
Inductive Fetched (A : Type) : Type :=
| Rejected
| Resolved (a : A).
Arguments Rejected {A}.
Arguments Resolved {A} a.

(** the operator [+] *)
Definition fadd (x y : Q) : Q := round53 (x + y).

(** [Math.max] and [Math.min] of two numbers *)
Definition Math_max (x y : Q) : Q := if Qle_bool x y then y else x.
Definition Math_min (x y : Q) : Q := if Qle_bool x y then x else y.

(** a decimal literal of the source text: the number nearest to it *)
Definition literal (q : Q) : Q := round53 q.

(** a value that a number can hold *)
Definition isNumber (q : Q) : Prop := round53 q == q.

End JS.

(** ** Values of [JSON.parse]

    A frame of the push channel is text; [JSON.parse] turns it into one
    of these values.  Strings are held in UTF-8.  What follows are the
    conversions of the language that the progress reducer applies to the
    fields of a frame. *)
Module Json.
Import JS.

(** a Number: -0 is not told from 0 *)
Inductive Number :=
| NaN
| Infinity (negative : bool)
| Finite (q : Q).

#[warnings="-register-all"]
Inductive Value :=
| JNull
| JBool (b : bool)
| JNum (n : Number)
| JStr (s : string)
| JArr (elements : list Value)
| JObj (members : list (string * Value)).   (* in the order of the text *)

(** a value that is no object *)
Inductive NonObject :=
| Null
| Bool (b : bool)
| Num (n : Number)
| Str (s : string)
| Arr (elements : list Value).

(** [v.k] for a value [v] other than null and a name [k] that no
    prototype defines: the member of that name, the last one if the text
    repeats it; [None] is undefined *)
Definition get (k : string) (v : Value) : option Value :=
  match v with
  | JObj members =>
      fold_left (fun found kv => if String.eqb (fst kv) k then Some (snd kv) else found)
                members None
  | _ => None
  end.

(** some member is named [k] *)
Definition has (k : string) (m : list (string * Value)) : bool :=
  existsb (fun kv => String.eqb (fst kv) k) m.

Definition isZero (n : Number) : bool :=
  match n with
  | Finite q => Qeq_bool q 0
  | _ => false
  end.

(** ToBoolean *)
Definition ToBoolean (v : option Value) : bool :=
  match v with
  | None | Some JNull => false
  | Some (JBool b) => b
  | Some (JNum NaN) => false
  | Some (JNum n) => negb (isZero n)
  | Some (JStr s) => negb (String.eqb s "")
  | Some (JArr _) | Some (JObj _) => true
  end.

(** [x || d] *)
Definition orElse (x : option Value) (d : Value) : Value :=
  match x with
  | Some v => if ToBoolean x then v else d
  | None => d
  end.

(** the Number nearest to a rational: 53 bits down to the exponent -1022,
    multiples of 2^-1074 below, and infinite from 2^1024 on *)
Definition binary64 (q : Q) : Number :=
  match Qnum q with
  | Z0 => Finite 0
  | _ =>
      let a := Qabs q in
      let e := (Z.max (ilog2 a) (-1022) - 52)%Z in
      let r := (inject_Z (rne (a / pow2 e)) * pow2 e)%Q in
      if Qle_bool (pow2 1024) r then Infinity (negb (Qle_bool 0 q))
      else Finite (if Qle_bool 0 q then r else (- r)%Q)
  end.

(** *** StringToNumber *)

Definition code (c : ascii) : N := N_of_ascii c.

(** WhiteSpace and LineTerminator: TAB, LF, VT, FF, CR, SP; U+00A0;
    U+1680, U+2000..U+200A, U+2028, U+2029, U+202F, U+205F, U+3000 and
    U+FEFF, of two and three bytes *)
Definition white1 (a : ascii) : bool :=
  ((9 <=? code a) && (code a <=? 13) || (code a =? 32))%N.

Definition white2 (a b : ascii) : bool :=
  ((code a =? 194) && (code b =? 160))%N.

Definition white3 (a b c : ascii) : bool :=
  ((code a =? 225) && (code b =? 154) && (code c =? 128)
   || (code a =? 226) && (code b =? 128)
        && ((128 <=? code c) && (code c <=? 138)
            || (code c =? 168) || (code c =? 169) || (code c =? 175))
   || (code a =? 226) && (code b =? 129) && (code c =? 159)
   || (code a =? 227) && (code b =? 128) && (code c =? 128)
   || (code a =? 239) && (code b =? 187) && (code c =? 191))%N.

(** [s] without the white space it starts with *)
Fixpoint skipWhite (s : string) : string :=
  match s with
  | String a s1 =>
      if white1 a then skipWhite s1
      else
        match s1 with
        | String b s2 =>
            if white2 a b then skipWhite s2
            else
              match s2 with
              | String c s3 => if white3 a b c then skipWhite s3 else s
              | EmptyString => s
              end
        | EmptyString => s
        end
  | EmptyString => s
  end.

(** the value of a digit in a radix up to 16 *)
Definition digitOf (radix : N) (a : ascii) : option Z :=
  let c := code a in
  let d :=
    if (48 <=? c)%N && (c <=? 57)%N then Some (c - 48)%N
    else if (97 <=? c)%N && (c <=? 102)%N then Some (c - 87)%N
    else if (65 <=? c)%N && (c <=? 70)%N then Some (c - 55)%N
    else None in
  match d with
  | Some d => if (d <? radix)%N then Some (Z.of_N d) else None
  | None => None
  end.

(** the digits that [s] starts with, and what follows them *)
Fixpoint digits (radix : N) (s : string) : list Z * string :=
  match s with
  | String a s' =>
      match digitOf radix a with
      | Some d => let '(ds, rest) := digits radix s' in (d :: ds, rest)
      | None => ([], s)
      end
  | EmptyString => ([], s)
  end.

Definition valueOf (radix : N) (ds : list Z) : Z :=
  fold_left (fun acc d => (acc * Z.of_N radix + d)%Z) ds 0%Z.

(** [s] without the prefix [p], if it starts with it *)
Fixpoint after (p s : string) : option string :=
  match p, s with
  | EmptyString, _ => Some s
  | String a p', String b s' => if Ascii.eqb a b then after p' s' else None
  | String _ _, EmptyString => None
  end.

Definition isWhite (s : string) : bool := String.eqb (skipWhite s) "".

(** an ExponentPart at the start of [s], or none *)
Definition exponent (s : string) : Z * string :=
  match s with
  | String a s1 =>
      if (code a =? 101)%N || (code a =? 69)%N then       (* e, E *)
        let '(negative, s2) :=
          match s1 with
          | String b s2 =>
              if (code b =? 45)%N then (true, s2)          (* - *)
              else if (code b =? 43)%N then (false, s2)    (* + *)
              else (false, s1)
          | EmptyString => (false, s1)
          end in
        match digits 10 s2 with
        | ([], _) => (0%Z, s)
        | (ds, rest) =>
            ((if negative then - valueOf 10 ds else valueOf 10 ds)%Z, rest)
        end
      else (0%Z, s)
  | EmptyString => (0%Z, s)
  end.

(** StrUnsignedDecimalLiteral, then white space to the end *)
Definition unsignedDecimal (s : string) : option Number :=
  match after "Infinity" s with
  | Some rest => if isWhite rest then Some (Infinity false) else None
  | None =>
      let '(int, s1) := digits 10 s in
      let '(dot, (frac, s2)) :=
        match s1 with
        | String a s' =>
            if (code a =? 46)%N then (true, digits 10 s') else (false, ([], s1))
        | EmptyString => (false, ([], s1))
        end in
      match int, frac with
      | [], [] => None
      | _, _ =>
          let '(e, rest) := exponent s2 in
          if isWhite rest then
            Some (binary64 (inject_Z (valueOf 10 (int ++ frac))
                            * 10 ^ (e - Z.of_nat (length frac))))
          else None
      end
  end.

Definition negate (n : Number) : Number :=
  match n with
  | NaN => NaN
  | Infinity s => Infinity (negb s)
  | Finite q => Finite (- q)
  end.

(** a NonDecimalIntegerLiteral of prefix 0[x] at the start of [s] *)
Definition nonDecimal (radix : N) (s : string) : option Number :=
  match digits radix s with
  | ([], _) => None
  | (ds, rest) =>
      if isWhite rest then Some (binary64 (inject_Z (valueOf radix ds))) else None
  end.

Definition orNaN (n : option Number) : Number :=
  match n with Some n => n | None => NaN end.

(** the Number that a string converts to *)
Definition StringToNumber (s : string) : Number :=
  let s := skipWhite s in
  match s with
  | EmptyString => Finite 0
  | String a s1 =>
      let prefixed :=
        match s with
        | String "0" (String x rest) =>
            if (code x =? 120)%N || (code x =? 88)%N then Some (16%N, rest)
            else if (code x =? 111)%N || (code x =? 79)%N then Some (8%N, rest)
            else if (code x =? 98)%N || (code x =? 66)%N then Some (2%N, rest)
            else None
        | _ => None
        end in
      match prefixed with
      | Some (radix, rest) => orNaN (nonDecimal radix rest)
      | None =>
          if (code a =? 45)%N then orNaN (option_map negate (unsignedDecimal s1))
          else if (code a =? 43)%N then orNaN (unsignedDecimal s1)
          else orNaN (unsignedDecimal s)
      end
  end.

(** *** ToPrimitive and ToNumber *)

(** converting [v] to a primitive throws a TypeError: an object whose
    own member [toString] hides the method, by itself or as an element
    that [Array.prototype.join] converts *)
Fixpoint throwsToPrimitive (v : Value) : bool :=
  match v with
  | JObj members => existsb (fun kv => String.eqb (fst kv) "toString") members
  | JArr elements => existsb throwsToPrimitive elements
  | _ => false
  end.

(** the Number of a value that converts.  An array goes by the string of
    its elements joined with commas: none is the empty string; one
    element is its own string, which for a Number reads back as that
    Number; more leave a comma, which no numeric string has.  An object
    goes by "[object Object]". *)
Fixpoint numberOf (v : Value) : Number :=
  match v with
  | JNull => Finite 0
  | JBool b => Finite (if b then 1 else 0)
  | JNum n => n
  | JStr s => StringToNumber s
  | JArr [] => Finite 0
  | JArr [e] =>
      match e with
      | JNull => Finite 0
      | JBool _ => NaN
      | JNum n => n
      | JStr s => StringToNumber s
      | JArr _ => numberOf e
      | JObj _ => NaN
      end
  | JArr _ => NaN
  | JObj _ => NaN
  end.

(** ToNumber; [None] when it throws *)
Definition ToNumber (v : Value) : option Number :=
  if throwsToPrimitive v then None else Some (numberOf v).

(** [x / y]: both operands converted, the left one first *)
Definition divide (x y : Value) : option (Number * Number) :=
  match ToNumber x with
  | Some a => match ToNumber y with Some b => Some (a, b) | None => None end
  | None => None
  end.

(** [x > 0] *)
Definition positive (x : Value) : option bool :=
  match ToNumber x with
  | Some (Finite q) => Some (negb (Qle_bool q 0))
  | Some (Infinity negative) => Some (negb negative)
  | Some NaN => Some false
  | None => None
  end.

End Json.

(** The same operators in the Standard Library's model of IEEE-754
    ([SpecFloat], precision 53, maximal exponent 1024), to compare [JS]
    with on samples. *)
Module Binary64.

Definition ofZ (z : Z) : spec_float := binary_normalize 53 1024 z 0 false.

Definition valueOf (f : spec_float) : Q :=
  match f with
  | S754_finite s m e =>
      ((if s then -1 else 1) * inject_Z (Z.pos m) * JS.pow2 e)%Q
  | _ => 0%Q
  end.

Definition div (x y : spec_float) : spec_float := SFdiv 53 1024 x y.
Definition mul (x y : spec_float) : spec_float := SFmul 53 1024 x y.
Definition sub (x y : spec_float) : spec_float := SFsub 53 1024 x y.

(** [(d / t) * 100] comes out the same in both *)
Definition percentAgrees (d t : Z) : bool :=
  Qeq_bool (valueOf (mul (div (ofZ d) (ofZ t)) (ofZ 100)))
           (JS.fmul (JS.fdiv (inject_Z d) (inject_Z t)) 100).

(** [(t - d) / (d / (ms / 1000))] comes out the same in both *)
Definition etaAgrees (d t ms : Z) : bool :=
  Qeq_bool
    (valueOf (div (sub (ofZ t) (ofZ d)) (div (ofZ d) (div (ofZ ms) (ofZ 1000)))))
    (JS.fdiv (JS.fsub (inject_Z t) (inject_Z d))
             (JS.fdiv (inject_Z d) (JS.fdiv (inject_Z ms) 1000))).

(** the integers [lo, lo + n) *)
Fixpoint upFrom (lo : Z) (n : nat) : list Z :=
  match n with
  | O => []
  | S k => lo :: upFrom (lo + 1) k
  end.

End Binary64.

(** ** Frames of the push channel

    [JSON.parse(event.data)]: an object with a [type] and the fields of
    that kind of frame.  A missing field is [None]; counts are JSON
    integers below 2^53, the range in which a number holds them exactly
    ([round53_integer]). *)
Record WsData := {
  type : string;
  tiles_done : option N;
  tiles_total : option N;
  pass_num : option N;
  total_passes : option N;
  model_id : option string;
  completed : option N;
  total : option N;
  current_file : option string;
  downloaded : option N;
  success : bool;
  error : option string
}.

(** the value that a frame is: its fields as the members of an object *)
Definition field {A} (k : string) (f : A -> Json.Value) (x : option A)
  : list (string * Json.Value) :=
  match x with
  | Some a => [(k, f a)]
  | None => []
  end.

Definition countValue (n : N) : Json.Value := Json.JNum (Json.Finite (JS.ofN n)).

Definition toJson (data : WsData) : Json.Value :=
  Json.JObj
    ([("type", Json.JStr (type data))]
     ++ field "tiles_done" countValue (tiles_done data)
     ++ field "tiles_total" countValue (tiles_total data)
     ++ field "pass_num" countValue (pass_num data)
     ++ field "total_passes" countValue (total_passes data)
     ++ field "model_id" Json.JStr (model_id data)
     ++ field "completed" countValue (completed data)
     ++ field "total" countValue (total data)
     ++ field "current_file" Json.JStr (current_file data)
     ++ field "downloaded" countValue (downloaded data)
     ++ [("success", Json.JBool (success data))]
     ++ field "error" Json.JStr (error data)).

(** ** ProgressTracker.js: [progressTracker()] *)
Module ProgressTracker.
Import JS.

(** the fields; [_handler], the listener that hands every [ws-event] of
    the window to [handleWSEvent], is left out *)
Record State := {
  progressPercent : Z;
  progressLabel : string;
  startTime : option Z          (* null, or a [Date.now()] in ms *)
}.

Definition initial : State :=
  {| progressPercent := 0; progressLabel := "Waiting..."; startTime := None |}.

(** [init()]; [now] is the value of [Date.now()] *)
Definition init (now : Z) (s : State) : State :=
  {| progressPercent := progressPercent s;
     progressLabel := progressLabel s;
     startTime := Some now |}.

(** [(Date.now() - this.startTime) / 1000]; a null [startTime] counts
    as 0 in the subtraction *)
Definition elapsed (now : Z) (s : State) : Q :=
  fdiv (fsub (inject_Z now)
             (inject_Z (match startTime s with Some t => t | None => 0%Z end)))
       1000.

Definition handleWSEvent (now : Z) (data : WsData) (s : State) : State :=
  let s :=
    if String.eqb (type data) "tile_progress" then
      let done := orN (tiles_done data) 0 in
      let total := orN (tiles_total data) 1 in
      let passNum := orN (pass_num data) 1 in
      let totalPasses := orN (total_passes data) 1 in
      let pct := Math_round (fmul (fdiv (ofN done) (ofN total)) 100) in
      let label :=
        "Tiles: " +:+ toString (Z.of_N done) +:+ "/" +:+ toString (Z.of_N total) in
      let label :=
        if (1 <? totalPasses)%N then
          "Pass " +:+ toString (Z.of_N passNum) +:+ "/"
            +:+ toString (Z.of_N totalPasses) +:+ " — " +:+ label
        else label in
      let elapsed := elapsed now s in
      let label :=
        if (0 <? done)%N && gtb elapsed 2 then
          let rate := fdiv (ofN done) elapsed in
          let remaining := fdiv (fsub (ofN total) (ofN done)) rate in
          label +:+ " — ~" +:+ toString (Math_ceil remaining) +:+ "s remaining"
        else label in
      {| progressPercent := pct; progressLabel := label; startTime := startTime s |}
    else s in
  let s :=
    if String.eqb (type data) "model_loading" then
      {| progressPercent := 0;
         progressLabel := "Loading model: " +:+ orS (model_id data) "" +:+ "...";
         startTime := Some now |}
    else s in
  let s :=
    if String.eqb (type data) "model_loaded" then
      {| progressPercent := progressPercent s;
         progressLabel := "Model loaded, processing...";
         startTime := startTime s |}
    else s in
  let s :=
    if String.eqb (type data) "comparison_model_start" then
      {| progressPercent := 0;
         progressLabel := "Processing: " +:+ orS (model_id data) "" +:+ "...";
         startTime := Some now |}
    else s in
  let s :=
    if String.eqb (type data) "batch_progress" then
      let completed := orN (completed data) 0 in
      let total := orN (total data) 1 in
      let pct := Math_round (fmul (fdiv (ofN completed) (ofN total)) 100) in
      {| progressPercent := pct;
         progressLabel :=
           "Batch: " +:+ toString (Z.of_N completed) +:+ "/"
             +:+ toString (Z.of_N total) +:+ " images — "
             +:+ orS (current_file data) "";
         startTime := startTime s |}
    else s in
  let s :=
    if String.eqb (type data) "download_progress" then
      let downloaded := orN (downloaded data) 0 in
      let total := orN (total data) 1 in
      let pct :=
        if (0 <? total)%N
        then Math_round (fmul (fdiv (ofN downloaded) (ofN total)) 100)
        else 0%Z in
      let mb := toFixed1 (fdiv (fdiv (ofN downloaded) 1024) 1024) in
      let totalMb := toFixed1 (fdiv (fdiv (ofN total) 1024) 1024) in
      {| progressPercent := pct;
         progressLabel := "Downloading: " +:+ mb +:+ "/" +:+ totalMb +:+ " MB";
         startTime := startTime s |}
    else s in
  let s :=
    if String.eqb (type data) "image_complete" then
      {| progressPercent := 100;
         progressLabel := "Complete!";
         startTime := startTime s |}
    else s in
  s.


(** [Math.round((done / total) * 100)] *)
Definition percentOf (done total : N) : Z :=
  Math_round (fmul (fdiv (ofN done) (ofN total)) 100).

(** the label of a tile frame before any ETA is appended *)
Definition tilesLabel (data : WsData) : string :=
  let tiles :=
    "Tiles: " +:+ toString (Z.of_N (orN (tiles_done data) 0)) +:+ "/"
      +:+ toString (Z.of_N (orN (tiles_total data) 1)) in
  if (1 <? orN (total_passes data) 1)%N then
    "Pass " +:+ toString (Z.of_N (orN (pass_num data) 1)) +:+ "/"
      +:+ toString (Z.of_N (orN (total_passes data) 1)) +:+ " — " +:+ tiles
  else tiles.

(** milliseconds between the tracker's [startTime] and [now] *)
Definition elapsedMs (now : Z) (s : State) : Z :=
  (now - match startTime s with Some t => t | None => 0 end)%Z.

(** the divisors of the three percentages *)
Definition tileDivisor (data : WsData) : N := orN (tiles_total data) 1.
Definition batchDivisor (data : WsData) : N := orN (total data) 1.
Definition downloadDivisor (data : WsData) : N := orN (total data) 1.

(** the count and the divisor of the percentage that a frame sets *)
Definition ratio (data : WsData) : option (N * N) :=
  if String.eqb (type data) "tile_progress"
  then Some (orN (tiles_done data) 0, tileDivisor data)
  else if String.eqb (type data) "batch_progress"
  then Some (orN (completed data) 0, batchDivisor data)
  else if String.eqb (type data) "download_progress"
  then Some (orN (downloaded data) 0, downloadDivisor data)
  else None.

(** The tracker stores no status.  The status it shows can be read off its
    label: "Waiting..." is the initial label and "Complete!" the one set by
    an [image_complete] frame; no label of the tracker stands for a
    failure. *)
Inductive Status := pending | running | completed | failed.

Definition status (s : State) : Status :=
  if String.eqb (progressLabel s) "Complete!" then completed
  else if String.eqb (progressLabel s) "Waiting..." then pending
  else running.

(** the kinds of frame on which [handleWSEvent] sets both the percentage
    and the label *)
Definition overwrites (data : WsData) : bool :=
  existsb (String.eqb (type data))
    ["tile_progress"; "model_loading"; "comparison_model_start";
     "batch_progress"; "download_progress"; "image_complete"].

(** *** The percentages on any value

    [handleWSEvent] is handed whatever [JSON.parse] gave.  Evaluating its
    three percentages either throws a TypeError (reading [data.type] of
    null, or converting a count that does not convert) or performs these
    divisions, each with its dividend and its divisor.  What the labels
    do is not part of this. *)
Inductive Outcome :=
| TypeError
| Done (divisions : list (Json.Number * Json.Number)).

Definition andThen (o : Outcome) (k : list (Json.Number * Json.Number) -> Outcome)
  : Outcome :=
  match o with
  | TypeError => TypeError
  | Done ds => k ds
  end.

(** [data.type === name] *)
Definition isType (data : Json.Value) (name : string) : bool :=
  match Json.get "type" data with
  | Some (Json.JStr s) => String.eqb s name
  | _ => false
  end.

(** [Math.round((x / y) * 100)] *)
Definition division (x y : Json.Value) : Outcome :=
  match Json.divide x y with
  | Some d => Done [d]
  | None => TypeError
  end.

(** lines 23 to 28 *)
Definition tilePercent (data : Json.Value) : Outcome :=
  if isType data "tile_progress" then
    let done := Json.orElse (Json.get "tiles_done" data) (Json.JNum (Json.Finite 0)) in
    let total := Json.orElse (Json.get "tiles_total" data) (Json.JNum (Json.Finite 1)) in
    division done total
  else Done [].

(** lines 63 to 66 *)
Definition batchPercent (data : Json.Value) : Outcome :=
  if isType data "batch_progress" then
    let completed := Json.orElse (Json.get "completed" data) (Json.JNum (Json.Finite 0)) in
    let total := Json.orElse (Json.get "total" data) (Json.JNum (Json.Finite 1)) in
    division completed total
  else Done [].

(** lines 71 to 74 *)
Definition downloadPercent (data : Json.Value) : Outcome :=
  if isType data "download_progress" then
    let downloaded := Json.orElse (Json.get "downloaded" data) (Json.JNum (Json.Finite 0)) in
    let total := Json.orElse (Json.get "total" data) (Json.JNum (Json.Finite 1)) in
    match Json.positive total with
    | Some true => division downloaded total
    | Some false => Done []
    | None => TypeError
    end
  else Done [].

Definition percentages (data : Json.Value) : Outcome :=
  match data with
  | Json.JNull => TypeError
  | _ =>
      andThen (tilePercent data) (fun tile =>
      andThen (batchPercent data) (fun batch =>
      andThen (downloadPercent data) (fun download =>
      Done (tile ++ batch ++ download))))
  end.

(** no division of an outcome is by zero *)
Definition nonzero (o : Outcome) : Prop :=
  match o with
  | TypeError => True
  | Done ds => Forall (fun d => Json.isZero (snd d) = false) ds
  end.

(** a field that is absent, null, a boolean or a number *)
Definition plain (v : option Json.Value) : bool :=
  match v with
  | None | Some Json.JNull | Some (Json.JBool _) | Some (Json.JNum _) => true
  | _ => false
  end.

(** no member of a frame throws when it is converted *)
Definition converts (data : Json.Value) : bool :=
  match data with
  | Json.JObj members =>
      forallb (fun kv => negb (Json.throwsToPrimitive (snd kv))) members
  | _ => true
  end.

End ProgressTracker.

(** ** What a handler asks of the browser *)

(** a [File] picked by the user *)
Record File := { file_name : string }.

Inductive FormValue :=
| FormFile (f : File)
| FormText (s : string).

(** a [FormData], in [append] order *)
Definition FormData := list (string * FormValue).

(** the [detail] of a [CustomEvent] *)
Inductive Detail :=
| DToast (msg kind : string)
| DWs (data : WsData)
| DValue (v : Json.NonObject)
| DResultReady (url : string)
| DComparisonStart (comparisonId originalUrl : string) (modelIds : list string)
| DComparisonResult (modelId : string) (imageId imageUrl : option string)
    (duration : Q) (success : bool) (error : option string).

(** the closure handed to [setTimeout] by a poll loop *)
Inductive Poll :=
| PollJob (jobId : string)
| PollComparison (comparisonId : string).

Inductive Effect :=
| Fetch (method url : string) (body : option FormData)
| DispatchEvent (name : string) (detail : Detail)
    (* window.dispatchEvent(new CustomEvent(name, {detail})) *)
| SetTimeout (callback : Poll) (delay : Z).

(** the answer to a POST: [fetch] or [res.json()] threw an error with this
    message, the status was not ok and the error body had this [detail],
    or the status was ok with this body *)
Inductive Response (A : Type) : Type :=
| Threw (message : string)
| NotOk (detail : option string)
| Ok (body : A).
Arguments Threw {A} message.
Arguments NotOk {A} detail.
Arguments Ok {A} body.

Definition toast (msg kind : string) : Effect :=
  DispatchEvent "toast" (DToast msg kind).

Definition isSetTimeout (e : Effect) : bool :=
  match e with SetTimeout _ _ => true | _ => false end.

Definition isFetch (e : Effect) : bool :=
  match e with Fetch _ _ _ => true | _ => false end.

Definition isDispatch (e : Effect) : bool :=
  match e with DispatchEvent _ _ => true | _ => false end.

(** how many effects of a trace satisfy [p] *)
Definition count (p : Effect -> bool) (fx : list Effect) : nat :=
  length (List.filter p fx).

(** the delays of the timers set along a trace, in order *)
Fixpoint delays (fx : list Effect) : list Z :=
  match fx with
  | [] => []
  | SetTimeout _ d :: fx' => d :: delays fx'
  | _ :: fx' => delays fx'
  end.

(** Bodies of [GET /api/jobs/<id>]. *)
Module Job.
Record Result := { completed : N; skipped : N; failed : N }.
Record Snapshot := {
  status : string;
  results : option (list Result);
  error : option string
}.
End Job.

(** Bodies of [GET /api/compare/<id>]. *)
Module Compare.
Record Result := {
  model_id : string;
  image_id : option string;
  duration_seconds : Q;
  success : bool;
  error : option string
}.
Record Snapshot := { results : option (list Result) }.
End Compare.

(** ** ProgressTracker.js: [batchPanel()] *)
Module BatchPanel.
Import JS.

Record State := {
  batchInputDir : string;
  batchOutputDir : string;
  batchModel : string;
  batchScale : N;
  batchRecursive : bool;
  batchSkipExisting : bool;
  batchRunning : bool;
  batchStatus : string;
  batchJobId : option string
}.

Definition initial : State :=
  {| batchInputDir := ""; batchOutputDir := ""; batchModel := "";
     batchScale := 4; batchRecursive := false; batchSkipExisting := false;
     batchRunning := false; batchStatus := ""; batchJobId := None |}.

Definition set_run (running : bool) (st : string) (s : State) : State :=
  {| batchInputDir := batchInputDir s; batchOutputDir := batchOutputDir s;
     batchModel := batchModel s; batchScale := batchScale s;
     batchRecursive := batchRecursive s;
     batchSkipExisting := batchSkipExisting s;
     batchRunning := running; batchStatus := st;
     batchJobId := batchJobId s |}.

Definition set_batchRunning (running : bool) (s : State) : State :=
  set_run running (batchStatus s) s.

Definition set_batchJobId (id : option string) (s : State) : State :=
  {| batchInputDir := batchInputDir s; batchOutputDir := batchOutputDir s;
     batchModel := batchModel s; batchScale := batchScale s;
     batchRecursive := batchRecursive s;
     batchSkipExisting := batchSkipExisting s;
     batchRunning := batchRunning s; batchStatus := batchStatus s;
     batchJobId := id |}.

Definition ofBool (b : bool) : string := if b then "true" else "false".

(** [startBatch()] up to its [await fetch(...)] *)
Definition startBatch (s : State) : State * list Effect :=
  if String.eqb (batchInputDir s) "" || String.eqb (batchModel s) "" then (s, [])
  else
    let s := set_run true "" s in
    let formData :=
      [ ("input_dir", FormText (batchInputDir s));
        ("output_dir", FormText (batchOutputDir s));
        ("model_id", FormText (batchModel s));
        ("scale", FormText (toString (Z.of_N (batchScale s))));
        ("recursive", FormText (ofBool (batchRecursive s)));
        ("skip_existing", FormText (ofBool (batchSkipExisting s))) ] in
    (s, [Fetch "POST" "/api/upscale/batch" (Some formData)]).

(** [startBatch()] from the answer on; the body of an ok answer is its
    [job_id].  [pollJob(jobId)] only sets the first timer. *)
Definition startBatch_then (r : Response string) (s : State)
  : State * list Effect :=
  match r with
  | Ok job_id =>
      (set_batchJobId (Some job_id) s, [SetTimeout (PollJob job_id) 1000])
  | NotOk _ =>
      (set_batchRunning false s, [toast "Batch start failed" "error"])
  | Threw message =>
      (set_batchRunning false s, [toast message "error"])
  end.

(** a snapshot with a status that ends the job *)
Definition terminal (data : Job.Snapshot) : bool :=
  String.eqb (Job.status data) "completed" || String.eqb (Job.status data) "failed".

(** one run of the closure [poll] of [pollJob(jobId)]: the fetch and
    what follows its outcome *)
Definition poll (jobId : string) (o : Fetched Job.Snapshot) (s : State)
  : State * list Effect :=
  let get := Fetch "GET" ("/api/jobs/" +:+ jobId) None in
  match o with
  | Resolved data =>
      if String.eqb (Job.status data) "completed" then
        let r := match Job.results data with
                 | Some (r :: _) => Some r
                 | _ => None
                 end in
        let st := match r with
                  | Some r =>
                      "Complete: " +:+ toString (Z.of_N (Job.completed r))
                        +:+ " processed, " +:+ toString (Z.of_N (Job.skipped r))
                        +:+ " skipped, " +:+ toString (Z.of_N (Job.failed r))
                        +:+ " failed"
                  | None => "Batch complete"
                  end in
        (set_run false st s, [get; toast "Batch processing complete" "success"])
      else if String.eqb (Job.status data) "failed" then
        (set_run false ("Failed: " +:+ orS (Job.error data) "Unknown error") s,
         [get])
      else (s, [get; SetTimeout (PollJob jobId) 2000])
  | Rejected => (s, [get; SetTimeout (PollJob jobId) 3000])
  end.

(** the poll loop against the outcomes of its successive fetches: [poll]
    runs again only when the previous run set a timer *)
Fixpoint pollLoop (jobId : string) (os : list (Fetched Job.Snapshot))
    (s : State) : State * list Effect :=
  match os with
  | [] => (s, [])
  | o :: os' =>
      let '(s1, fx) := poll jobId o s in
      if existsb isSetTimeout fx then
        let '(s2, fx') := pollLoop jobId os' s1 in (s2, fx ++ fx')
      else (s1, fx)
  end.

(** the trace of one failed poll *)
Definition failedPoll (jobId : string) : list Effect :=
  [Fetch "GET" ("/api/jobs/" +:+ jobId) None; SetTimeout (PollJob jobId) 3000].

(** [pollJob(jobId)] and the loop it starts *)
Definition pollJob (jobId : string) (os : list (Fetched Job.Snapshot))
    (s : State) : State * list Effect :=
  let '(s', fx) := pollLoop jobId os s in
  (s', SetTimeout (PollJob jobId) 1000 :: fx).

(** the outcomes of a poll at which the loop stops *)
Definition ends (o : Fetched Job.Snapshot) : bool :=
  match o with
  | Resolved data => terminal data
  | Rejected => false
  end.

End BatchPanel.

(** ** app.js: [app()] *)
Module App.
Import JS.

(** an entry of the models store; only [is_loaded] is read here *)
Record ModelInfo := { is_loaded : bool }.

Record State := {
  tab : string;
  showSettings : bool;
  uploadedFile : option File   (* null, or the File *);
  selectedModel : string;
  upscaleScale : N;
  outputFormat : string;
  isProcessing : bool;
  resultUrl : option string;
  loadedModelCount : nat;
  compareModels : list string;
  compareScale : N;
  isComparing : bool;
  comparisonId : option string;
  ws : option nat   (* the WebSocket, by creation order *);
  wsReconnectTimer : option nat   (* a timer id *);
  _pingInterval : option nat   (* a timer id; undefined at first *);
  models : list ModelInfo   (* Alpine.store('models').list *)
}.

Definition initial : State :=
  {| tab := "models"; showSettings := false; uploadedFile := None;
     selectedModel := ""; upscaleScale := 4; outputFormat := "png";
     isProcessing := false; resultUrl := None; loadedModelCount := 0;
     compareModels := []; compareScale := 4; isComparing := false;
     comparisonId := None; ws := None; wsReconnectTimer := None;
     _pingInterval := None; models := [] |}.

Definition set_isProcessing (v : bool) (s : State) : State :=
  {| tab := tab s; showSettings := showSettings s;
     uploadedFile := uploadedFile s; selectedModel := selectedModel s;
     upscaleScale := upscaleScale s; outputFormat := outputFormat s;
     isProcessing := v; resultUrl := resultUrl s;
     loadedModelCount := loadedModelCount s;
     compareModels := compareModels s; compareScale := compareScale s;
     isComparing := isComparing s; comparisonId := comparisonId s;
     ws := ws s; wsReconnectTimer := wsReconnectTimer s;
     _pingInterval := _pingInterval s; models := models s |}.

Definition set_resultUrl (v : option string) (s : State) : State :=
  {| tab := tab s; showSettings := showSettings s;
     uploadedFile := uploadedFile s; selectedModel := selectedModel s;
     upscaleScale := upscaleScale s; outputFormat := outputFormat s;
     isProcessing := isProcessing s; resultUrl := v;
     loadedModelCount := loadedModelCount s;
     compareModels := compareModels s; compareScale := compareScale s;
     isComparing := isComparing s; comparisonId := comparisonId s;
     ws := ws s; wsReconnectTimer := wsReconnectTimer s;
     _pingInterval := _pingInterval s; models := models s |}.

Definition set_loadedModelCount (v : nat) (s : State) : State :=
  {| tab := tab s; showSettings := showSettings s;
     uploadedFile := uploadedFile s; selectedModel := selectedModel s;
     upscaleScale := upscaleScale s; outputFormat := outputFormat s;
     isProcessing := isProcessing s; resultUrl := resultUrl s;
     loadedModelCount := v; compareModels := compareModels s;
     compareScale := compareScale s; isComparing := isComparing s;
     comparisonId := comparisonId s; ws := ws s;
     wsReconnectTimer := wsReconnectTimer s;
     _pingInterval := _pingInterval s; models := models s |}.

Definition set_isComparing (v : bool) (s : State) : State :=
  {| tab := tab s; showSettings := showSettings s;
     uploadedFile := uploadedFile s; selectedModel := selectedModel s;
     upscaleScale := upscaleScale s; outputFormat := outputFormat s;
     isProcessing := isProcessing s; resultUrl := resultUrl s;
     loadedModelCount := loadedModelCount s;
     compareModels := compareModels s; compareScale := compareScale s;
     isComparing := v; comparisonId := comparisonId s; ws := ws s;
     wsReconnectTimer := wsReconnectTimer s;
     _pingInterval := _pingInterval s; models := models s |}.

Definition set_comparisonId (v : option string) (s : State) : State :=
  {| tab := tab s; showSettings := showSettings s;
     uploadedFile := uploadedFile s; selectedModel := selectedModel s;
     upscaleScale := upscaleScale s; outputFormat := outputFormat s;
     isProcessing := isProcessing s; resultUrl := resultUrl s;
     loadedModelCount := loadedModelCount s;
     compareModels := compareModels s; compareScale := compareScale s;
     isComparing := isComparing s; comparisonId := v; ws := ws s;
     wsReconnectTimer := wsReconnectTimer s;
     _pingInterval := _pingInterval s; models := models s |}.

Definition set_ws (v : option nat) (s : State) : State :=
  {| tab := tab s; showSettings := showSettings s;
     uploadedFile := uploadedFile s; selectedModel := selectedModel s;
     upscaleScale := upscaleScale s; outputFormat := outputFormat s;
     isProcessing := isProcessing s; resultUrl := resultUrl s;
     loadedModelCount := loadedModelCount s;
     compareModels := compareModels s; compareScale := compareScale s;
     isComparing := isComparing s; comparisonId := comparisonId s; ws := v;
     wsReconnectTimer := wsReconnectTimer s;
     _pingInterval := _pingInterval s; models := models s |}.

Definition set_wsReconnectTimer (v : option nat) (s : State) : State :=
  {| tab := tab s; showSettings := showSettings s;
     uploadedFile := uploadedFile s; selectedModel := selectedModel s;
     upscaleScale := upscaleScale s; outputFormat := outputFormat s;
     isProcessing := isProcessing s; resultUrl := resultUrl s;
     loadedModelCount := loadedModelCount s;
     compareModels := compareModels s; compareScale := compareScale s;
     isComparing := isComparing s; comparisonId := comparisonId s;
     ws := ws s; wsReconnectTimer := v; _pingInterval := _pingInterval s;
     models := models s |}.

Definition set_pingInterval (v : option nat) (s : State) : State :=
  {| tab := tab s; showSettings := showSettings s;
     uploadedFile := uploadedFile s; selectedModel := selectedModel s;
     upscaleScale := upscaleScale s; outputFormat := outputFormat s;
     isProcessing := isProcessing s; resultUrl := resultUrl s;
     loadedModelCount := loadedModelCount s;
     compareModels := compareModels s; compareScale := compareScale s;
     isComparing := isComparing s; comparisonId := comparisonId s;
     ws := ws s; wsReconnectTimer := wsReconnectTimer s; _pingInterval := v;
     models := models s |}.

Definition set_models (v : list ModelInfo) (s : State) : State :=
  {| tab := tab s; showSettings := showSettings s;
     uploadedFile := uploadedFile s; selectedModel := selectedModel s;
     upscaleScale := upscaleScale s; outputFormat := outputFormat s;
     isProcessing := isProcessing s; resultUrl := resultUrl s;
     loadedModelCount := loadedModelCount s;
     compareModels := compareModels s; compareScale := compareScale s;
     isComparing := isComparing s; comparisonId := comparisonId s;
     ws := ws s; wsReconnectTimer := wsReconnectTimer s;
     _pingInterval := _pingInterval s; models := v |}.

(** *** The browser: sockets and timers *)

Inductive ReadyState := CONNECTING | OPEN | CLOSING | CLOSED.

(** the closures handed to [setInterval] and [setTimeout] by [init] and
    [connectWebSocket] *)
Inductive Callback := Ping | Reconnect | UpdateLoadedCount.

Record Timer := { callback : Callback; delay : Z; repeating : bool }.

(** Timeouts and intervals share one table of ids, never reused.  A
    socket is [CLOSED] here once its close event has been delivered. *)
Record Browser := {
  sockets : list ReadyState;
  timers : gmap nat Timer;
  nextTimer : nat;
  sent : list (nat * string)     (* ws.send, per socket *)
}.

Record World := { this : State; browser : Browser }.

Definition setTimer (t : Timer) (b : Browser) : nat * Browser :=
  (nextTimer b,
   {| sockets := sockets b;
      timers := <[nextTimer b := t]> (timers b);
      nextTimer := S (nextTimer b);
      sent := sent b |}).

Definition setInterval (cb : Callback) (ms : Z) (b : Browser) : nat * Browser :=
  setTimer {| callback := cb; delay := ms; repeating := true |} b.

Definition setTimeout (cb : Callback) (ms : Z) (b : Browser) : nat * Browser :=
  setTimer {| callback := cb; delay := ms; repeating := false |} b.

(** [clearInterval(id)]; an undefined or unknown id clears nothing *)
Definition clearInterval (id : option nat) (b : Browser) : Browser :=
  match id with
  | Some i =>
      {| sockets := sockets b; timers := delete i (timers b);
         nextTimer := nextTimer b; sent := sent b |}
  | None => b
  end.

Definition setSocket (i : nat) (st : ReadyState) (b : Browser) : Browser :=
  {| sockets := <[i := st]> (sockets b); timers := timers b;
     nextTimer := nextTimer b; sent := sent b |}.

(** [new WebSocket(url)] *)
Definition newWebSocket (b : Browser) : nat * Browser :=
  (length (sockets b),
   {| sockets := sockets b ++ [CONNECTING]; timers := timers b;
      nextTimer := nextTimer b; sent := sent b |}).

(** [socket.close()]: starts the closing handshake of a socket that is
    connecting or open, and does nothing otherwise *)
Definition close (i : nat) (b : Browser) : Browser :=
  match sockets b !! i with
  | Some CONNECTING | Some OPEN => setSocket i CLOSING b
  | _ => b
  end.

Definition send (i : nat) (msg : string) (b : Browser) : Browser :=
  {| sockets := sockets b; timers := timers b;
     nextTimer := nextTimer b; sent := sent b ++ [(i, msg)] |}.

(** *** The methods of [app()] *)

Definition updateLoadedCount (s : State) : State :=
  set_loadedModelCount (length (filter (fun m => is_loaded m = true) (models s))) s.

(** [Alpine.store('models').refresh()] from the answer on *)
Definition refresh_then (r : Fetched (list ModelInfo)) (s : State) : State :=
  match r with
  | Resolved l => set_models l s
  | Rejected => s
  end.

(** [connectWebSocket()]; [throws] tells whether [new WebSocket(wsUrl)]
    throws, which the [catch] only logs.  The four handlers of the new
    socket are [onopen], [onmessage], [onclose] and [onerror] below. *)
Definition connectWebSocket (throws : bool) (w : World) : World :=
  if throws then w
  else
    let '(i, b) := newWebSocket (browser w) in
    {| this := set_ws (Some i) (this w); browser := b |}.

Definition onopen (w : World) : World :=
  let '(id, b) := setInterval Ping 30000 (browser w) in
  {| this := set_pingInterval (Some id) (this w); browser := b |}.

(** the closure of the keepalive interval *)
Definition ping (w : World) : World :=
  match ws (this w) with
  | Some i =>
      match sockets (browser w) !! i with
      | Some OPEN => {| this := this w; browser := send i "ping" (browser w) |}
      | _ => w
      end
  | None => w
  end.

Definition handleWSEvent (data : WsData) (s : State) : State * list Effect :=
  let fx := [DispatchEvent "ws-event" (DWs data)] in
  let '(s, fx) :=
    if String.eqb (type data) "model_loaded" || String.eqb (type data) "model_loading"
    then (updateLoadedCount s, fx ++ [Fetch "GET" "/api/models" None])
    else (s, fx) in
  let fx :=
    if String.eqb (type data) "comparison_model_done" && success data
    then fx ++ [DispatchEvent "comparison-model-done" (DWs data)]
    else fx in
  let fx :=
    if String.eqb (type data) "image_complete"
    then fx ++ [toast "Image processing complete" "success"]
    else fx in
  let fx :=
    if String.eqb (type data) "image_error"
    then fx ++ [toast ("Error: " +:+ orS (error data) "Processing failed") "error"]
    else fx in
  (s, fx).

(** what [JSON.parse(event.data)] makes of a frame: an object, taken with
    the fields of [WsData]; a value that is no object; or nothing, when
    it throws *)
Inductive Frame :=
| Object (data : WsData)
| Other (v : Json.NonObject)
| Malformed.

(** [ws.onmessage].  Whatever parses is handed to [handleWSEvent], which
    republishes it first.  Of a value that is no object the [type] is
    undefined, or reading it throws when the value is null, which the
    [catch] swallows: nothing follows the [ws-event] either way.  A frame
    that does not parse is dropped. *)
Definition onmessage (frame : Frame) (w : World) : World * list Effect :=
  match frame with
  | Object data =>
      let '(s, fx) := handleWSEvent data (this w) in
      ({| this := s; browser := browser w |}, fx)
  | Other v => (w, [DispatchEvent "ws-event" (DValue v)])
  | Malformed => (w, [])
  end.

Definition onclose (w : World) : World :=
  let b := clearInterval (_pingInterval (this w)) (browser w) in
  let '(id, b) := setTimeout Reconnect 3000 b in
  {| this := set_wsReconnectTimer (Some id) (this w); browser := b |}.

Definition onerror (w : World) : World :=
  match ws (this w) with
  | Some i => {| this := this w; browser := close i (browser w) |}
  | None => w
  end.

(** [init()] from the answer to its [refresh()] on *)
Definition init (r : Fetched (list ModelInfo)) (throws : bool) (w : World) : World :=
  let w := {| this := updateLoadedCount (refresh_then r (this w));
              browser := browser w |} in
  let w := connectWebSocket throws w in
  let '(_, b) := setInterval UpdateLoadedCount 5000 (browser w) in
  {| this := this w; browser := b |}.

(** *** The event loop of the connection

    What the browser may deliver: the open event of a connecting socket,
    a frame on an open socket, an error or the close event of a socket
    whose close event is still to come, and a timer that is set. *)
Inductive Label :=
| SockOpen (i : nat)
| SockMessage (i : nat) (frame : Frame)
| SockError (i : nat)
| SockClose (i : nat)
| TimerFires (id : nat) (throws : bool).

Definition runCallback (cb : Callback) (throws : bool) (w : World) : World :=
  match cb with
  | Ping => ping w
  | Reconnect => connectWebSocket throws w
  | UpdateLoadedCount => {| this := updateLoadedCount (this w); browser := browser w |}
  end.

Definition withBrowser (f : Browser -> Browser) (w : World) : World :=
  {| this := this w; browser := f (browser w) |}.

Definition step (l : Label) (w : World) : option (World * list Effect) :=
  match l with
  | SockOpen i =>
      match sockets (browser w) !! i with
      | Some CONNECTING => Some (onopen (withBrowser (setSocket i OPEN) w), [])
      | _ => None
      end
  | SockMessage i frame =>
      match sockets (browser w) !! i with
      | Some OPEN => Some (onmessage frame w)
      | _ => None
      end
  | SockError i =>
      match sockets (browser w) !! i with
      | Some CLOSED | None => None
      | Some _ => Some (onerror w, [])
      end
  | SockClose i =>
      match sockets (browser w) !! i with
      | Some CLOSED | None => None
      | Some _ => Some (onclose (withBrowser (setSocket i CLOSED) w), [])
      end
  | TimerFires id throws =>
      match timers (browser w) !! id with
      | Some t =>
          (* a timeout leaves the table when it fires, an interval stays *)
          let w := if repeating t then w
                   else withBrowser (clearInterval (Some id)) w in
          Some (runCallback (callback t) throws w, [])
      | None => None
      end
  end.

(** the fields of the connection *)
Definition connection (s : State) : option nat * option nat * option nat :=
  (ws s, wsReconnectTimer s, _pingInterval s).

(** the worlds the page can be in: [init] on a fresh page, then events;
    in between, the other methods of [app()] and the bindings of the page
    write to the fields, but not to those of the connection *)
Inductive reachable : World -> Prop :=
| reach_init r throws :
    reachable (init r throws
                 {| this := initial;
                    browser := {| sockets := []; timers := ∅;
                                  nextTimer := 0; sent := [] |} |})
| reach_step w l w' fx :
    reachable w -> step l w = Some (w', fx) -> reachable w'
| reach_other w s :
    reachable w -> connection s = connection (this w) ->
    reachable {| this := s; browser := browser w |}.

(** *** Job submission *)

(** [startUpscale()] up to its [await fetch(...)] *)
Definition startUpscale (s : State) : State * list Effect :=
  match uploadedFile s with
  | None => (s, [])
  | Some file =>
      if String.eqb (selectedModel s) "" then (s, [])
      else
        let s := set_resultUrl None (set_isProcessing true s) in
        let formData :=
          [ ("file", FormFile file);
            ("model_id", FormText (selectedModel s));
            ("scale", FormText (toString (Z.of_N (upscaleScale s))));
            ("output_format", FormText (outputFormat s)) ] in
        (s, [Fetch "POST" "/api/upscale" (Some formData)])
  end.

(** [startUpscale()] from the answer on; the body of an ok answer is the
    object URL made of its blob *)
Definition startUpscale_then (r : Response string) (s : State)
  : State * list Effect :=
  match r with
  | Ok url =>
      (set_isProcessing false (set_resultUrl (Some url) s),
       [DispatchEvent "result-ready" (DResultReady url)])
  | NotOk detail =>
      (set_isProcessing false s, [toast (orS detail "Upscale failed") "error"])
  | Threw message =>
      (set_isProcessing false s, [toast message "error"])
  end.

(** [startComparison()] up to its [await fetch(...)] *)
Definition startComparison (s : State) : State * list Effect :=
  match uploadedFile s with
  | None => (s, [])
  | Some file =>
      if (length (compareModels s) =? 0)%nat then (s, [])
      else
        let s := set_isComparing true s in
        let formData :=
          [ ("file", FormFile file);
            ("model_ids", FormText (String.concat "," (compareModels s)));
            ("scale", FormText (toString (Z.of_N (compareScale s))));
            ("output_format", FormText (outputFormat s)) ] in
        (s, [Fetch "POST" "/api/compare" (Some formData)])
  end.

(** *** The comparison poll loop *)

(** what the closure [poll] of [pollComparison] captures *)
Record Closure := { expectedCount : nat; seen : gset string }.

(** [pollComparison(comparisonId)]: only captures and sets the first timer *)
Definition pollComparison (comparisonId : string) (s : State)
  : Closure * list Effect :=
  ({| expectedCount := length (compareModels s); seen := ∅ |},
   [SetTimeout (PollComparison comparisonId) 2000]).

(** [startComparison()] from the answer on; the body of an ok answer is
    its [comparison_id] and [input_image_id] *)
Definition startComparison_then (r : Response (string * string)) (s : State)
  : State * option Closure * list Effect :=
  match r with
  | Ok (comparison_id, input_image_id) =>
      let s := set_comparisonId (Some comparison_id) s in
      let originalUrl := "/api/images/" +:+ input_image_id in
      let '(c, fx) := pollComparison comparison_id s in
      (s, Some c,
       DispatchEvent "comparison-start"
         (DComparisonStart comparison_id originalUrl (compareModels s)) :: fx)
  | NotOk detail =>
      (set_isComparing false s, None,
       [toast (orS detail "Comparison failed") "error"])
  | Threw message =>
      (set_isComparing false s, None, [toast message "error"])
  end.

Definition resultEvent (result : Compare.Result) : Effect :=
  DispatchEvent "comparison-result"
    (DComparisonResult
       (Compare.model_id result)
       (Compare.image_id result)
       (match Compare.image_id result with
        | Some id => if String.eqb id "" then None
                     else Some ("/api/images/" +:+ id)
        | None => None
        end)
       (Compare.duration_seconds result)
       (Compare.success result)
       (Compare.error result)).

(** the [for (const result of data.results)] loop *)
Fixpoint forResults (rs : list Compare.Result) (seen : gset string)
  : gset string * list Effect :=
  match rs with
  | [] => (seen, [])
  | result :: rs' =>
      if decide (Compare.model_id result ∈ seen) then forResults rs' seen
      else
        let '(seen', fx) := forResults rs' ({[Compare.model_id result]} ∪ seen) in
        (seen', resultEvent result :: fx)
  end.

(** one run of the closure [poll]: the fetch and what follows its
    outcome.  A body without a [results] list makes the [for] throw,
    which the [catch] takes like a failed fetch. *)
Definition poll (comparisonId : string) (o : Fetched Compare.Snapshot)
    (c : Closure) (s : State) : Closure * State * list Effect :=
  let get := Fetch "GET" ("/api/compare/" +:+ comparisonId) None in
  match o with
  | Resolved data =>
      match Compare.results data with
      | Some rs =>
          let '(seen', fx) := forResults rs (seen c) in
          let c' := {| expectedCount := expectedCount c; seen := seen' |} in
          if (size seen' <? expectedCount c)%nat then
            (c', s, get :: fx ++ [SetTimeout (PollComparison comparisonId) 1500])
          else
            (c', set_isComparing false s,
             get :: fx ++ [toast "Comparison complete" "success"])
      | None => (c, s, [get; SetTimeout (PollComparison comparisonId) 2000])
      end
  | Rejected => (c, s, [get; SetTimeout (PollComparison comparisonId) 2000])
  end.

(** *** Push frames and poll runs of one comparison, interleaved *)

Inductive Input :=
| Push (data : WsData)                       (* a frame handed to handleWSEvent *)
| Polled (o : Fetched Compare.Snapshot).     (* the poll timer fires *)

(** the page during a comparison; [pending] tells whether the poll timer
    is set *)
Record Session := { page : State; closure : Closure; pending : bool }.

Definition deliver (comparisonId : string) (i : Input) (x : Session)
  : Session * list Effect :=
  match i with
  | Push data =>
      let '(s, fx) := handleWSEvent data (page x) in
      ({| page := s; closure := closure x; pending := pending x |}, fx)
  | Polled o =>
      if pending x then
        let '(c, s, fx) := poll comparisonId o (closure x) (page x) in
        ({| page := s; closure := c; pending := existsb isSetTimeout fx |}, fx)
      else (x, [])
  end.

Fixpoint run (comparisonId : string) (ins : list Input) (x : Session)
  : Session * list Effect :=
  match ins with
  | [] => (x, [])
  | i :: ins' =>
      let '(x1, fx) := deliver comparisonId i x in
      let '(x2, fx') := run comparisonId ins' x1 in
      (x2, fx ++ fx')
  end.

(** a comparison from the call of [pollComparison] on *)
Definition comparison (comparisonId : string) (ins : list Input) (s : State)
  : Session * list Effect :=
  let '(c, fx) := pollComparison comparisonId s in
  let '(x, fx') := run comparisonId ins {| page := s; closure := c; pending := true |} in
  (x, fx ++ fx').

(** the session that [pollComparison] leaves behind *)
Definition started (s : State) : Session :=
  {| page := s;
     closure := {| expectedCount := length (compareModels s); seen := ∅ |};
     pending := true |}.

(** the completion notifications about sub-unit [id] in a trace: the
    [comparison-result] events of the poll loop and the
    [comparison-model-done] events of the push channel *)
Definition isResultFor (id : string) (e : Effect) : bool :=
  match e with
  | DispatchEvent name (DComparisonResult m _ _ _ _ _) =>
      String.eqb name "comparison-result" && String.eqb m id
  | _ => false
  end.

Definition isModelDoneFor (id : string) (e : Effect) : bool :=
  match e with
  | DispatchEvent name (DWs data) =>
      String.eqb name "comparison-model-done"
        && match model_id data with Some m => String.eqb m id | None => false end
  | _ => false
  end.

Definition notifications (id : string) (fx : list Effect) : nat :=
  count (fun e => isResultFor id e || isModelDoneFor id e) fx.

(** the frames of the push channel that report sub-unit [id] done *)
Definition reportsDone (id : string) (i : Input) : bool :=
  match i with
  | Push data =>
      String.eqb (type data) "comparison_model_done" && success data
        && match model_id data with Some m => String.eqb m id | None => false end
  | Polled _ => false
  end.

(** 1 when [id] is in the Seen-set, 0 otherwise *)
Definition inSeen (id : string) (seen : gset string) : nat :=
  if decide (id ∈ seen) then 1 else 0.

Definition isComplete (e : Effect) : bool :=
  match e with
  | DispatchEvent name (DToast msg _) =>
      String.eqb name "toast" && String.eqb msg "Comparison complete"
  | _ => false
  end.

Definition isResult (e : Effect) : bool :=
  match e with
  | DispatchEvent name (DComparisonResult _ _ _ _ _ _) =>
      String.eqb name "comparison-result"
  | _ => false
  end.

(** a fetch that resolved to a body with these results *)
Definition snapshot (rs : list Compare.Result) : Fetched Compare.Snapshot :=
  Resolved {| Compare.results := Some rs |}.

(** the trace of one failed poll of the comparison loop *)
Definition failedPoll (comparisonId : string) : list Effect :=
  [Fetch "GET" ("/api/compare/" +:+ comparisonId) None;
   SetTimeout (PollComparison comparisonId) 2000].

(** *** The connection, as an invariant of the event loop *)

Definition reconnectTimer : Timer :=
  {| callback := Reconnect; delay := 3000; repeating := false |}.

(** the interval of [onopen] and the interval of [init] *)
Definition pingTimer : Timer :=
  {| callback := Ping; delay := 30000; repeating := true |}.

Definition counterTimer : Timer :=
  {| callback := UpdateLoadedCount; delay := 5000; repeating := true |}.

Definition allClosed (w : World) : Prop :=
  forall i st, sockets (browser w) !! i = Some st -> st = CLOSED.

(** At most the socket in [this.ws] is live; a keepalive interval exists
    only for it, under the id in [_pingInterval]; a reconnect timeout
    exists only while every socket is closed, under the id in
    [wsReconnectTimer]. *)
Record Inv (w : World) : Prop := {
  inv_live : forall i st,
    sockets (browser w) !! i = Some st -> st <> CLOSED -> ws (this w) = Some i;
  inv_fresh : forall id t,
    timers (browser w) !! id = Some t -> (id < nextTimer (browser w))%nat;
  inv_ping : forall id t,
    timers (browser w) !! id = Some t -> callback t = Ping ->
    _pingInterval (this w) = Some id /\
    exists i, ws (this w) = Some i /\
      (sockets (browser w) !! i = Some OPEN \/
       sockets (browser w) !! i = Some CLOSING);
  inv_reconnect : forall id t,
    timers (browser w) !! id = Some t -> callback t = Reconnect ->
    t = reconnectTimer /\ wsReconnectTimer (this w) = Some id /\ allClosed w
}.

(** the timers of the page: the counter under id 0, and keepalive and
    reconnect timers as [onopen] and [onclose] set them *)
Definition shaped (w : World) : Prop :=
  timers (browser w) !! 0%nat = Some counterTimer /\
  (1 <= nextTimer (browser w))%nat /\
  _pingInterval (this w) <> Some 0%nat /\
  forall id t, timers (browser w) !! id = Some t ->
               t = counterTimer \/ t = pingTimer \/ t = reconnectTimer.

(** a page before [init] *)
Definition fresh : World :=
  {| this := initial;
     browser := {| sockets := []; timers := ∅; nextTimer := 0; sent := [] |} |}.

(** a page whose first socket opened, and then closed *)
Definition afterOpen : World :=
  onopen (withBrowser (setSocket 0 OPEN) (init Rejected false fresh)).

Definition afterClose : World :=
  onclose (withBrowser (setSocket 0 CLOSED) afterOpen).

(** *** Runs of the event loop *)

(** the events [ls] delivered one after the other, with the events
    dispatched on the window along the way; [None] when one of them is
    not deliverable where it stands *)
Fixpoint steps (ls : list Label) (w : World) : option (World * list Effect) :=
  match ls with
  | [] => Some (w, [])
  | l :: ls' =>
      match step l w with
      | Some (w1, fx) =>
          match steps ls' w1 with
          | Some (w2, fx') => Some (w2, fx ++ fx')
          | None => None
          end
      | None => None
      end
  end.

(** the values of the frames of a run that parse, in arrival order *)
Fixpoint frames (ls : list Label) : list Detail :=
  match ls with
  | [] => []
  | SockMessage _ (Object data) :: ls' => DWs data :: frames ls'
  | SockMessage _ (Other v) :: ls' => DValue v :: frames ls'
  | _ :: ls' => frames ls'
  end.

(** the details of the [ws-event] events of a trace, in order *)
Fixpoint wsEvents (fx : list Effect) : list Detail :=
  match fx with
  | [] => []
  | DispatchEvent name detail :: fx' =>
      if String.eqb name "ws-event" then detail :: wsEvents fx' else wsEvents fx'
  | _ :: fx' => wsEvents fx'
  end.

(** the number of entries of the models list that are loaded *)
Definition loaded (l : list ModelInfo) : nat :=
  length (filter (fun m => is_loaded m = true) l).

(** no socket is left to close and no reconnect is pending *)
Definition disconnected (w : World) : Prop :=
  allClosed w /\
  forall id t, timers (browser w) !! id = Some t -> callback t <> Reconnect.

End App.

(** ** ImageViewer.js: [imageViewer()] *)
Module ImageViewer.
Import JS.

(** Zoom, offsets and pointer coordinates are numbers; the coordinates of
    a pointer event are pixels, far inside the normal range. *)

Record State := {
  zoom : Q;
  panX : Q;
  panY : Q;
  isPanning : bool;
  panStartX : Q;
  panStartY : Q;
  panBaseX : Q;
  panBaseY : Q;
  resultUrl : option string
}.

Definition initial : State :=
  {| zoom := 1; panX := 0; panY := 0; isPanning := false;
     panStartX := 0; panStartY := 0; panBaseX := 0; panBaseY := 0;
     resultUrl := None |}.

Definition set_zoom (z : Q) (s : State) : State :=
  {| zoom := z; panX := panX s; panY := panY s; isPanning := isPanning s;
     panStartX := panStartX s; panStartY := panStartY s;
     panBaseX := panBaseX s; panBaseY := panBaseY s;
     resultUrl := resultUrl s |}.

Definition resetView (s : State) : State :=
  {| zoom := 1; panX := 0; panY := 0; isPanning := isPanning s;
     panStartX := panStartX s; panStartY := panStartY s;
     panBaseX := panBaseX s; panBaseY := panBaseY s;
     resultUrl := resultUrl s |}.

(** [initViewer(detail)]: [detail] may be missing, and so may its [url];
    an empty [url] is falsy *)
Definition initViewer (detail : option (option string)) (s : State) : State :=
  match detail with
  | Some (Some url) =>
      if String.eqb url "" then s
      else
        resetView
          {| zoom := zoom s; panX := panX s; panY := panY s;
             isPanning := isPanning s;
             panStartX := panStartX s; panStartY := panStartY s;
             panBaseX := panBaseX s; panBaseY := panBaseY s;
             resultUrl := Some url |}
  | _ => s
  end.

Definition zoomIn (s : State) : State :=
  set_zoom (Math_min 10 (fmul (zoom s) (literal (125 # 100)))) s.

Definition zoomOut (s : State) : State :=
  set_zoom (Math_max (literal (1 # 10)) (fdiv (zoom s) (literal (125 # 100)))) s.

(** [handleWheel(event)], of which only [event.deltaY] is read *)
Definition handleWheel (deltaY : Q) (s : State) : State :=
  let delta := if gtb deltaY 0 then (- literal (1 # 10))%Q else literal (1 # 10) in
  set_zoom
    (Math_max (literal (1 # 10))
       (Math_min 10 (fadd (zoom s) (fmul delta (zoom s))))) s.

(** [startPan(event)] with [event.button], [event.clientX] and
    [event.clientY] *)
Definition startPan (button : Z) (clientX clientY : Q) (s : State) : State :=
  if negb (button =? 0)%Z then s
  else
    {| zoom := zoom s; panX := panX s; panY := panY s; isPanning := true;
       panStartX := clientX; panStartY := clientY;
       panBaseX := panX s; panBaseY := panY s;
       resultUrl := resultUrl s |}.

Definition handlePan (clientX clientY : Q) (s : State) : State :=
  if negb (isPanning s) then s
  else
    {| zoom := zoom s;
       panX := fadd (panBaseX s) (fdiv (fsub clientX (panStartX s)) (zoom s));
       panY := fadd (panBaseY s) (fdiv (fsub clientY (panStartY s)) (zoom s));
       isPanning := isPanning s;
       panStartX := panStartX s; panStartY := panStartY s;
       panBaseX := panBaseX s; panBaseY := panBaseY s;
       resultUrl := resultUrl s |}.

Definition endPan (s : State) : State :=
  {| zoom := zoom s; panX := panX s; panY := panY s; isPanning := false;
     panStartX := panStartX s; panStartY := panStartY s;
     panBaseX := panBaseX s; panBaseY := panBaseY s;
     resultUrl := resultUrl s |}.

(** a call of one of the methods, as the page's bindings make them *)
Inductive Call :=
| InitViewer (detail : option (option string))
| ZoomIn
| ZoomOut
| ResetView
| HandleWheel (deltaY : Q)
| StartPan (button : Z) (clientX clientY : Q)
| HandlePan (clientX clientY : Q)
| EndPan.

Definition call (c : Call) (s : State) : State :=
  match c with
  | InitViewer detail => initViewer detail s
  | ZoomIn => zoomIn s
  | ZoomOut => zoomOut s
  | ResetView => resetView s
  | HandleWheel deltaY => handleWheel deltaY s
  | StartPan button x y => startPan button x y s
  | HandlePan x y => handlePan x y s
  | EndPan => endPan s
  end.

(** the viewer after a sequence of calls *)
Definition after (cs : list Call) (s : State) : State :=
  fold_left (fun s c => call c s) cs s.

(** the calls that leave a drag going: they touch neither [isPanning]
    nor the point and offsets at which the drag began *)
Definition keepsDrag (c : Call) : bool :=
  match c with
  | ZoomIn | ZoomOut | HandleWheel _ | HandlePan _ _ => true
  | _ => false
  end.

(** the zoom is a number between the literal [0.1] and 10, and the
    offsets are numbers *)
Definition inRange (s : State) : Prop :=
  isNumber (zoom s) /\ (literal (1 # 10) <= zoom s)%Q /\ (zoom s <= 10)%Q /\
  isNumber (panX s) /\ isNumber (panY s).

End ImageViewer.

(** ** ComparisonView.js: [comparisonView()] *)
Module ComparisonView.
Import JS.

Record Panel := {
  id : string;
  label : string;
  url : option string;
  duration : option Q;
  loaded : bool
}.

Record State := {
  panels : list Panel;
  sharedZoom : Q;
  sharedPanX : Q;
  sharedPanY : Q;
  isPanning : bool;
  panStartX : Q;
  panStartY : Q;
  panBaseX : Q;
  panBaseY : Q
}.

Definition initial : State :=
  {| panels := []; sharedZoom := 1; sharedPanX := 0; sharedPanY := 0;
     isPanning := false; panStartX := 0; panStartY := 0;
     panBaseX := 0; panBaseY := 0 |}.

Definition set_panels (ps : list Panel) (s : State) : State :=
  {| panels := ps; sharedZoom := sharedZoom s;
     sharedPanX := sharedPanX s; sharedPanY := sharedPanY s;
     isPanning := isPanning s;
     panStartX := panStartX s; panStartY := panStartY s;
     panBaseX := panBaseX s; panBaseY := panBaseY s |}.

(** the getter [gridCols] *)
Definition gridCols (s : State) : nat :=
  let count := length (panels s) in
  if (count <=? 2)%nat then count
  else if (count <=? 4)%nat then 2%nat
  else 3%nat.

Definition resetZoom (s : State) : State :=
  {| panels := panels s; sharedZoom := 1; sharedPanX := 0; sharedPanY := 0;
     isPanning := isPanning s;
     panStartX := panStartX s; panStartY := panStartY s;
     panBaseX := panBaseX s; panBaseY := panBaseY s |}.

Definition original (originalUrl : string) : Panel :=
  {| id := "original"; label := "Original"; url := Some originalUrl;
     duration := None; loaded := false |}.

Definition placeholder (modelId : string) : Panel :=
  {| id := modelId; label := modelId; url := None;
     duration := None; loaded := false |}.

(** the listener of [comparison-start] *)
Definition onComparisonStart (originalUrl : string) (modelIds : list string)
    (s : State) : State :=
  let s := resetZoom (set_panels [] s) in
  let s := set_panels (panels s ++ [original originalUrl]) s in
  fold_left (fun s modelId => set_panels (panels s ++ [placeholder modelId]) s)
            modelIds s.

(** the two assignments to the panel found *)
Definition settle (modelId : string) (imageUrl : option string) (duration : Q)
    (success : bool) (panel : Panel) : Panel :=
  let shown := match imageUrl with
               | Some u => negb (String.eqb u "")
               | None => false
               end in
  if success && shown then
    {| id := id panel; label := label panel; url := imageUrl;
       duration := Some duration; loaded := loaded panel |}
  else
    {| id := id panel; label := modelId +:+ " (failed)"; url := url panel;
       duration := Some duration; loaded := loaded panel |}.

(** [f] applied to what [panels.find(p => p.id === modelId)] returns, in
    place; nothing when it returns undefined *)
Fixpoint onFound (modelId : string) (f : Panel -> Panel) (ps : list Panel)
  : list Panel :=
  match ps with
  | [] => []
  | p :: ps' =>
      if String.eqb (id p) modelId then f p :: ps'
      else p :: onFound modelId f ps'
  end.

(** [panels.find(p => p.id === modelId)] *)
Definition find (modelId : string) (ps : list Panel) : option Panel :=
  List.find (fun p => String.eqb (id p) modelId) ps.

(** the listener of [comparison-result] *)
Definition onComparisonResult (modelId : string) (imageUrl : option string)
    (duration : Q) (success : bool) (s : State) : State :=
  set_panels (onFound modelId (settle modelId imageUrl duration success) (panels s)) s.

(** the two listeners that [init()] puts on the window, against an event
    dispatched there; events of other names reach neither *)
Definition listen (e : Effect) (s : State) : State :=
  match e with
  | DispatchEvent name (DComparisonStart _ originalUrl modelIds) =>
      if String.eqb name "comparison-start"
      then onComparisonStart originalUrl modelIds s else s
  | DispatchEvent name (DComparisonResult modelId _ imageUrl duration success _) =>
      if String.eqb name "comparison-result"
      then onComparisonResult modelId imageUrl duration success s else s
  | _ => s
  end.

(** the view after the events of a trace, in order *)
Definition observe (fx : list Effect) (s : State) : State :=
  fold_left (fun s e => listen e s) fx s.

Definition handleWheel (deltaY : Q) (s : State) : State :=
  let delta := if gtb deltaY 0 then (- literal (1 # 10))%Q else literal (1 # 10) in
  {| panels := panels s;
     sharedZoom :=
       Math_max (25 # 100)
         (Math_min 10 (fadd (sharedZoom s) (fmul delta (sharedZoom s))));
     sharedPanX := sharedPanX s; sharedPanY := sharedPanY s;
     isPanning := isPanning s;
     panStartX := panStartX s; panStartY := panStartY s;
     panBaseX := panBaseX s; panBaseY := panBaseY s |}.

Definition startPan (button : Z) (clientX clientY : Q) (s : State) : State :=
  if negb (button =? 0)%Z then s
  else
    {| panels := panels s; sharedZoom := sharedZoom s;
       sharedPanX := sharedPanX s; sharedPanY := sharedPanY s;
       isPanning := true;
       panStartX := clientX; panStartY := clientY;
       panBaseX := sharedPanX s; panBaseY := sharedPanY s |}.

Definition handlePan (clientX clientY : Q) (s : State) : State :=
  if negb (isPanning s) then s
  else
    let dx := fdiv (fsub clientX (panStartX s)) (sharedZoom s) in
    let dy := fdiv (fsub clientY (panStartY s)) (sharedZoom s) in
    {| panels := panels s; sharedZoom := sharedZoom s;
       sharedPanX := fadd (panBaseX s) dx;
       sharedPanY := fadd (panBaseY s) dy;
       isPanning := isPanning s;
       panStartX := panStartX s; panStartY := panStartY s;
       panBaseX := panBaseX s; panBaseY := panBaseY s |}.

Definition endPan (s : State) : State :=
  {| panels := panels s; sharedZoom := sharedZoom s;
     sharedPanX := sharedPanX s; sharedPanY := sharedPanY s;
     isPanning := false;
     panStartX := panStartX s; panStartY := panStartY s;
     panBaseX := panBaseX s; panBaseY := panBaseY s |}.

(** [saveAll()]: the panels it fetches, in order.  [fetched n] tells
    whether the [n]-th fetch and its [blob()] go through; the result is
    the requests made and the [download] names of the anchors clicked. *)
Fixpoint saveFrom (fetched : nat -> bool) (n : nat) (ps : list Panel)
  : list Effect * list string :=
  match ps with
  | [] => ([], [])
  | panel :: ps' =>
      match url panel with
      | Some u =>
          if String.eqb u "" || String.eqb (id panel) "original"
          then saveFrom fetched n ps'
          else
            let '(fx, names) := saveFrom fetched (S n) ps' in
            (Fetch "GET" u None :: fx,
             if fetched n then ("comparison_" +:+ id panel +:+ ".png") :: names
             else names)
      | None => saveFrom fetched n ps'
      end
  end.

Definition saveAll (fetched : nat -> bool) (s : State)
  : list Effect * list string :=
  saveFrom fetched 0 (panels s).

(** a call of one of the methods, or an event on the window *)
Inductive Call :=
| Window (e : Effect)
| HandleWheel (deltaY : Q)
| StartPan (button : Z) (clientX clientY : Q)
| HandlePan (clientX clientY : Q)
| EndPan
| ResetZoom.

Definition call (c : Call) (s : State) : State :=
  match c with
  | Window e => listen e s
  | HandleWheel deltaY => handleWheel deltaY s
  | StartPan button x y => startPan button x y s
  | HandlePan x y => handlePan x y s
  | EndPan => endPan s
  | ResetZoom => resetZoom s
  end.

(** the view after a sequence of calls *)
Definition after (cs : list Call) (s : State) : State :=
  fold_left (fun s c => call c s) cs s.

(** the calls that leave a drag going *)
Definition keepsDrag (c : Call) : bool :=
  match c with
  | HandleWheel _ | HandlePan _ _ | Window (DispatchEvent _ (DComparisonResult _ _ _ _ _ _)) => true
  | _ => false
  end.

(** the zoom is a number between 0.25 and 10, and the offsets are
    numbers *)
Definition inRange (s : State) : Prop :=
  isNumber (sharedZoom s) /\ (25 # 100 <= sharedZoom s)%Q /\
  (sharedZoom s <= 10)%Q /\
  isNumber (sharedPanX s) /\ isNumber (sharedPanY s).

(** the ids of the panels, in grid order *)
Definition ids (s : State) : list string := map id (panels s).

(** a panel and what a result can make of it: the id and [loaded] stay,
    and the label stays or becomes "<id> (failed)" *)
Definition samePanel (p p' : Panel) : Prop :=
  id p' = id p /\ loaded p' = loaded p /\
  (label p' = label p \/ label p' = id p +:+ " (failed)").

(** the panels that [saveAll] does not skip *)
Definition savable (p : Panel) : bool :=
  match url p with
  | Some u => negb (String.eqb u "" || String.eqb (id p) "original")
  | None => false
  end.

(** the request for a panel and the [download] name of its anchor *)
Definition request (p : Panel) : Effect :=
  Fetch "GET" (match url p with Some u => u | None => "" end) None.

Definition download (p : Panel) : string := "comparison_" +:+ id p +:+ ".png".

(** the panels among [ps] whose fetch goes through, the first of them
    being fetch number [n] *)
Fixpoint delivered (fetched : nat -> bool) (n : nat) (ps : list Panel) : list Panel :=
  match ps with
  | [] => []
  | p :: ps' =>
      if fetched n then p :: delivered fetched (S n) ps'
      else delivered fetched (S n) ps'
  end.

(** the events that the listener of [comparison-start] takes *)
Definition isStart (e : Effect) : bool :=
  match e with
  | DispatchEvent name (DComparisonStart _ _ _) => String.eqb name "comparison-start"
  | _ => false
  end.

End ComparisonView.

(** ** ProgressTracker.js: [imageUploader()] *)
Module ImageUploader.
Import JS.

(** *** The regular expression of [processFile]

    Patterns as far as [/\.(png|jpe?g|webp|bmp|tiff?)$/i] needs them, and
    a backtracking matcher.  A string is the sequence of its bytes in
    UTF-8; the pattern holds ASCII characters only, and under the flag [i]
    without the flag [u] a character outside ASCII is never equal to an
    ASCII one, so that matching bytes is matching code units. *)
Inductive Regex :=
| Chr (c : ascii)
| Seq (r1 r2 : Regex)
| Alt (r1 r2 : Regex)
| Opt (r : Regex)
| Eps
| AtEnd.

(** [toUpperCase] and [toLowerCase] on an ASCII character *)
Definition upper (a : ascii) : ascii :=
  let n := nat_of_ascii a in
  if (97 <=? n)%nat && (n <=? 122)%nat then ascii_of_nat (n - 32) else a.

Definition lower (a : ascii) : ascii :=
  let n := nat_of_ascii a in
  if (65 <=? n)%nat && (n <=? 90)%nat then ascii_of_nat (n + 32) else a.

Fixpoint toLowerCase (s : string) : string :=
  match s with
  | EmptyString => EmptyString
  | String a s' => String (lower a) (toLowerCase s')
  end.

(** two characters are equal under the flag [i] *)
Definition eqbi (c a : ascii) : bool := Ascii.eqb (upper c) (upper a).

(** [r] matches at the head of [s] with the rest accepted by [k] *)
Fixpoint matchAt (r : Regex) (s : string) (k : string -> bool) : bool :=
  match r with
  | Chr c =>
      match s with
      | String a s' => eqbi c a && k s'
      | EmptyString => false
      end
  | Seq r1 r2 => matchAt r1 s (fun s' => matchAt r2 s' k)
  | Alt r1 r2 => matchAt r1 s k || matchAt r2 s k
  | Opt r => matchAt r s k || k s
  | Eps => k s
  | AtEnd =>
      match s with
      | EmptyString => k s
      | String _ _ => false
      end
  end.

(** [s.match(r)] is not null: [r] matches at some position of [s] *)
Fixpoint matches (r : Regex) (s : string) : bool :=
  matchAt r s (fun _ => true)
  || match s with
     | EmptyString => false
     | String _ s' => matches r s'
     end.

(** the characters of a word, one after the other *)
Fixpoint word (w : string) : Regex :=
  match w with
  | EmptyString => Eps
  | String c w' => Seq (Chr c) (word w')
  end.

(** [/\.(png|jpe?g|webp|bmp|tiff?)$/i] *)
Definition extension : Regex :=
  Seq (Chr ".")
    (Seq (Alt (word "png")
         (Alt (Seq (word "jp") (Seq (Opt (Chr "e")) (Chr "g")))
         (Alt (word "webp")
         (Alt (word "bmp")
              (Seq (word "tif") (Opt (Chr "f")))))))
         AtEnd).

(** *** The component *)

(** a [File]: its name, its MIME type and its size in bytes *)
Record UploadFile := { name : string; type : string; size : N }.

Record State := {
  dragover : bool;
  preview : option string;
  fileName : string;
  dimensions : string;
  fileSize : string
}.

Definition initial : State :=
  {| dragover := false; preview := None; fileName := "";
     dimensions := ""; fileSize := "" |}.

(** what [processFile] finds in the document: whether the element with
    [x-data="app"] carries [__x], and whether the root of the uploader
    has an ancestor with [x-data="app"] that carries [_x_dataStack] *)
Record Document := { legacy : bool; stacked : bool }.

(** what [processFile] asks for besides its own fields *)
Inductive Request :=
| Window (e : Effect)                        (* window.dispatchEvent *)
| Dispatch (name : string) (file : UploadFile)   (* this.$dispatch *)
| ReadAsDataURL (file : UploadFile).

Definition validTypes : list string :=
  ["image/png"; "image/jpeg"; "image/webp"; "image/bmp"; "image/tiff"].

(** the negation of the guard of [processFile] *)
Definition accepted (file : UploadFile) : bool :=
  existsb (String.eqb (type file)) validTypes || matches extension (name file).

(** [uploadedFile = file] on the data of [app()] *)
Definition store (file : UploadFile) (a : App.State) : App.State :=
  {| App.tab := App.tab a; App.showSettings := App.showSettings a;
     App.uploadedFile := Some {| file_name := name file |};
     App.selectedModel := App.selectedModel a;
     App.upscaleScale := App.upscaleScale a;
     App.outputFormat := App.outputFormat a;
     App.isProcessing := App.isProcessing a;
     App.resultUrl := App.resultUrl a;
     App.loadedModelCount := App.loadedModelCount a;
     App.compareModels := App.compareModels a;
     App.compareScale := App.compareScale a;
     App.isComparing := App.isComparing a;
     App.comparisonId := App.comparisonId a;
     App.ws := App.ws a; App.wsReconnectTimer := App.wsReconnectTimer a;
     App._pingInterval := App._pingInterval a; App.models := App.models a |}.

(** [processFile(file)] up to [reader.readAsDataURL(file)] *)
Definition processFile (file : UploadFile) (d : Document)
    (s : State) (a : App.State) : State * App.State * list Request :=
  if negb (accepted file) then
    (s, a, [Window (toast "Unsupported file format" "error")])
  else
    let s :=
      {| dragover := dragover s; preview := preview s;
         fileName := name file; dimensions := dimensions s;
         fileSize :=
           toFixed1 (fdiv (fdiv (ofN (size file)) 1024) 1024) +:+ " MB" |} in
    let a := if legacy d then store file a else a in
    let a := if stacked d then store file a else a in
    (s, a, [Dispatch "file-selected" file; ReadAsDataURL file]).

(** [reader.onload] with the data URL read *)
Definition onReaderLoad (result : string) (s : State) : State :=
  {| dragover := dragover s; preview := Some result;
     fileName := fileName s; dimensions := dimensions s;
     fileSize := fileSize s |}.

(** [img.onload] with the width and height of the image *)
Definition onImageLoad (width height : N) (s : State) : State :=
  {| dragover := dragover s; preview := preview s; fileName := fileName s;
     dimensions :=
       toString (Z.of_N width) +:+ " x " +:+ toString (Z.of_N height);
     fileSize := fileSize s |}.

(** [handleDrop(event)] with [event.dataTransfer.files] *)
Definition handleDrop (files : list UploadFile) (d : Document)
    (s : State) (a : App.State) : State * App.State * list Request :=
  let s := {| dragover := false; preview := preview s; fileName := fileName s;
              dimensions := dimensions s; fileSize := fileSize s |} in
  match files with
  | file :: _ => processFile file d s a
  | [] => (s, a, [])
  end.

(** [handleFileSelect(event)] with [event.target.files] *)
Definition handleFileSelect (files : list UploadFile) (d : Document)
    (s : State) (a : App.State) : State * App.State * list Request :=
  match files with
  | file :: _ => processFile file d s a
  | [] => (s, a, [])
  end.

(** the extensions that the pattern is written for *)
Definition extensions : list string :=
  ["png"; "jpg"; "jpeg"; "webp"; "bmp"; "tif"; "tiff"].

End ImageUploader.

(** ** ModelSelector: [modelSelector()] *)
Module ModelSelector.
Import JS.

(** an entry of the registry, as [GET /api/models/available] gives it and
    with the flag that [loadModels] adds *)
Record Entry := {
  key : string;
  name : string;
  is_downloaded : bool;
  downloading : bool
}.

(** the fields of the component; [availableModels] holds objects, here
    their addresses *)
Record State := {
  models : list App.ModelInfo;
  availableModels : list nat;
  showAvailable : bool;
  loading : bool
}.

(** the component, the objects it has made, by address, and
    [Alpine.store('models').list] *)
Record Page := {
  this : State;
  heap : list Entry;
  store : list App.ModelInfo
}.

Definition initial : Page :=
  {| this := {| models := []; availableModels := [];
                showAvailable := false; loading := false |};
     heap := []; store := [] |}.

(** what the component asks for *)
Inductive Request :=
| Get (url : string)
| PostJson (url : string) (body : list (string * string))
| Toast (msg kind : string).

Definition set_loading (v : bool) (p : Page) : Page :=
  {| this := {| models := models (this p);
                availableModels := availableModels (this p);
                showAvailable := showAvailable (this p); loading := v |};
     heap := heap p; store := store p |}.

(** [entry.downloading = v] and [entry.is_downloaded = v] on the object
    at address [a] *)
Definition set_downloading (a : nat) (v : bool) (p : Page) : Page :=
  {| this := this p;
     heap := match heap p !! a with
             | Some e =>
                 <[a := {| key := key e; name := name e;
                           is_downloaded := is_downloaded e;
                           downloading := v |}]> (heap p)
             | None => heap p
             end;
     store := store p |}.

Definition set_is_downloaded (a : nat) (v : bool) (p : Page) : Page :=
  {| this := this p;
     heap := match heap p !! a with
             | Some e =>
                 <[a := {| key := key e; name := name e;
                           is_downloaded := v;
                           downloading := downloading e |}]> (heap p)
             | None => heap p
             end;
     store := store p |}.

(** [{...m, downloading: false}] *)
Definition fresh (m : Entry) : Entry :=
  {| key := key m; name := name m; is_downloaded := is_downloaded m;
     downloading := false |}.

(** [loadModels()] from its first [await] on: [r1] is the outcome of the
    fetch inside [refresh()], which catches its own failure, and [r2] that
    of the fetch of the registry *)
Definition loadModels_then (r1 : Fetched (list App.ModelInfo))
    (r2 : Fetched (list Entry)) (p : Page) : Page * list Request :=
  let store' := match r1 with Resolved l => l | Rejected => store p end in
  let p :=
    match r2 with
    | Resolved ms =>
        {| this :=
             {| models := store';
                availableModels := seq (length (heap p)) (length ms);
                showAvailable :=
                  if (length store' =? 0)%nat then true
                  else showAvailable (this p);
                loading := loading (this p) |};
           heap := heap p ++ map fresh ms;
           store := store' |}
    | Rejected =>
        {| this :=
             {| models := store';
                availableModels := availableModels (this p);
                showAvailable := showAvailable (this p);
                loading := loading (this p) |};
           heap := heap p;
           store := store' |}
    end in
  (set_loading false p, [Get "/api/models"; Get "/api/models/available"]).

(** [loadModels()] *)
Definition loadModels (r1 : Fetched (list App.ModelInfo))
    (r2 : Fetched (list Entry)) (p : Page) : Page * list Request :=
  loadModels_then r1 r2 (set_loading true p).

(** [downloadModel(entry)] up to its [await fetch(...)], for the entry at
    address [a] *)
Definition downloadModel (a : nat) (p : Page) : Page * list Request :=
  let p := set_downloading a true p in
  (p, match heap p !! a with
      | Some e => [PostJson "/api/models/download" [("model_key", key e)]]
      | None => []
      end).

(** [downloadModel(entry)] from the answer on; [r1] and [r2] are the
    outcomes of the two fetches of the [loadModels()] that follows an ok
    answer *)
Definition downloadModel_then (a : nat) (r : Response unit)
    (r1 : Fetched (list App.ModelInfo)) (r2 : Fetched (list Entry))
    (p : Page) : Page * list Request :=
  let '(p, fx) :=
    match r with
    | Ok _ =>
        let p := set_is_downloaded a true p in
        let msg := match heap p !! a with
                   | Some e => name e +:+ " downloaded"
                   | None => " downloaded"
                   end in
        let '(p, fx) := loadModels r1 r2 p in
        (p, Toast msg "success" :: fx)
    | NotOk _ => (p, [Toast ("Download failed: " +:+ "Download failed") "error"])
    | Threw message => (p, [Toast ("Download failed: " +:+ message) "error"])
    end in
  (set_downloading a false p, fx).

(** the entries on display: the objects of [availableModels] *)
Definition shown (p : Page) : list Entry :=
  omap (fun a => heap p !! a) (availableModels (this p)).

End ModelSelector.

(** Bodies of [/api/settings]; a key that is absent is [None]. *)
Module Settings.
Record Body := {
  tile_size : option N;
  tile_overlap : option N;
  default_format : option string;
  jpeg_quality : option N;
  fp16 : option bool;
  default_scale : option N;
  max_loaded_models : option N
}.
End Settings.

(** ** SettingsPanel: [settingsPanel()] *)
Module SettingsPanel.
Import JS.

(** the fields; one that has been assigned undefined is [None] *)
Record State := {
  tileSize : option N;
  defaultFormat : option string;
  jpegQuality : option N;
  fp16 : option bool;
  defaultScale : option N;
  maxLoadedModels : option N
}.

Definition initial : State :=
  {| tileSize := Some 512%N; defaultFormat := Some "png";
     jpegQuality := Some 95%N; fp16 := Some true;
     defaultScale := Some 4%N; maxLoadedModels := Some 3%N |}.

(** [loadSettings()] from the answer to its fetch on *)
Definition loadSettings_then (r : Fetched Settings.Body) (s : State) : State :=
  match r with
  | Resolved data =>
      {| tileSize := Settings.tile_size data;
         defaultFormat := Settings.default_format data;
         jpegQuality := Settings.jpeg_quality data;
         fp16 := Settings.fp16 data;
         defaultScale := Settings.default_scale data;
         maxLoadedModels := Settings.max_loaded_models data |}
  | Rejected => s
  end.

(** the object that [saveSettings()] puts to [/api/settings];
    [JSON.stringify] leaves out a key whose value is undefined *)
Definition saveSettings (s : State) : Settings.Body :=
  {| Settings.tile_size := tileSize s;
     Settings.tile_overlap := Some 32%N;
     Settings.default_format := defaultFormat s;
     Settings.jpeg_quality := jpegQuality s;
     Settings.fp16 := fp16 s;
     Settings.default_scale := defaultScale s;
     Settings.max_loaded_models := maxLoadedModels s |}.

(** [saveSettings()] from the answer on: the toast *)
Definition saveSettings_then (r : Response unit) : Effect :=
  match r with
  | Ok _ => toast "Settings saved" "success"
  | NotOk _ => toast ("Failed to save settings: " +:+ "Save failed") "error"
  | Threw message => toast ("Failed to save settings: " +:+ message) "error"
  end.

(** [data] with its [tile_overlap] set to [v] *)
Definition withOverlap (v : N) (data : Settings.Body) : Settings.Body :=
  {| Settings.tile_size := Settings.tile_size data;
     Settings.tile_overlap := Some v;
     Settings.default_format := Settings.default_format data;
     Settings.jpeg_quality := Settings.jpeg_quality data;
     Settings.fp16 := Settings.fp16 data;
     Settings.default_scale := Settings.default_scale data;
     Settings.max_loaded_models := Settings.max_loaded_models data |}.

End SettingsPanel.

(** ** Sample inputs *)
Module Sample.
Import JS.

(** a frame of kind [ty] with no other field *)
Definition frame (ty : string) : WsData :=
  {| type := ty; tiles_done := None; tiles_total := None; pass_num := None;
     total_passes := None; model_id := None; completed := None;
     total := None; current_file := None; downloaded := None;
     success := false; error := None |}.

(** [{type: "tile_progress", tiles_done: d, tiles_total: t}] *)
Definition tile (d t : N) : WsData :=
  {| type := "tile_progress"; tiles_done := Some d; tiles_total := Some t;
     pass_num := None; total_passes := None; model_id := None;
     completed := None; total := None; current_file := None;
     downloaded := None; success := false; error := None |}.


(** [{type: "model_loading", model_id: m}] *)
Definition modelLoading (m : string) : WsData :=
  {| type := "model_loading"; tiles_done := None; tiles_total := None;
     pass_num := None; total_passes := None; model_id := Some m;
     completed := None; total := None; current_file := None;
     downloaded := None; success := false; error := None |}.

(** [{type: "comparison_model_done", model_id: m, success: true}] *)
Definition modelDone (m : string) : WsData :=
  {| type := "comparison_model_done"; tiles_done := None; tiles_total := None;
     pass_num := None; total_passes := None; model_id := Some m;
     completed := None; total := None; current_file := None;
     downloaded := None; success := true; error := None |}.

(** [{type: "download_progress", downloaded: d, total: t}] *)
Definition download (d t : N) : WsData :=
  {| type := "download_progress"; tiles_done := None; tiles_total := None;
     pass_num := None; total_passes := None; model_id := None;
     completed := None; total := Some t; current_file := None;
     downloaded := Some d; success := false; error := None |}.

(** a successful result of model [m] *)
Definition result (m : string) : Compare.Result :=
  {| Compare.model_id := m; Compare.image_id := Some ("img-" +:+ m);
     Compare.duration_seconds := 1; Compare.success := true;
     Compare.error := None |}.

(** the page comparing the models [ms] *)
Definition comparing (ms : list string) : App.State :=
  {| App.tab := "compare"; App.showSettings := false;
     App.uploadedFile := Some {| file_name := "photo.png" |};
     App.selectedModel := ""; App.upscaleScale := 4;
     App.outputFormat := "png"; App.isProcessing := false;
     App.resultUrl := None; App.loadedModelCount := 0;
     App.compareModels := ms; App.compareScale := 4;
     App.isComparing := true; App.comparisonId := Some "cmp-1";
     App.ws := None; App.wsReconnectTimer := None;
     App._pingInterval := None; App.models := [] |}.

(** the batch panel while job-1 runs *)
Definition batchRunning : BatchPanel.State :=
  BatchPanel.set_run true ""
    {| BatchPanel.batchInputDir := "/in"; BatchPanel.batchOutputDir := "/out";
       BatchPanel.batchModel := "esrgan"; BatchPanel.batchScale := 4;
       BatchPanel.batchRecursive := false;
       BatchPanel.batchSkipExisting := false;
       BatchPanel.batchRunning := false; BatchPanel.batchStatus := "";
       BatchPanel.batchJobId := Some "job-1" |}.

(** a job snapshot with status [st] and one result with these counts *)
Definition jobSnapshot (st : string) (c s f : N) : Job.Snapshot :=
  {| Job.status := st;
     Job.results := Some [{| Job.completed := c; Job.skipped := s; Job.failed := f |}];
     Job.error := None |}.

(** a page with model [m] chosen and no file yet *)
Definition chosen (m : string) : App.State :=
  {| App.tab := "upscale"; App.showSettings := false;
     App.uploadedFile := None;
     App.selectedModel := m; App.upscaleScale := 4;
     App.outputFormat := "png"; App.isProcessing := false;
     App.resultUrl := None; App.loadedModelCount := 0;
     App.compareModels := []; App.compareScale := 4;
     App.isComparing := false; App.comparisonId := None;
     App.ws := None; App.wsReconnectTimer := None;
     App._pingInterval := None; App.models := [] |}.

(** a photo whose type the browser does not tell, and a text file *)
Definition photo : ImageUploader.UploadFile :=
  {| ImageUploader.name := "Photo.JPG"; ImageUploader.type := "";
     ImageUploader.size := 2000000 |}.

Definition notes : ImageUploader.UploadFile :=
  {| ImageUploader.name := "notes.txt"; ImageUploader.type := "text/plain";
     ImageUploader.size := 10 |}.

(** a document in which the uploader sits inside the element of [app()] *)
Definition inApp : ImageUploader.Document :=
  {| ImageUploader.legacy := false; ImageUploader.stacked := true |}.

End Sample.

(** * Proofs *)

(** ** Rounding *)
Section Rounding.
Import JS.
Local Open Scope Q_scope.

Lemma pow2_pos e : 0 < pow2 e.
Proof. apply Qpower_0_lt. reflexivity. Qed.

Lemma pow2_add a b : pow2 (a + b) == pow2 a * pow2 b.
Proof. apply Qpower_plus. discriminate. Qed.

Lemma pow2_le a b : (a <= b)%Z -> pow2 a <= pow2 b.
Proof. intros H. apply Qpower_le_compat_l; [exact H | discriminate]. Qed.

Lemma pow2_lt a b : (a < b)%Z -> pow2 a < pow2 b.
Proof. intros H. apply Qpower_lt_compat_l; [exact H | reflexivity]. Qed.

Lemma pow2_inject n : (0 <= n)%Z -> inject_Z (2 ^ n) == pow2 n.
Proof. intros H. unfold pow2. now rewrite Zpower_Qpower. Qed.

Lemma Qnum_pos q : 0 < q -> (0 < Qnum q)%Z.
Proof. destruct q as [a b]. unfold Qlt. simpl. lia. Qed.

(** [ilog2] brackets a positive rational between two powers of two *)
Lemma ilog2_spec q : 0 < q -> pow2 (ilog2 q) <= q /\ q < pow2 (ilog2 q + 1).
Proof.
  intros Hq. pose proof (Qnum_pos q Hq) as Ha.
  destruct q as [a b]. simpl in Ha. unfold ilog2. simpl Qnum. simpl Qden.
  set (la := Z.log2 a). set (lb := Z.log2 (Z.pos b)).
  destruct (Z.log2_spec a Ha) as [A1 A2]. fold la in A1, A2.
  destruct (Z.log2_spec (Z.pos b) eq_refl) as [B1 B2]. fold lb in B1, B2.
  assert (La : (0 <= la)%Z) by apply Z.log2_nonneg.
  assert (Lb : (0 <= lb)%Z) by apply Z.log2_nonneg.
  rewrite Zle_Qle, pow2_inject in A1 by lia.
  rewrite Zlt_Qlt, pow2_inject in A2 by lia.
  rewrite Zle_Qle, pow2_inject in B1 by lia.
  rewrite Zlt_Qlt, pow2_inject in B2 by lia.
  assert (E : (a # b) * inject_Z (Z.pos b) == inject_Z a).
  { rewrite Qmake_Qdiv. field. discriminate. }
  pose proof (pow2_pos lb) as Pb. pose proof (pow2_pos (Z.succ lb)) as Pb'.
  destruct (Qle_bool (pow2 (la - lb)) (a # b)) eqn:T.
  - apply Qle_bool_iff in T. split; [exact T|].
    assert (X : pow2 (la - lb + 1) * pow2 lb == pow2 (Z.succ la)).
    { rewrite <- pow2_add. f_equiv. lia. }
    apply (Qmult_lt_r _ _ (pow2 lb) Pb). rewrite X.
    apply Qle_lt_trans with (2 := A2). rewrite <- E.
    apply Qmult_le_l; [exact Hq | exact B1].
  - assert (T' : (a # b) < pow2 (la - lb)).
    { apply Qnot_le_lt. intros C. apply Qle_bool_iff in C. congruence. }
    split.
    + assert (X : pow2 (la - lb - 1) * pow2 (Z.succ lb) == pow2 la).
      { rewrite <- pow2_add. f_equiv. lia. }
      apply (Qmult_le_r _ _ (pow2 (Z.succ lb)) Pb'). rewrite X.
      apply Qle_trans with (1 := A1). rewrite <- E.
      apply Qmult_le_l; [exact Hq | apply Qlt_le_weak, B2].
    + replace (la - lb - 1 + 1)%Z with (la - lb)%Z by lia. exact T'.
Qed.

Lemma ilog2_mono p q : 0 < p -> p <= q -> (ilog2 p <= ilog2 q)%Z.
Proof.
  intros Hp Hpq.
  destruct (ilog2_spec p Hp) as [P1 _].
  destruct (ilog2_spec q (Qlt_le_trans _ _ _ Hp Hpq)) as [_ Q2].
  destruct (Z_le_gt_dec (ilog2 p) (ilog2 q)) as [L|G]; [exact L|].
  exfalso. assert (pow2 (ilog2 q + 1) <= pow2 (ilog2 p)) by (apply pow2_le; lia).
  lra.
Qed.

Lemma rne_floor x : (Qfloor x <= rne x <= Qfloor x + 1)%Z.
Proof.
  unfold rne. destruct (x - inject_Z (Qfloor x) ?= 1 # 2); try lia.
  destruct (Z.even (Qfloor x)); lia.
Qed.

Lemma rne_lower n x : inject_Z n <= x -> (n <= rne x)%Z.
Proof.
  intros H. apply Qfloor_resp_le in H. rewrite Qfloor_Z in H.
  pose proof (rne_floor x). lia.
Qed.

Lemma rne_upper n x : x <= inject_Z n -> (rne x <= n)%Z.
Proof.
  intros H. pose proof (Qfloor_resp_le _ _ H) as F. rewrite Qfloor_Z in F.
  destruct (Z.eq_dec (Qfloor x) n) as [E|NE].
  - unfold rne. rewrite E.
    destruct (Qcompare_spec (x - inject_Z n) (1 # 2)); try lia; exfalso; lra.
  - pose proof (rne_floor x). lia.
Qed.

Lemma rne_mono x y : x <= y -> (rne x <= rne y)%Z.
Proof.
  intros H. pose proof (Qfloor_resp_le _ _ H) as F.
  destruct (Z.eq_dec (Qfloor x) (Qfloor y)) as [E|NE].
  - unfold rne. rewrite E.
    destruct (Qcompare_spec (x - inject_Z (Qfloor y)) (1 # 2));
      destruct (Qcompare_spec (y - inject_Z (Qfloor y)) (1 # 2));
      try destruct (Z.even (Qfloor y)); try lia; exfalso; lra.
  - pose proof (rne_floor x). pose proof (rne_floor y). lia.
Qed.

Lemma scaled_range q : 0 < q ->
  inject_Z (2 ^ 52) <= q / pow2 (ilog2 q - 52) /\
  q / pow2 (ilog2 q - 52) <= inject_Z (2 ^ 53).
Proof.
  intros Hq. destruct (ilog2_spec q Hq) as [L U].
  pose proof (pow2_pos (ilog2 q - 52)) as P.
  rewrite !pow2_inject by lia. split.
  - apply Qle_shift_div_l; [exact P|]. rewrite <- pow2_add.
    replace (52 + (ilog2 q - 52))%Z with (ilog2 q) by lia. exact L.
  - apply Qle_shift_div_r; [exact P|]. rewrite <- pow2_add.
    replace (53 + (ilog2 q - 52))%Z with (ilog2 q + 1)%Z by lia.
    apply Qlt_le_weak, U.
Qed.

(** a rounded positive number stays in the binade of its argument *)
Lemma round53_pos_range q : 0 < q ->
  pow2 (ilog2 q) <= round53_pos q /\ round53_pos q <= pow2 (ilog2 q + 1).
Proof.
  intros Hq. destruct (scaled_range q Hq) as [L U].
  apply rne_lower in L. apply rne_upper in U.
  rewrite Zle_Qle in L, U. rewrite pow2_inject in L, U by lia.
  pose proof (pow2_pos (ilog2 q - 52)) as P.
  unfold round53_pos. cbv zeta. split.
  - replace (ilog2 q) with (52 + (ilog2 q - 52))%Z at 1 by lia.
    rewrite pow2_add. apply Qmult_le_compat_r; [exact L | lra].
  - replace (ilog2 q + 1)%Z with (53 + (ilog2 q - 52))%Z by lia.
    rewrite pow2_add. apply Qmult_le_compat_r; [exact U | lra].
Qed.

Lemma round53_pos_mono p q : 0 < p -> p <= q -> round53_pos p <= round53_pos q.
Proof.
  intros Hp Hpq. assert (Hq : 0 < q) by lra.
  pose proof (ilog2_mono p q Hp Hpq) as M.
  destruct (Z.eq_dec (ilog2 p) (ilog2 q)) as [E|NE].
  - unfold round53_pos. cbv zeta. rewrite E.
    pose proof (pow2_pos (ilog2 q - 52)) as P.
    apply Qmult_le_compat_r; [|lra]. rewrite <- Zle_Qle. apply rne_mono.
    apply Qmult_le_compat_r; [exact Hpq|].
    apply Qlt_le_weak, Qinv_lt_0_compat, P.
  - destruct (round53_pos_range p Hp) as [_ U].
    destruct (round53_pos_range q Hq) as [L _].
    assert (pow2 (ilog2 p + 1) <= pow2 (ilog2 q)) by (apply pow2_le; lia).
    lra.
Qed.

Lemma round53_pos_gt0 q : 0 < q -> 0 < round53_pos q.
Proof.
  intros Hq. destruct (round53_pos_range q Hq) as [L _].
  pose proof (pow2_pos (ilog2 q)). lra.
Qed.

Lemma round53_of_pos q : 0 < q -> round53 q = round53_pos q.
Proof.
  intros Hq. pose proof (Qnum_pos q Hq). unfold round53.
  destruct (Qnum q); try lia. reflexivity.
Qed.

Lemma round53_of_neg q : q < 0 -> round53 q = - round53_pos (- q).
Proof.
  intros Hq. unfold round53. destruct q as [a b]. unfold Qlt in Hq. simpl in *.
  destruct a; try lia. reflexivity.
Qed.

Lemma round53_of_zero q : q == 0 -> round53 q = 0.
Proof.
  intros Hq. unfold round53. destruct q as [a b]. unfold Qeq in Hq. simpl in *.
  destruct a; try lia. reflexivity.
Qed.

Lemma round53_gt0 q : 0 < q -> 0 < round53 q.
Proof. intros Hq. rewrite round53_of_pos by exact Hq. now apply round53_pos_gt0. Qed.

Lemma round53_lt0 q : q < 0 -> round53 q < 0.
Proof.
  intros Hq. rewrite round53_of_neg by exact Hq.
  assert (0 < round53_pos (- q)) by (apply round53_pos_gt0; lra). lra.
Qed.

(** rounding is monotone *)
Lemma round53_mono p q : p <= q -> round53 p <= round53 q.
Proof.
  intros Hpq.
  destruct (Q_dec p 0) as [[Pn|Pp]|Pz], (Q_dec q 0) as [[Qn|Qp]|Qz];
    try (exfalso; lra).
  - rewrite !round53_of_neg by assumption.
    apply Qopp_le_compat, round53_pos_mono; lra.
  - pose proof (round53_lt0 p Pn). pose proof (round53_gt0 q Qp). lra.
  - pose proof (round53_lt0 p Pn). rewrite (round53_of_zero q Qz). lra.
  - rewrite !round53_of_pos by assumption. now apply round53_pos_mono.
  - rewrite (round53_of_zero p Pz). pose proof (round53_gt0 q Qp). lra.
  - rewrite (round53_of_zero p Pz), (round53_of_zero q Qz). lra.
Qed.

Lemma round53_proper x y : x == y -> round53 x == round53 y.
Proof.
  intros H. apply Qle_antisym; apply round53_mono; rewrite H; apply Qle_refl.
Qed.

Lemma fdiv_mono x y t : 0 < t -> x <= y -> fdiv x t <= fdiv y t.
Proof.
  intros Ht H. apply round53_mono. apply Qmult_le_compat_r; [exact H|].
  apply Qlt_le_weak, Qinv_lt_0_compat, Ht.
Qed.


Lemma fdiv_gt0 x y : 0 < x -> 0 < y -> 0 < fdiv x y.
Proof.
  intros Hx Hy. apply round53_gt0. apply Qlt_shift_div_l; [exact Hy | lra].
Qed.


Lemma rne_proper x y : x == y -> rne x = rne y.
Proof.
  intros H. unfold rne.
  assert (F : Qfloor x = Qfloor y) by (now rewrite H).
  rewrite F.
  assert (C : (x - inject_Z (Qfloor y) ?= 1 # 2) = (y - inject_Z (Qfloor y) ?= 1 # 2))
    by (now rewrite H).
  now rewrite C.
Qed.

Lemma rne_inject k : rne (inject_Z k) = k.
Proof.
  unfold rne. rewrite Qfloor_Z.
  destruct (Qcompare_spec (inject_Z k - inject_Z k) (1 # 2)) as [E|L|G]; try reflexivity;
    exfalso; lra.
Qed.


(** on every done of 0..48 tiles and total of 1..48 the percentage is the
    binary64 one, and so is the ETA on 1..12 of 13 tiles at 2001..2012 ms *)
Lemma percent_is_binary64_on_samples :
  forallb (fun t => forallb (fun d => Binary64.percentAgrees d t)
                            (Binary64.upFrom 0 49))
          (Binary64.upFrom 1 48) = true.
Proof. vm_compute. reflexivity. Qed.

Lemma eta_is_binary64_on_samples :
  forallb (fun ms => forallb (fun d => Binary64.etaAgrees d 13 ms)
                             (Binary64.upFrom 1 12))
          (Binary64.upFrom 2001 12) = true.
Proof. vm_compute. reflexivity. Qed.

(** the tie 57.5 goes down in binary64: 23 of 40 tiles show 57 *)
Lemma percent_23_of_40 :
  Math_round (fmul (fdiv 23 40) 100) = 57%Z /\
  Binary64.percentAgrees 23 40 = true.
Proof. vm_compute. split; reflexivity. Qed.

(** 7 of 17 tiles after 2.1 s: the quotient 10 / (7 / 2.1) comes out just
    above 3 in binary64, and the ETA is 4 *)
Lemma eta_7_of_17 :
  Math_ceil (fdiv (fsub 17 7) (fdiv 7 (fdiv 2100 1000))) = 4%Z /\
  Binary64.etaAgrees 7 17 2100 = true.
Proof. vm_compute. split; reflexivity. Qed.

End Rounding.

(** ** The progress reducer *)
Section Tracker.
Import JS ProgressTracker.

Lemma handle_tile now data s :
  type data = "tile_progress" ->
  handleWSEvent now data s =
    {| progressPercent :=
         Math_round (fmul (fdiv (ofN (orN (tiles_done data) 0))
                                (ofN (orN (tiles_total data) 1))) 100);
       progressLabel :=
         if (0 <? orN (tiles_done data) 0)%N && gtb (elapsed now s) 2 then
           tilesLabel data +:+ " — ~"
             +:+ toString (Math_ceil
                   (fdiv (fsub (ofN (orN (tiles_total data) 1))
                               (ofN (orN (tiles_done data) 0)))
                         (fdiv (ofN (orN (tiles_done data) 0)) (elapsed now s))))
             +:+ "s remaining"
         else tilesLabel data;
       startTime := startTime s |}.
Proof.
  intros H. unfold handleWSEvent, tilesLabel. rewrite H. reflexivity.
Qed.

Lemma elapsed_le now s : (elapsedMs now s <= 2000)%Z -> (elapsed now s <= 2)%Q.
Proof.
  unfold elapsedMs, elapsed, fdiv, fsub. intros H.
  set (t := match startTime s with Some t => t | None => 0%Z end) in *.
  assert (A : (inject_Z now - inject_Z t <= 2000)%Q).
  { rewrite Zle_Qle in H. unfold Z.sub in H.
    rewrite inject_Z_plus, inject_Z_opp in H. exact H. }
  apply round53_mono in A.
  assert (R1 : (round53 2000 == 2000)%Q) by (vm_compute; reflexivity).
  assert (B : (round53 (inject_Z now - inject_Z t) / 1000 <= 2000 / 1000)%Q).
  { apply Qmult_le_compat_r; [lra | discriminate]. }
  apply round53_mono in B.
  assert (R2 : (round53 (2000 / 1000) == 2)%Q) by (vm_compute; reflexivity).
  lra.
Qed.


Lemma ofN_pos n : (0 < n)%N -> (0 < ofN n)%Q.
Proof. intros H. unfold ofN. change 0%Q with (inject_Z 0). rewrite <- Zlt_Qlt. lia. Qed.

Lemma ofN_le n m : (n <= m)%N -> (ofN n <= ofN m)%Q.
Proof. intros H. unfold ofN. rewrite <- Zle_Qle. lia. Qed.

(** where an ETA is computed, neither of its two divisions is by zero *)
Lemma eta_divisors_nonzero now data s :
  (0 <? orN (tiles_done data) 0)%N && gtb (elapsed now s) 2 = true ->
  ~ (elapsed now s == 0)%Q /\
  ~ (fdiv (ofN (orN (tiles_done data) 0)) (elapsed now s) == 0)%Q.
Proof.
  intros G. apply andb_true_iff in G. destruct G as [D E].
  apply N.ltb_lt in D. unfold gtb in E. apply negb_true_iff in E.
  assert (L : (2 < elapsed now s)%Q).
  { apply Qnot_le_lt. intros C. apply Qle_bool_iff in C. congruence. }
  pose proof (ofN_pos _ D) as P.
  assert (0 < fdiv (ofN (orN (tiles_done data) 0)) (elapsed now s))%Q
    by (apply fdiv_gt0; [exact P | lra]).
  split; lra.
Qed.

Lemma orN_1_pos x : (0 < orN x 1)%N.
Proof. unfold orN. destruct x as [n|]; [|lia]. destruct (N.eqb_spec n 0); lia. Qed.

Lemma ratio_percent now data s d t :
  ratio data = Some (d, t) ->
  (0 < t)%N /\ progressPercent (handleWSEvent now data s) = percentOf d t.
Proof.
  unfold ratio, tileDivisor, batchDivisor, downloadDivisor. intros R.
  destruct (String.eqb (type data) "tile_progress") eqn:E1.
  - apply String.eqb_eq in E1. inversion R; subst. split; [apply orN_1_pos|].
    rewrite (handle_tile now data s E1). reflexivity.
  - destruct (String.eqb (type data) "batch_progress") eqn:E2.
    + apply String.eqb_eq in E2. inversion R; subst. split; [apply orN_1_pos|].
      unfold handleWSEvent. rewrite E2. reflexivity.
    + destruct (String.eqb (type data) "download_progress") eqn:E3; [|discriminate].
      apply String.eqb_eq in E3. inversion R; subst.
      pose proof (orN_1_pos (total data)) as P. split; [exact P|].
      unfold handleWSEvent. rewrite E3. cbn -[percentOf fdiv fmul toFixed1 Math_round].
      apply N.ltb_lt in P. rewrite P. reflexivity.
Qed.



End Tracker.

(** ** The job poll loop *)
Section Batch.
Import JS BatchPanel.
Variable jobId : string.

Lemma pollLoop_failures n : forall os s,
  pollLoop jobId (repeat Rejected n ++ os) s =
  (fst (pollLoop jobId os s),
   concat (repeat (failedPoll jobId) n) ++ snd (pollLoop jobId os s)).
Proof.
  induction n as [|n IH]; intros os s; cbn [repeat concat app].
  - now destruct (pollLoop jobId os s).
  - cbn [pollLoop poll existsb isSetTimeout orb]. rewrite IH. reflexivity.
Qed.

Lemma poll_terminal data s :
  terminal data = true -> existsb isSetTimeout (snd (poll jobId (Resolved data) s)) = false
    /\ batchRunning (fst (poll jobId (Resolved data) s)) = false.
Proof.
  unfold terminal, poll. intros H.
  destruct (String.eqb (Job.status data) "completed"); [split; reflexivity|].
  destruct (String.eqb (Job.status data) "failed"); [split; reflexivity|].
  discriminate.
Qed.

Lemma poll_running o s :
  existsb isSetTimeout (snd (poll jobId o s)) = true -> fst (poll jobId o s) = s.
Proof.
  unfold poll. destruct o as [|data]; [reflexivity|].
  destruct (String.eqb (Job.status data) "completed"); [discriminate|].
  destruct (String.eqb (Job.status data) "failed"); [discriminate|reflexivity].
Qed.

Lemma poll_stopped o s :
  existsb isSetTimeout (snd (poll jobId o s)) = false ->
  batchRunning (fst (poll jobId o s)) = false.
Proof.
  unfold poll. destruct o as [|data]; [discriminate|].
  destruct (String.eqb (Job.status data) "completed"); [reflexivity|].
  destruct (String.eqb (Job.status data) "failed"); [reflexivity|discriminate].
Qed.

Lemma pollLoop_stops os1 : forall data os2 s,
  terminal data = true ->
  pollLoop jobId (os1 ++ Resolved data :: os2) s =
  pollLoop jobId (os1 ++ [Resolved data]) s.
Proof.
  induction os1 as [|o os1 IH]; intros data os2 s T; cbn [app pollLoop].
  - destruct (poll_terminal data s T) as [E _].
    destruct (poll jobId (Resolved data) s) as [s1 fx]. cbn [snd] in E.
    rewrite E. reflexivity.
  - destruct (poll jobId o s) as [s1 fx].
    destruct (existsb isSetTimeout fx); [|reflexivity].
    rewrite (IH data os2 s1 T). reflexivity.
Qed.

Lemma pollLoop_stopped os1 : forall data s,
  terminal data = true ->
  batchRunning (fst (pollLoop jobId (os1 ++ [Resolved data]) s)) = false.
Proof.
  induction os1 as [|o os1 IH]; intros data s T; cbn [app pollLoop].
  - destruct (poll_terminal data s T) as [E R].
    destruct (poll jobId (Resolved data) s) as [s1 fx]. cbn [snd fst] in *.
    rewrite E. exact R.
  - destruct (poll jobId o s) as [s1 fx] eqn:P.
    destruct (existsb isSetTimeout fx) eqn:X.
    + specialize (IH data s1 T).
      destruct (pollLoop jobId (os1 ++ [Resolved data]) s1). exact IH.
    + pose proof (poll_stopped o s) as S. rewrite P in S. exact (S X).
Qed.
End Batch.

(** ** The comparison poll loop *)
Lemma count_app p fx fx' : count p (fx ++ fx') = (count p fx + count p fx')%nat.
Proof. unfold count. now rewrite List.filter_app, length_app. Qed.

Lemma count_cons p e fx :
count p (e :: fx) = ((if p e then 1 else 0) + count p fx)%nat.
Proof. unfold count. cbn [List.filter]. now destruct (p e). Qed.

Lemma count_none p fx : (forall e, In e fx -> p e = false) -> count p fx = 0%nat.
Proof.
induction fx as [|e fx IH]; intros H; [reflexivity|].
rewrite count_cons, (H e (or_introl eq_refl)), IH; [reflexivity|].
intros e' He'. apply H. now right.
Qed.

Section Comparison.
Import JS App.
Variable comparisonId : string.

(** what a pushed frame makes [handleWSEvent] emit *)
Lemma handleWSEvent_effects data s e :
  In e (snd (handleWSEvent data s)) ->
  e = DispatchEvent "ws-event" (DWs data) \/
  e = Fetch "GET" "/api/models" None \/
  (e = DispatchEvent "comparison-model-done" (DWs data) /\
   String.eqb (type data) "comparison_model_done" && success data = true) \/
  e = toast "Image processing complete" "success" \/
  e = toast ("Error: " +:+ orS (error data) "Processing failed") "error".
Proof.
  unfold handleWSEvent.
  destruct (String.eqb (type data) "model_loaded" || String.eqb (type data) "model_loading"),
    (String.eqb (type data) "comparison_model_done" && success data),
    (String.eqb (type data) "image_complete"),
    (String.eqb (type data) "image_error");
    cbn [snd app In]; intros H; repeat (destruct H as [<-|H]); try contradiction; auto 10.
Qed.

Lemma handleWSEvent_page data s :
  isComparing (fst (handleWSEvent data s)) = isComparing s /\
  compareModels (fst (handleWSEvent data s)) = compareModels s.
Proof.
  unfold handleWSEvent.
  destruct (String.eqb (type data) "model_loaded" || String.eqb (type data) "model_loading");
    split; reflexivity.
Qed.

Lemma push_no_result id data s :
  count (isResultFor id) (snd (handleWSEvent data s)) = 0%nat.
Proof.
  apply count_none. intros e He.
  destruct (handleWSEvent_effects _ _ _ He) as [-> | [-> | [[-> _] | [-> | ->]]]]; reflexivity.
Qed.

Lemma push_no_complete data s :
  count isComplete (snd (handleWSEvent data s)) = 0%nat.
Proof.
  apply count_none. intros e He.
  destruct (handleWSEvent_effects _ _ _ He) as [-> | [-> | [[-> _] | [-> | ->]]]]; reflexivity.
Qed.

Lemma push_model_done id data s :
  count (isModelDoneFor id) (snd (handleWSEvent data s)) =
  if reportsDone id (Push data) then 1%nat else 0%nat.
Proof.
  unfold handleWSEvent, reportsDone.
  destruct (String.eqb (type data) "model_loaded" || String.eqb (type data) "model_loading"),
    (String.eqb (type data) "comparison_model_done" && success data),
    (String.eqb (type data) "image_complete"),
    (String.eqb (type data) "image_error");
    cbv [snd app andb count List.filter isModelDoneFor toast];
    cbn [String.eqb Ascii.eqb Bool.eqb andb length];
    try reflexivity;
    (destruct (model_id data) as [m|]; [destruct (String.eqb m id)|]; reflexivity).
Qed.

Lemma isResultFor_resultEvent id r :
  isResultFor id (resultEvent r) = String.eqb (Compare.model_id r) id.
Proof. reflexivity. Qed.

Lemma inSeen_add_same id (seen : gset string) :
  inSeen id ({[id]} ∪ seen) = 1%nat.
Proof.
  unfold inSeen. destruct (decide _) as [|N]; [reflexivity|].
  exfalso. apply N, elem_of_union_l, elem_of_singleton. reflexivity.
Qed.

Lemma inSeen_add_other id m (seen : gset string) :
  m <> id -> inSeen id ({[m]} ∪ seen) = inSeen id seen.
Proof.
  intros H. unfold inSeen.
  destruct (decide (id ∈ {[m]} ∪ seen)) as [I|N], (decide (id ∈ seen)) as [I'|N'];
    try reflexivity; exfalso.
  - apply elem_of_union in I. destruct I as [I|I]; [|contradiction].
    apply elem_of_singleton in I. congruence.
  - apply N, elem_of_union_r, I'.
Qed.

(** the Seen-set after the loop, and the events it forwards: one for an
    id of the snapshot that was not seen, none for any other *)
Lemma forResults_seen rs : forall seen,
  fst (forResults rs seen) = seen ∪ list_to_set (map Compare.model_id rs).
Proof.
  induction rs as [|r rs IH]; intros seen; cbn [forResults map list_to_set].
  - cbn [fst]. now rewrite union_empty_r_L.
  - destruct (decide (Compare.model_id r ∈ seen)) as [I|N].
    + rewrite IH. apply set_eq. intros x.
      rewrite !elem_of_union, elem_of_singleton. intuition (subst; auto).
    + specialize (IH ({[Compare.model_id r]} ∪ seen)).
      destruct (forResults rs ({[Compare.model_id r]} ∪ seen)) as [seen' fx].
      cbn [fst] in *. rewrite IH. apply set_eq. intros x.
      rewrite !elem_of_union. tauto.
Qed.

Lemma forResults_count id rs : forall seen,
  (count (isResultFor id) (snd (forResults rs seen)) + inSeen id seen
   = inSeen id (fst (forResults rs seen)))%nat.
Proof.
  induction rs as [|r rs IH]; intros seen; cbn [forResults].
  - reflexivity.
  - destruct (decide (Compare.model_id r ∈ seen)) as [I|N]; [apply IH|].
    specialize (IH ({[Compare.model_id r]} ∪ seen)).
    destruct (forResults rs ({[Compare.model_id r]} ∪ seen)) as [seen' fx].
    cbn [fst snd] in *. rewrite count_cons, isResultFor_resultEvent.
    destruct (String.eqb_spec (Compare.model_id r) id) as [E|NE].
    + rewrite E in *. rewrite inSeen_add_same in IH.
      unfold inSeen at 1. destruct (decide (id ∈ seen)); [contradiction|]. lia.
    + rewrite (inSeen_add_other _ _ _ NE) in IH. lia.
Qed.

Lemma forResults_effects rs : forall seen e,
  In e (snd (forResults rs seen)) -> exists r, In r rs /\ e = resultEvent r.
Proof.
  induction rs as [|r rs IH]; intros seen e; cbn [forResults].
  - intros [].
  - destruct (decide (Compare.model_id r ∈ seen)) as [I|N].
    + intros H. destruct (IH _ _ H) as [r' [? ?]]. exists r'. split; [now right|easy].
    + specialize (IH ({[Compare.model_id r]} ∪ seen)).
      destruct (forResults rs ({[Compare.model_id r]} ∪ seen)) as [seen' fx].
      cbn [snd] in *. intros [<-|H].
      * exists r. split; [now left|easy].
      * destruct (IH _ H) as [r' [? ?]]. exists r'. split; [now right|easy].
Qed.

Lemma forResults_only p rs seen :
  (forall r, p (resultEvent r) = false) ->
  count p (snd (forResults rs seen)) = 0%nat.
Proof.
  intros H. apply count_none. intros e He.
  destruct (forResults_effects _ _ _ He) as [r [_ ->]]. apply H.
Qed.

Lemma forResults_no_timer rs seen :
  existsb isSetTimeout (snd (forResults rs seen)) = false.
Proof.
  destruct (existsb isSetTimeout (snd (forResults rs seen))) eqn:E; [|reflexivity].
  apply existsb_exists in E. destruct E as [e [He T]].
  destruct (forResults_effects _ _ _ He) as [r [_ ->]]. discriminate T.
Qed.

Lemma existsb_app_timer fx fx' :
  existsb isSetTimeout (fx ++ fx') = existsb isSetTimeout fx || existsb isSetTimeout fx'.
Proof. apply existsb_app. Qed.

(** one poll run, by the outcome of its fetch *)
Lemma poll_cases o c s :
  let '(c', s', fx) := poll comparisonId o c s in
  expectedCount c' = expectedCount c /\
  seen c ⊆ seen c' /\
  (forall id, (count (isResultFor id) fx + inSeen id (seen c) = inSeen id (seen c'))%nat) /\
  (forall id, count (isModelDoneFor id) fx = 0%nat) /\
  ((existsb isSetTimeout fx = true /\ count isComplete fx = 0%nat /\ s' = s) \/
   (existsb isSetTimeout fx = false /\ count isComplete fx = 1%nat /\
    s' = set_isComparing false s /\
    exists fx', fx = fx' ++ [toast "Comparison complete" "success"])).
Proof.
  unfold poll. destruct o as [|data].
  - repeat split; try reflexivity. left. repeat split; reflexivity.
  - destruct (Compare.results data) as [rs|].
    2:{ repeat split; try reflexivity. left. repeat split; reflexivity. }
    pose proof (forResults_seen rs (seen c)) as S.
    pose proof (fun id => forResults_count id rs (seen c)) as C.
    pose proof (fun id => forResults_only (isModelDoneFor id) rs (seen c) (fun r => eq_refl)) as D.
    pose proof (forResults_only isComplete rs (seen c) (fun r => eq_refl)) as K.
    pose proof (forResults_no_timer rs (seen c)) as T.
    destruct (forResults rs (seen c)) as [seen' fx]. cbn [fst snd] in *.
    destruct (size seen' <? expectedCount c)%nat; cbn [seen expectedCount].
    + split; [reflexivity|]. split; [rewrite S; apply union_subseteq_l|]. split.
      { intros id. rewrite count_cons, count_app. cbn [isResultFor]. rewrite <- C.
        unfold count. cbn. lia. }
      split.
      { intros id. rewrite count_cons, count_app, D. reflexivity. }
      left. split; [|split; [|reflexivity]].
      * cbn [existsb isSetTimeout orb]. rewrite existsb_app_timer, T. reflexivity.
      * rewrite count_cons, count_app, K. reflexivity.
    + split; [reflexivity|]. split; [rewrite S; apply union_subseteq_l|]. split.
      { intros id. rewrite count_cons, count_app. cbn [isResultFor]. rewrite <- C.
        unfold count. cbn. lia. }
      split.
      { intros id. rewrite count_cons, count_app, D. reflexivity. }
      right. split; [|split; [|split; [reflexivity|]]].
      * cbn [existsb isSetTimeout orb]. rewrite existsb_app_timer, T. reflexivity.
      * rewrite count_cons, count_app, K. reflexivity.
      * eexists (_ :: _). reflexivity.
Qed.
Lemma inSeen_le id seen : (inSeen id seen <= 1)%nat.
Proof. unfold inSeen. destruct (decide _); lia. Qed.

Lemma run_results id ins : forall x,
  (count (isResultFor id) (snd (run comparisonId ins x)) + inSeen id (seen (closure x))
   = inSeen id (seen (closure (fst (run comparisonId ins x)))))%nat.
Proof.
  induction ins as [|i ins IH]; intros x; cbn [run]; [reflexivity|].
  destruct (deliver comparisonId i x) as [x1 fx] eqn:D.
  specialize (IH x1). destruct (run comparisonId ins x1) as [x2 fx'].
  cbn [fst snd] in *. rewrite count_app, <- IH.
  assert (count (isResultFor id) fx + inSeen id (seen (closure x))
          = inSeen id (seen (closure x1)))%nat; [|lia].
  destruct i as [data|o]; cbn [deliver] in D.
  - pose proof (push_no_result id data (page x)) as P.
    destruct (handleWSEvent data (page x)) as [s fx0]. inversion D; subst.
    cbn [snd closure] in *. lia.
  - destruct (pending x).
    + pose proof (poll_cases o (closure x) (page x)) as P.
      destruct (poll comparisonId o (closure x) (page x)) as [[c s] fx0].
      inversion D; subst. cbn [closure]. apply P.
    + inversion D; subst. reflexivity.
Qed.

Lemma run_seen_grows ins : forall x,
  seen (closure x) ⊆ seen (closure (fst (run comparisonId ins x))).
Proof.
  induction ins as [|i ins IH]; intros x; cbn [run]; [reflexivity|].
  destruct (deliver comparisonId i x) as [x1 fx] eqn:D.
  specialize (IH x1). destruct (run comparisonId ins x1) as [x2 fx'].
  cbn [fst snd] in *. etransitivity; [|exact IH].
  destruct i as [data|o]; cbn [deliver] in D.
  - destruct (handleWSEvent data (page x)) as [s fx0]. now inversion D; subst.
  - destruct (pending x).
    + pose proof (poll_cases o (closure x) (page x)) as P.
      destruct (poll comparisonId o (closure x) (page x)) as [[c s] fx0].
      inversion D; subst. cbn [closure]. apply P.
    + now inversion D; subst.
Qed.

Lemma run_model_done id ins : forall x,
  count (isModelDoneFor id) (snd (run comparisonId ins x))
  = length (List.filter (reportsDone id) ins).
Proof.
  induction ins as [|i ins IH]; intros x; cbn [run]; [reflexivity|].
  destruct (deliver comparisonId i x) as [x1 fx] eqn:D.
  specialize (IH x1). destruct (run comparisonId ins x1) as [x2 fx'].
  cbn [fst snd] in *. rewrite count_app, IH. cbn [List.filter].
  destruct i as [data|o]; cbn [deliver] in D.
  - pose proof (push_model_done id data (page x)) as P.
    destruct (handleWSEvent data (page x)) as [s fx0]. inversion D; subst.
    cbn [snd] in P. rewrite P. now destruct (reportsDone id (Push data)).
  - cbn [reportsDone]. destruct (pending x).
    + pose proof (poll_cases o (closure x) (page x)) as P.
      destruct (poll comparisonId o (closure x) (page x)) as [[c s] fx0].
      inversion D; subst. destruct P as (_ & _ & _ & P & _). rewrite P. reflexivity.
    + inversion D; subst. reflexivity.
Qed.

(** completion is announced at most once, by the poll run that stops the
    loop; pushed frames never touch [isComparing] *)
Lemma run_complete ins : forall x,
  let '(x', fx) := run comparisonId ins x in
  (count isComplete fx <= if pending x then 1 else 0)%nat /\
  (pending x = false -> pending x' = false /\ isComparing (page x') = isComparing (page x)) /\
  (count isComplete fx = 1%nat ->
     pending x' = false /\ isComparing (page x') = false).
Proof.
  induction ins as [|i ins IH]; intros x; cbn [run].
  - unfold count. cbn. repeat split; try lia; destruct (pending x); lia.
  - destruct (deliver comparisonId i x) as [x1 fx] eqn:D.
    specialize (IH x1). destruct (run comparisonId ins x1) as [x2 fx'].
    destruct IH as (I1 & I2 & I3). rewrite count_app.
    destruct i as [data|o]; cbn [deliver] in D.
    + pose proof (push_no_complete data (page x)) as P.
      pose proof (handleWSEvent_page data (page x)) as [Q _].
      destruct (handleWSEvent data (page x)) as [s fx0]. inversion D; subst.
      cbn [snd fst pending page] in *. rewrite P. cbn [Nat.add].
      split; [exact I1|]. split; [|exact I3].
      intros F. destruct (I2 F) as [? ?]. split; congruence.
    + destruct (pending x) eqn:Px.
      * pose proof (poll_cases o (closure x) (page x)) as P.
        destruct (poll comparisonId o (closure x) (page x)) as [[c s] fx0].
        inversion D; subst. cbn [pending page] in *.
        destruct P as (_ & _ & _ & _ & [(T & K & ->) | (T & K & -> & _)]);
          rewrite T in *; rewrite K; cbv iota in I1 |- *.
        -- cbn [Nat.add]. split; [exact I1|]. split; [discriminate|exact I3].
        -- destruct (I2 eq_refl) as [I2a I2b]. split; [lia|].
           split; [discriminate|]. intros _. split; [exact I2a|]. now rewrite I2b.
      * inversion D; subst. change (count isComplete []) with 0%nat. cbn [Nat.add].
        rewrite Px in *. split; [exact I1|]. split; [exact I2|].
        intros F. cbv iota in I1. exfalso. lia.
Qed.

Lemma run_app ins1 ins2 x :
  run comparisonId (ins1 ++ ins2) x =
  (fst (run comparisonId ins2 (fst (run comparisonId ins1 x))),
   snd (run comparisonId ins1 x) ++ snd (run comparisonId ins2 (fst (run comparisonId ins1 x)))).
Proof.
  revert x. induction ins1 as [|i ins1 IH]; intros x; cbn [run List.app fst snd].
  - now destruct (run comparisonId ins2 x).
  - destruct (deliver comparisonId i x) as [x1 fx]. rewrite IH.
    destruct (run comparisonId ins1 x1) as [x2 fx2]. cbn [fst snd].
    now rewrite app_assoc.
Qed.
End Comparison.

Section Scenario.
Import JS App.

Lemma scenario_B_A_A_C cid s rB rA rA' rC :
  length (compareModels s) = 3%nat ->
  Compare.model_id rB = "B" -> Compare.model_id rA = "A" ->
  Compare.model_id rA' = "A" -> Compare.model_id rC = "C" ->
  let '(x, fx) :=
    comparison cid [Polled (snapshot [rB]); Polled (snapshot [rA]);
                    Polled (snapshot [rA']); Polled (snapshot [rC])] s in
  List.filter isResult fx = [resultEvent rB; resultEvent rA; resultEvent rC] /\
  count isComplete fx = 1%nat /\
  (exists fx0, fx = fx0 ++ [resultEvent rC; toast "Comparison complete" "success"]) /\
  pending x = false /\ isComparing (page x) = false.
Proof.
  intros L HB HA HA' HC.
  unfold comparison, pollComparison. rewrite L.
  destruct rB as [mB iB dB sB eB], rA as [mA iA dA sA eA],
    rA' as [mA' iA' dA' sA' eA'], rC as [mC iC dC sC eC].
  cbn [Compare.model_id] in *. subst.
  vm_compute run. 
  cbv beta iota. repeat split.
  eexists [_;_;_;_;_;_;_;_;_;_]. reflexivity.
Qed.
End Scenario.

(** ** The connection *)
Section Channel.
Import JS App.

Lemma handleWSEvent_channel data s :
  ws (fst (handleWSEvent data s)) = ws s /\
  _pingInterval (fst (handleWSEvent data s)) = _pingInterval s /\
  wsReconnectTimer (fst (handleWSEvent data s)) = wsReconnectTimer s.
Proof.
  unfold handleWSEvent.
  destruct (String.eqb (type data) "model_loaded" || String.eqb (type data) "model_loading");
    repeat split; reflexivity.
Qed.

Lemma Inv_same w w' :
  sockets (browser w') = sockets (browser w) ->
  timers (browser w') = timers (browser w) ->
  nextTimer (browser w') = nextTimer (browser w) ->
  ws (this w') = ws (this w) ->
  _pingInterval (this w') = _pingInterval (this w) ->
  wsReconnectTimer (this w') = wsReconnectTimer (this w) ->
  Inv w -> Inv w'.
Proof.
  intros S T N W P R [I1 I2 I3 I4].
  split; unfold allClosed; rewrite ?S, ?T, ?N, ?W, ?P, ?R; assumption.
Qed.

Lemma Inv_clear id w : Inv w -> Inv (withBrowser (clearInterval (Some id)) w).
Proof.
  intros [I1 I2 I3 I4].
  split; unfold allClosed; cbn [withBrowser clearInterval this browser sockets timers nextTimer].
  - exact I1.
  - intros id' t H. apply lookup_delete_Some in H. destruct H as [_ H]. eauto.
  - intros id' t H. apply lookup_delete_Some in H. destruct H as [_ H]. eauto.
  - intros id' t H. apply lookup_delete_Some in H. destruct H as [_ H]. eauto.
Qed.

Lemma Inv_connect throws w : Inv w -> allClosed w ->
  (forall id t, timers (browser w) !! id = Some t ->
                callback t <> Ping /\ callback t <> Reconnect) ->
  Inv (connectWebSocket throws w).
Proof.
  intros [I1 I2 I3 I4] C NT. unfold connectWebSocket.
  destruct throws.
  - split; try assumption.
  - cbn [newWebSocket]. split; cbn [this browser sockets timers nextTimer ws set_ws
      _pingInterval wsReconnectTimer].
    + intros i st H N. apply lookup_app_Some in H. destruct H as [H|[L H]].
      * apply C in H. contradiction.
      * destruct (i - length (sockets (browser w)))%nat as [|k] eqn:E; [|discriminate].
        f_equal. lia.
    + exact I2.
    + intros id t H K. destruct (NT id t H) as [N _]. contradiction.
    + intros id t H K. destruct (NT id t H) as [_ N]. contradiction.
Qed.

Lemma Inv_init r throws :
  Inv (init r throws
         {| this := initial;
            browser := {| sockets := []; timers := ∅; nextTimer := 0; sent := [] |} |}).
Proof.
  unfold init.
  set (w0 := {| this := updateLoadedCount (refresh_then r initial);
                browser := {| sockets := []; timers := ∅; nextTimer := 0; sent := [] |} |}).
  assert (I0 : Inv w0).
  { split; cbn; intros *; try rewrite lookup_empty; discriminate. }
  assert (C0 : allClosed w0) by (intros [|i] st; discriminate).
  assert (N0 : forall id t, timers (browser w0) !! id = Some t ->
                callback t <> Ping /\ callback t <> Reconnect).
  { intros id t H. cbn in H. rewrite lookup_empty in H. discriminate. }
  pose proof (Inv_connect throws w0 I0 C0 N0) as [I1 I2 I3 I4].
  assert (T : timers (browser (connectWebSocket throws w0)) = ∅).
  { unfold connectWebSocket. now destruct throws. }
  subst w0. cbn [setInterval setTimer].
  split; cbn [this browser sockets timers nextTimer].
  - exact I1.
  - intros id t H. apply lookup_insert_Some in H. destruct H as [[<- _]|[_ H]]; [lia|].
    apply I2 in H. lia.
  - intros id t H K. apply lookup_insert_Some in H. destruct H as [[_ <-]|[_ H]]; [discriminate|].
    rewrite T, lookup_empty in H. discriminate.
  - intros id t H K. apply lookup_insert_Some in H. destruct H as [[_ <-]|[_ H]]; [discriminate|].
    rewrite T, lookup_empty in H. discriminate.
Qed.

Lemma Inv_open i w :
  Inv w -> sockets (browser w) !! i = Some CONNECTING ->
  Inv (onopen (withBrowser (setSocket i OPEN) w)).
Proof.
  intros [I1 I2 I3 I4] Hi.
  assert (W : ws (this w) = Some i) by (apply (I1 i CONNECTING Hi); discriminate).
  assert (Li : (i < length (sockets (browser w)))%nat) by (eapply lookup_lt_Some, Hi).
  split; unfold allClosed;
    cbn [onopen withBrowser setSocket setInterval setTimer this browser sockets timers
         nextTimer ws _pingInterval wsReconnectTimer set_pingInterval].
  - intros j st H N. apply list_lookup_insert_Some in H.
    destruct H as [(<- & _ & _)|[_ H]]; [exact W | exact (I1 j st H N)].
  - intros id t H. apply lookup_insert_Some in H.
    destruct H as [[<- _]|[_ H]]; [lia | apply I2 in H; lia].
  - intros id t H K. apply lookup_insert_Some in H. destruct H as [[<- _]|[_ H]].
    + split; [reflexivity|]. exists i. split; [exact W|]. left.
      now apply list_lookup_insert_eq.
    + destruct (I3 id t H K) as (_ & i0 & W0 & S0). exfalso.
      rewrite W in W0. injection W0 as <-. rewrite Hi in S0. destruct S0; discriminate.
  - intros id t H K. apply lookup_insert_Some in H. destruct H as [[_ <-]|[_ H]].
    + discriminate.
    + destruct (I4 id t H K) as (_ & _ & C). apply C in Hi. discriminate.
Qed.

Lemma Inv_error i st w :
  Inv w -> sockets (browser w) !! i = Some st -> st <> CLOSED -> Inv (onerror w).
Proof.
  intros I Hi N. pose proof I as [I1 I2 I3 I4].
  assert (W : ws (this w) = Some i) by exact (I1 i st Hi N).
  unfold onerror, close. rewrite W, Hi.
  assert (G : Inv {| this := this w; browser := setSocket i CLOSING (browser w) |}).
  { split; unfold allClosed; cbn [setSocket this browser sockets timers nextTimer].
    - intros j st' H N'. apply list_lookup_insert_Some in H.
      destruct H as [(<- & _ & _)|[_ H]]; [exact W | exact (I1 j st' H N')].
    - exact I2.
    - intros id t H K. destruct (I3 id t H K) as (P & i0 & W0 & S0).
      split; [exact P|]. exists i0. split; [exact W0|]. right.
      rewrite W in W0. injection W0 as <-.
      apply list_lookup_insert_eq. eapply lookup_lt_Some, Hi.
    - intros id t H K. destruct (I4 id t H K) as (_ & _ & C). apply C in Hi. contradiction. }
  destruct st; try exact G; try contradiction.
  now destruct w as [s b].
Qed.

Lemma closed_after_close i st w :
  Inv w -> sockets (browser w) !! i = Some st -> st <> CLOSED ->
  allClosed (withBrowser (setSocket i CLOSED) w).
Proof.
  intros [I1 _ _ _] Hi N j st' H.
  cbn [withBrowser setSocket browser sockets] in H.
  apply list_lookup_insert_Some in H. destruct H as [(_ & <- & _)|[NE H]]; [reflexivity|].
  assert (D : st' = CLOSED \/ st' <> CLOSED)
    by (destruct st'; (now left) || (right; discriminate)).
  destruct D as [|N']; [assumption|].
  pose proof (I1 j st' H N') as W'. pose proof (I1 i st Hi N) as W. congruence.
Qed.

Lemma Inv_close i st w :
  Inv w -> sockets (browser w) !! i = Some st -> st <> CLOSED ->
  Inv (onclose (withBrowser (setSocket i CLOSED) w)).
Proof.
  intros I Hi N. pose proof (closed_after_close i st w I Hi N) as C.
  pose proof I as [I1 I2 I3 I4].
  assert (T : forall id t,
    timers (clearInterval (_pingInterval (this w)) (setSocket i CLOSED (browser w))) !! id
      = Some t -> timers (browser w) !! id = Some t /\ callback t = UpdateLoadedCount).
  { intros id t H.
    assert (H0 : timers (browser w) !! id = Some t).
    { destruct (_pingInterval (this w)); cbn in H; [|exact H].
      apply lookup_delete_Some in H. tauto. }
    split; [exact H0|]. destruct (callback t) eqn:K; [| |reflexivity].
    - destruct (I3 id t H0 K) as [P _]. rewrite P in H. cbn in H.
      rewrite lookup_delete_eq in H. discriminate.
    - destruct (I4 id t H0 K) as (_ & _ & C'). apply C' in Hi. contradiction. }
  assert (NT : nextTimer (clearInterval (_pingInterval (this w)) (setSocket i CLOSED (browser w)))
               = nextTimer (browser w)) by (now destruct (_pingInterval (this w))).
  assert (ST : sockets (clearInterval (_pingInterval (this w)) (setSocket i CLOSED (browser w)))
               = <[i := CLOSED]> (sockets (browser w))) by (now destruct (_pingInterval (this w))).
  split; unfold allClosed;
    cbn [onclose withBrowser setTimeout setTimer this browser sockets timers nextTimer
         ws _pingInterval wsReconnectTimer set_wsReconnectTimer].
  - rewrite ST. intros j st' H N'. apply (C j) in H. contradiction.
  - rewrite NT. intros id t H. apply lookup_insert_Some in H.
    destruct H as [[<- _]|[_ H]]; [lia|]. apply T in H. destruct H as [H _].
    apply I2 in H. lia.
  - rewrite NT. intros id t H K. apply lookup_insert_Some in H.
    destruct H as [[_ <-]|[_ H]]; [discriminate|]. apply T in H. destruct H as [_ H]. congruence.
  - rewrite NT, ST. intros id t H K. apply lookup_insert_Some in H.
    destruct H as [[<- <-]|[_ H]].
    + split; [reflexivity|]. split; [reflexivity|]. exact C.
    + apply T in H. destruct H as [_ H]. congruence.
Qed.

Lemma Inv_timer id throws t w :
  Inv w -> timers (browser w) !! id = Some t ->
  Inv (runCallback (callback t) throws
         (if repeating t then w else withBrowser (clearInterval (Some id)) w)).
Proof.
  intros I Ht. pose proof I as [I1 I2 I3 I4].
  set (w1 := if repeating t then w else withBrowser (clearInterval (Some id)) w).
  assert (I' : Inv w1) by (subst w1; destruct (repeating t); [exact I | now apply Inv_clear]).
  destruct (callback t) eqn:K; cbn [runCallback].
  - unfold ping. destruct (ws (this w1)) as [i|]; [|exact I'].
    destruct (sockets (browser w1) !! i) as [[]|]; try exact I'.
    revert I'. apply Inv_same; reflexivity.
  - destruct (I4 id t Ht K) as (-> & R & C). cbn [repeating] in w1. subst w1.
    apply Inv_connect; [exact I' | exact C |].
    intros id' t' H. cbn in H. apply lookup_delete_Some in H. destruct H as [NE H]. split.
    + intros K'. destruct (I3 id' t' H K') as (_ & i & _ & [S|S]); apply C in S; discriminate.
    + intros K'. destruct (I4 id' t' H K') as (_ & R' & _). congruence.
  - revert I'. apply Inv_same; reflexivity.
Qed.

Lemma step_Inv l w w' fx : Inv w -> step l w = Some (w', fx) -> Inv w'.
Proof.
  intros I S. destruct l as [i|i frame|i|i|id throws]; cbn [step] in S.
  - destruct (sockets (browser w) !! i) as [[]|] eqn:Hi; try discriminate.
    inversion S; subst; clear S. now apply Inv_open.
  - destruct (sockets (browser w) !! i) as [[]|] eqn:Hi; try discriminate.
    injection S as S. unfold onmessage in S.
    destruct frame as [data|v|]; [|inversion S; subst; exact I..].
    pose proof (handleWSEvent_channel data (this w)) as (A & B & C).
    destruct (handleWSEvent data (this w)) as [s fx0]. cbn [fst] in *.
    inversion S; subst. revert I. apply Inv_same; cbn; congruence.
  - destruct (sockets (browser w) !! i) as [st|] eqn:Hi; [|discriminate].
    destruct st; try discriminate; inversion S; subst; clear S;
      eapply Inv_error; eauto; discriminate.
  - destruct (sockets (browser w) !! i) as [st|] eqn:Hi; [|discriminate].
    destruct st; try discriminate; inversion S; subst; clear S;
      eapply Inv_close; eauto; discriminate.
  - destruct (timers (browser w) !! id) as [t|] eqn:Ht; [|discriminate].
    inversion S; subst; clear S. now apply Inv_timer.
Qed.

Lemma reachable_Inv w : reachable w -> Inv w.
Proof.
  induction 1 as [r throws | w l w' fx _ IH S | w s _ IH C];
    [apply Inv_init | exact (step_Inv _ _ _ _ IH S) |].
  unfold connection in C. injection C as W R P.
  revert IH. apply Inv_same; assumption || reflexivity.
Qed.
Lemma no_ping_when_closed w :
  Inv w -> allClosed w ->
  forall id t, timers (browser w) !! id = Some t -> callback t <> Ping.
Proof.
  intros [_ _ I3 _] C id t H K.
  destruct (I3 id t H K) as (_ & i & _ & [S|S]); apply C in S; discriminate.
Qed.

Lemma no_reconnect_when_open i st w :
  Inv w -> sockets (browser w) !! i = Some st -> st <> CLOSED ->
  forall id t, timers (browser w) !! id = Some t -> callback t <> Reconnect.
Proof.
  intros [_ _ _ I4] Hi N id t H K.
  destruct (I4 id t H K) as (_ & _ & C). apply C in Hi. contradiction.
Qed.

Lemma close_enabled i w w' fx :
  step (SockClose i) w = Some (w', fx) ->
  exists st, sockets (browser w) !! i = Some st /\ st <> CLOSED /\
             w' = onclose (withBrowser (setSocket i CLOSED) w).
Proof.
  cbn [step]. destruct (sockets (browser w) !! i) as [st|]; [|discriminate].
  intros H. exists st. split; [reflexivity|].
  destruct st; try discriminate; (split; [discriminate|]); now inversion H.
Qed.

Lemma error_enabled i w w' fx :
  step (SockError i) w = Some (w', fx) ->
  exists st, sockets (browser w) !! i = Some st /\ st <> CLOSED /\ w' = onerror w.
Proof.
  cbn [step]. destruct (sockets (browser w) !! i) as [st|]; [|discriminate].
  intros H. exists st. split; [reflexivity|].
  destruct st; try discriminate; (split; [discriminate|]); now inversion H.
Qed.

(** the close event cancels the keepalive and sets the one reconnect timer *)
Lemma close_schedules_reconnect w i w' fx :
  Inv w -> step (SockClose i) w = Some (w', fx) ->
  (forall id t, timers (browser w') !! id = Some t -> callback t <> Ping) /\
  exists id,
    timers (browser w) !! id = None /\
    timers (browser w') !! id = Some reconnectTimer /\
    wsReconnectTimer (this w') = Some id /\
    (forall id' t, timers (browser w') !! id' = Some t ->
                   callback t = Reconnect -> id' = id).
Proof.
  intros I S. destruct (close_enabled _ _ _ _ S) as (st & Hi & N & ->).
  pose proof (Inv_close i st w I Hi N) as I'.
  pose proof (closed_after_close i st w I Hi N) as C.
  assert (C' : allClosed (onclose (withBrowser (setSocket i CLOSED) w))).
  { intros j st' H. apply (C j st'). revert H. unfold onclose.
    cbn [withBrowser this browser]. now destruct (_pingInterval (this w)). }
  split; [exact (no_ping_when_closed _ I' C')|].
  exists (nextTimer (browser w)).
  assert (F : timers (browser w) !! nextTimer (browser w) = None).
  { destruct (timers (browser w) !! nextTimer (browser w)) as [t|] eqn:E; [|reflexivity].
    apply (inv_fresh _ I) in E. lia. }
  assert (R : wsReconnectTimer (this (onclose (withBrowser (setSocket i CLOSED) w)))
              = Some (nextTimer (browser w))).
  { unfold onclose. cbn [withBrowser this browser]. now destruct (_pingInterval (this w)). }
  split; [exact F|]. split; [|split; [exact R|]].
  - unfold onclose. cbn [withBrowser this browser].
    destruct (_pingInterval (this w)); cbn; apply lookup_insert_eq.
  - intros id' t H K. destruct (inv_reconnect _ I' id' t H K) as (_ & R' & _). congruence.
Qed.

(** an error closes the socket and sets no timer; the reconnect waits for
    the close event *)
Lemma error_forces_close w i w' fx :
  Inv w -> step (SockError i) w = Some (w', fx) ->
  sockets (browser w') !! i = Some CLOSING /\
  timers (browser w') = timers (browser w) /\
  (forall id t, timers (browser w') !! id = Some t -> callback t <> Reconnect) /\
  ping w' = w' /\
  is_Some (step (SockClose i) w').
Proof.
  intros I S. destruct (error_enabled _ _ _ _ S) as (st & Hi & N & ->).
  pose proof (Inv_error i st w I Hi N) as I'.
  assert (W : ws (this w) = Some i) by exact (inv_live _ I i st Hi N).
  assert (Li : (i < length (sockets (browser w)))%nat) by (eapply lookup_lt_Some, Hi).
  assert (A : sockets (browser (onerror w)) !! i = Some CLOSING).
  { unfold onerror, close. rewrite W, Hi.
    destruct st; try contradiction; cbn [this browser setSocket sockets];
      try (now apply list_lookup_insert_eq); exact Hi. }
  assert (B : timers (browser (onerror w)) = timers (browser w)).
  { unfold onerror, close. rewrite W, Hi. now destruct st. }
  split; [exact A|]. split; [exact B|]. split; [|split].
  - apply (no_reconnect_when_open i CLOSING _ I' A). discriminate.
  - unfold ping. rewrite (inv_live _ I' i CLOSING A) by discriminate. now rewrite A.
  - cbn [step]. rewrite A. eexists. reflexivity.
Qed.

(** nothing cancels a reconnect that is set: it stays set until it fires *)
Lemma reconnect_stays_pending w id t l w' fx :
  Inv w -> timers (browser w) !! id = Some t -> callback t = Reconnect ->
  step l w = Some (w', fx) ->
  timers (browser w') !! id = Some t \/ exists throws, l = TimerFires id throws.
Proof.
  intros I H K S. destruct (inv_reconnect _ I id t H K) as (_ & R & C).
  destruct l as [i|i frame|i|i|id' throws]; cbn [step] in S.
  - destruct (sockets (browser w) !! i) as [st|] eqn:Hi; [|discriminate].
    apply C in Hi. subst. discriminate.
  - destruct (sockets (browser w) !! i) as [st|] eqn:Hi; [|discriminate].
    apply C in Hi. subst. discriminate.
  - destruct (sockets (browser w) !! i) as [st|] eqn:Hi; [|discriminate].
    apply C in Hi. subst. discriminate.
  - destruct (sockets (browser w) !! i) as [st|] eqn:Hi; [|discriminate].
    apply C in Hi. subst. discriminate.
  - destruct (decide (id' = id)) as [->|NE]; [right; eauto|]. left.
    destruct (timers (browser w) !! id') as [t'|] eqn:H'; [|discriminate].
    inversion S; subst; clear S.
    destruct (callback t') eqn:K'.
    + exfalso. exact (no_ping_when_closed w I C id' t' H' K').
    + destruct (inv_reconnect _ I id' t' H' K') as (_ & R' & _). congruence.
    + cbn [runCallback this browser]. destruct (repeating t'); [exact H|].
      cbn. rewrite lookup_delete_ne by congruence. exact H.
Qed.

Lemma afterClose_reachable : reachable afterClose.
Proof.
  apply (reach_step afterOpen (SockClose 0) afterClose []); [|reflexivity].
  apply (reach_step (init Rejected false fresh) (SockOpen 0) afterOpen []); [|reflexivity].
  apply reach_init.
Qed.
End Channel.


(** ** Poll loops under failures *)
Section Failures.
Import JS.

Lemma delays_app fx fx' : delays (fx ++ fx') = delays fx ++ delays fx'.
Proof.
  induction fx as [|e fx IH]; [reflexivity|].
  destruct e; cbn [List.app delays]; now rewrite IH.
Qed.

Lemma delays_none fx :
  (forall e, In e fx -> isSetTimeout e = false) -> delays fx = [].
Proof.
  induction fx as [|e fx IH]; intros H; [reflexivity|].
  pose proof (H e (or_introl eq_refl)) as He.
  destruct e; try discriminate He; cbn [delays]; apply IH; intros e' ?; apply H; now right.
Qed.

Lemma count_failed_job p jobId n :
  count p (concat (repeat (BatchPanel.failedPoll jobId) n))
  = (n * count p (BatchPanel.failedPoll jobId))%nat.
Proof.
  induction n as [|n IH]; [reflexivity|].
  cbn [repeat concat]. rewrite count_app, IH. lia.
Qed.

Lemma count_failed_compare p cid n :
  count p (concat (repeat (App.failedPoll cid) n))
  = (n * count p (App.failedPoll cid))%nat.
Proof.
  induction n as [|n IH]; [reflexivity|].
  cbn [repeat concat]. rewrite count_app, IH. lia.
Qed.

Lemma pollJob_failures jobId n s :
  BatchPanel.pollJob jobId (repeat Rejected n) s =
  (s, SetTimeout (PollJob jobId) 1000
        :: concat (repeat (BatchPanel.failedPoll jobId) n)).
Proof.
  unfold BatchPanel.pollJob.
  rewrite <- (app_nil_r (repeat Rejected n)), pollLoop_failures.
  cbn [BatchPanel.pollLoop fst snd]. now rewrite app_nil_r.
Qed.

Lemma run_failures cid n : forall ins x,
  App.pending x = true ->
  App.run cid (repeat (App.Polled Rejected) n ++ ins) x =
  (fst (App.run cid ins x),
   concat (repeat (App.failedPoll cid) n) ++ snd (App.run cid ins x)).
Proof.
  induction n as [|n IH]; intros ins x P; cbn [repeat concat List.app].
  - now destruct (App.run cid ins x).
  - cbn [App.run App.deliver]. rewrite P.
    cbn [App.poll existsb isSetTimeout orb].
    destruct x as [s c p]. cbn [App.page App.closure App.pending] in *. subst p.
    rewrite (IH ins {| App.page := s; App.closure := c; App.pending := true |} eq_refl).
    reflexivity.
Qed.

Lemma run_stopped cid os : forall x,
  App.pending x = false -> App.run cid (map App.Polled os) x = (x, []).
Proof.
  induction os as [|o os IH]; intros x P; [reflexivity|].
  cbn [map App.run App.deliver]. rewrite P, (IH x P). reflexivity.
Qed.

(** a snapshot with every expected result ends the comparison *)
Lemma poll_completes cid rs c s :
  (App.expectedCount c <= size (App.seen c ∪ list_to_set (map Compare.model_id rs)))%nat ->
  exists c' fx,
    App.poll cid (App.snapshot rs) c s =
      (c', App.set_isComparing false s,
       Fetch "GET" ("/api/compare/" +:+ cid) None
         :: fx ++ [toast "Comparison complete" "success"]) /\
    (forall e, In e fx -> exists r, In r rs /\ e = App.resultEvent r).
Proof.
  intros H. unfold App.poll, App.snapshot. cbn [Compare.results].
  pose proof (forResults_seen rs (App.seen c)) as S.
  pose proof (forResults_effects rs (App.seen c)) as E.
  destruct (App.forResults rs (App.seen c)) as [seen' fx]. cbn [fst snd] in *.
  subst seen'. apply Nat.ltb_ge in H. rewrite H.
  eexists _, fx. split; [reflexivity | exact E].
Qed.
End Failures.

Section Started.
Import JS.

Lemma comparison_run cid ins s :
  App.comparison cid ins s =
  (fst (App.run cid ins (App.started s)),
   SetTimeout (PollComparison cid) 2000 :: snd (App.run cid ins (App.started s))).
Proof.
  unfold App.comparison, App.pollComparison, App.started.
  now destruct (App.run cid ins _).
Qed.

Lemma poll_snapshot_seen cid rs c s :
  App.seen (fst (fst (App.poll cid (App.snapshot rs) c s)))
  = App.seen c ∪ list_to_set (map Compare.model_id rs).
Proof.
  unfold App.poll, App.snapshot. cbn [Compare.results].
  pose proof (forResults_seen rs (App.seen c)) as S.
  destruct (App.forResults rs (App.seen c)) as [seen' fx]. cbn [fst] in S.
  now destruct (size seen' <? App.expectedCount c)%nat.
Qed.
End Started.

(** ** Accuracy of the operators *)
Section Accuracy.
Import JS ProgressTracker.
Local Open Scope Q_scope.











End Accuracy.

(** ** Members of a frame *)
Section Members.
Import JS Json.

Lemma get_fold k m : forall init,
  fold_left (fun found (kv : string * Value) =>
               if String.eqb (fst kv) k then Some (snd kv) else found) m init
  = match get k (JObj m) with Some v => Some v | None => init end.
Proof.
  unfold get. induction m as [|kv m IH] using rev_ind; intros init; [reflexivity|].
  rewrite !fold_left_app. cbn [fold_left]. destruct (String.eqb (fst kv) k); [reflexivity|].
  apply IH.
Qed.

Lemma get_app k a b :
  get k (JObj (a ++ b))
  = match get k (JObj b) with Some v => Some v | None => get k (JObj a) end.
Proof. unfold get at 1. rewrite fold_left_app. apply get_fold. Qed.

Lemma get_none k m : has k m = false -> get k (JObj m) = None.
Proof.
  unfold has, get. induction m as [|kv m IH] using rev_ind; [reflexivity|].
  rewrite existsb_app, fold_left_app. cbn [existsb fold_left]. rewrite orb_false_r.
  intros H. apply orb_false_iff in H. destruct H as [A B]. rewrite B. now apply IH.
Qed.

Lemma get_skip k a b : has k a = false -> get k (JObj (a ++ b)) = get k (JObj b).
Proof. intros H. rewrite get_app, (get_none _ _ H). now destruct (get k (JObj b)). Qed.

Lemma has_app k a b : has k (a ++ b) = has k a || has k b.
Proof. apply existsb_app. Qed.

Lemma has_field {A} k k' (f : A -> Value) x :
  String.eqb k' k = false -> has k (field k' f x) = false.
Proof. intros H. destruct x; [|reflexivity]. cbn. now rewrite H. Qed.

Lemma get_hit {A} k (f : A -> Value) x b :
  has k b = false -> get k (JObj (field k f x ++ b)) = option_map f x.
Proof.
  intros H. rewrite get_app, (get_none _ _ H). destruct x; [|reflexivity].
  cbn. now rewrite String.eqb_refl.
Qed.

(** frames with the fields of [WsData] *)
Ltac absent :=
  repeat rewrite has_app; repeat (rewrite has_field by reflexivity); reflexivity.

Ltac member :=
  unfold toJson;
  repeat (rewrite get_skip by (reflexivity || (apply has_field; reflexivity)));
  first [ rewrite get_hit by absent; reflexivity
        | rewrite get_app, get_none by absent; reflexivity ].

Lemma toJson_type data : get "type" (toJson data) = Some (JStr (type data)).
Proof.
  unfold toJson. rewrite get_app, get_none by absent. reflexivity.
Qed.

Lemma toJson_tiles_done data :
  get "tiles_done" (toJson data) = option_map countValue (tiles_done data).
Proof. member. Qed.

Lemma toJson_tiles_total data :
  get "tiles_total" (toJson data) = option_map countValue (tiles_total data).
Proof. member. Qed.

Lemma toJson_completed data :
  get "completed" (toJson data) = option_map countValue (completed data).
Proof. member. Qed.

Lemma toJson_total data :
  get "total" (toJson data) = option_map countValue (total data).
Proof. member. Qed.

Lemma toJson_downloaded data :
  get "downloaded" (toJson data) = option_map countValue (downloaded data).
Proof. member. Qed.

End Members.

(** ** The percentages on any value *)
Section Values.
Import JS Json ProgressTracker.


Lemma nonzero_andThen o k :
  nonzero o -> (forall ds, o = Done ds -> nonzero (k ds)) -> nonzero (andThen o k).
Proof. intros H K. destruct o as [|ds]; [exact I|]. cbn [andThen]. now apply K. Qed.

Lemma nonzero_app a b : nonzero (Done a) -> nonzero (Done b) -> nonzero (Done (a ++ b)).
Proof. cbn [nonzero]. intros A B. apply Forall_app. now split. Qed.

(** a value that is positive does not convert to zero *)
Lemma positive_nonzero x y :
  positive y = Some true -> nonzero (division x y).
Proof.
  unfold positive, division, divide. intros P.
  destruct (ToNumber x) as [a|]; [|exact I].
  destruct (ToNumber y) as [[|s|q]|]; try discriminate; cbn [nonzero];
    repeat constructor; cbn [snd isZero].
  injection P as P. apply negb_true_iff in P.
  destruct (Qeq_bool q 0) eqn:E; [|reflexivity].
  apply Qeq_bool_iff in E. assert (L : Qle_bool q 0 = true) by (apply Qle_bool_iff; lra).
  congruence.
Qed.

(** a plain value that is truthy does not convert to zero *)
Lemma plain_nonzero x v d :
  plain v = true -> isZero d = false -> numberOf (orElse v (JNum d)) = d \/
  nonzero (division x (orElse v (JNum d))).
Proof.
  intros P D. destruct v as [[| [|] |n|s|l|m]|]; try discriminate P;
    cbn [orElse ToBoolean]; try (left; reflexivity).
  - right. unfold division, divide. destruct (ToNumber x); [|exact I].
    cbn. repeat constructor.
  - destruct n as [|s|q]; cbn [negb isZero]; try (left; reflexivity).
    + right. unfold division, divide. destruct (ToNumber x); [|exact I].
      cbn. repeat constructor.
    + destruct (Qeq_bool q 0) eqn:E; cbn [negb]; [left; reflexivity|].
      right. unfold division, divide. destruct (ToNumber x); [|exact I].
      cbn [ToNumber throwsToPrimitive numberOf nonzero]. repeat constructor. exact E.
Qed.

Lemma plain_division x v :
  plain v = true -> nonzero (division x (orElse v (JNum (Finite 1)))).
Proof.
  intros P. destruct (plain_nonzero x v (Finite 1) P eq_refl) as [E|N]; [|exact N].
  unfold division, divide. destruct (ToNumber x); [|exact I].
  unfold ToNumber. destruct (throwsToPrimitive _); [exact I|].
  cbn [nonzero]. repeat constructor. cbn [snd]. rewrite E. reflexivity.
Qed.

(** a falsy value leaves the default *)
Lemma falsy_default v d : ToBoolean v = false -> orElse v d = d.
Proof. intros F. unfold orElse. destruct v; [now rewrite F | reflexivity]. Qed.

(** a frame has one type *)
Lemma isType_one data a b :
  isType data a = true -> a <> b -> isType data b = false.
Proof.
  unfold isType. destruct (get "type" data) as [[]|]; try discriminate.
  intros A N. apply String.eqb_eq in A. subst. now apply String.eqb_neq.
Qed.

Lemma percentages_parts data :
  data <> JNull ->
  percentages data =
    andThen (tilePercent data) (fun tile =>
    andThen (batchPercent data) (fun batch =>
    andThen (downloadPercent data) (fun download =>
    Done (tile ++ batch ++ download)))).
Proof. intros N. destruct data; [congruence|..]; reflexivity. Qed.

Lemma nonzero_percentages data :
  nonzero (tilePercent data) -> nonzero (batchPercent data) ->
  nonzero (downloadPercent data) -> nonzero (percentages data).
Proof.
  intros T B D.
  assert (N : data = JNull \/ data <> JNull) by (destruct data; (now left) || (now right)).
  destruct N as [->|N]; [exact I|].
  rewrite (percentages_parts data N).
  apply nonzero_andThen; [exact T|]. intros t Et.
  apply nonzero_andThen; [exact B|]. intros b Eb.
  apply nonzero_andThen; [exact D|]. intros d Ed.
  rewrite Et in T. rewrite Eb in B. rewrite Ed in D.
  apply nonzero_app; [exact T|]. now apply nonzero_app.
Qed.

(** the download percentage: no division by zero, whatever the frame *)
Lemma download_nonzero data : nonzero (downloadPercent data).
Proof.
  unfold downloadPercent. destruct (isType data "download_progress"); [|constructor].
  cbv zeta. destruct (positive _) as [[|]|] eqn:P;
    [now apply positive_nonzero | constructor | exact I].
Qed.

(** the tile and the batch percentage: none when the total is plain *)
Lemma tile_nonzero data :
  plain (get "tiles_total" data) = true -> nonzero (tilePercent data).
Proof.
  intros P. unfold tilePercent. destruct (isType data "tile_progress"); [|constructor].
  now apply plain_division.
Qed.

Lemma batch_nonzero data :
  plain (get "total" data) = true -> nonzero (batchPercent data).
Proof.
  intros P. unfold batchPercent. destruct (isType data "batch_progress"); [|constructor].
  now apply plain_division.
Qed.

Lemma tile_off data : isType data "tile_progress" = false -> tilePercent data = Done [].
Proof. unfold tilePercent. now intros ->. Qed.

Lemma batch_off data : isType data "batch_progress" = false -> batchPercent data = Done [].
Proof. unfold batchPercent. now intros ->. Qed.

Lemma download_off data :
  isType data "download_progress" = false -> downloadPercent data = Done [].
Proof. unfold downloadPercent. now intros ->. Qed.

(** a falsy total leaves the divisor 1 *)
Lemma default_divisor x v ds :
  ToBoolean v = false -> division x (orElse v (JNum (Finite 1))) = Done ds ->
  map snd ds = [Finite 1].
Proof.
  intros F. rewrite (falsy_default _ _ F). unfold division, divide.
  destruct (ToNumber x); [|discriminate]. cbn. now intros [= <-].
Qed.

(** a member that is read is a member *)
Lemma get_In k m v : get k (JObj m) = Some v -> In (k, v) m.
Proof.
  unfold get. induction m as [|kv m IH] using rev_ind; [discriminate|].
  rewrite fold_left_app. cbn [fold_left]. rewrite in_app_iff.
  destruct (String.eqb (fst kv) k) eqn:E.
  - intros [= <-]. right. left. apply String.eqb_eq in E. subst. now destruct kv.
  - intros H. left. now apply IH.
Qed.

Lemma converts_get data k v :
  converts data = true -> get k data = Some v -> throwsToPrimitive v = false.
Proof.
  destruct data; try discriminate. intros C G. apply get_In in G.
  cbn [converts] in C. rewrite forallb_forall in C. specialize (C _ G).
  now apply negb_true_iff in C.
Qed.

Lemma converts_orElse data k d :
  converts data = true -> ToNumber (orElse (get k data) (JNum d)) <> None.
Proof.
  intros C. unfold ToNumber, orElse. destruct (get k data) as [v|] eqn:G; [|discriminate].
  destruct (ToBoolean (Some v)); [|discriminate].
  now rewrite (converts_get _ _ _ C G).
Qed.

Lemma converts_division data k k' d d' :
  converts data = true ->
  exists ds, division (orElse (get k data) (JNum d)) (orElse (get k' data) (JNum d')) = Done ds.
Proof.
  intros C. unfold division, divide.
  pose proof (converts_orElse data k d C). pose proof (converts_orElse data k' d' C).
  destruct (ToNumber _); [|congruence]. destruct (ToNumber _); [|congruence].
  eexists. reflexivity.
Qed.

(** a frame that is not null and whose members convert: no TypeError *)
Lemma converts_percentages data :
  data <> JNull -> converts data = true -> exists ds, percentages data = Done ds.
Proof.
  intros N C. rewrite (percentages_parts data N).
  assert (T : exists ds, tilePercent data = Done ds).
  { unfold tilePercent. destruct (isType data _); [|eexists; reflexivity].
    now apply converts_division. }
  assert (B : exists ds, batchPercent data = Done ds).
  { unfold batchPercent. destruct (isType data _); [|eexists; reflexivity].
    now apply converts_division. }
  assert (D : exists ds, downloadPercent data = Done ds).
  { unfold downloadPercent. destruct (isType data _); [|eexists; reflexivity].
    cbv zeta. unfold positive.
    pose proof (converts_orElse data "total" (Finite 1) C) as P.
    destruct (ToNumber (orElse (get "total" data) _)) as [[|s|q]|] eqn:E; [| | |congruence].
    - eexists. reflexivity.
    - destruct (negb s); [now apply converts_division | eexists; reflexivity].
    - destruct (negb _); [now apply converts_division | eexists; reflexivity]. }
  destruct T as [t ->], B as [b ->], D as [d ->]. eexists. reflexivity.
Qed.

Lemma isType_toJson data name : isType (toJson data) name = String.eqb (type data) name.
Proof. unfold isType. now rewrite toJson_type. Qed.

Lemma orElse_count x d :
  orElse (option_map countValue x) (countValue d) = countValue (orN x d).
Proof.
  destruct x as [n|]; [|reflexivity]. destruct n as [|p]; reflexivity.
Qed.

Lemma division_count c t :
  division (countValue c) (countValue t) = Done [(Finite (ofN c), Finite (ofN t))].
Proof. reflexivity. Qed.

Lemma positive_count t : (0 < t)%N -> positive (countValue t) = Some true.
Proof. destruct t; [lia|]. reflexivity. Qed.

(** on such a frame the divisions are those of the counts *)
Lemma percentages_toJson data :
  percentages (toJson data) =
    Done match ratio data with
         | Some (c, t) => [(Finite (ofN c), Finite (ofN t))]
         | None => []
         end.
Proof.
  rewrite percentages_parts by discriminate.
  unfold tilePercent, batchPercent, downloadPercent, ratio,
    tileDivisor, batchDivisor, downloadDivisor.
  rewrite !isType_toJson, toJson_tiles_done, toJson_tiles_total, toJson_completed,
    toJson_total, toJson_downloaded.
  change (JNum (Finite 0)) with (countValue 0).
  change (JNum (Finite 1)) with (countValue 1).
  rewrite !orElse_count, !division_count, (positive_count _ (orN_1_pos (total data))).
  destruct (String.eqb (type data) "tile_progress") eqn:T.
  - apply String.eqb_eq in T. rewrite T. reflexivity.
  - destruct (String.eqb (type data) "batch_progress") eqn:B.
    + apply String.eqb_eq in B. rewrite B. reflexivity.
    + destruct (String.eqb (type data) "download_progress"); reflexivity.
Qed.

(** a frame of one type leaves the other two percentages alone *)
Lemma isType_value data name : isType data name = true -> data <> JNull.
Proof. intros H ->. discriminate H. Qed.

Lemma tile_default data ds :
  isType data "tile_progress" = true -> ToBoolean (get "tiles_total" data) = false ->
  percentages data = Done ds -> map snd ds = [Finite 1].
Proof.
  intros T F. rewrite (percentages_parts data (isType_value _ _ T)).
  rewrite (batch_off data), (download_off data)
    by (apply (isType_one data "tile_progress"); [exact T | discriminate]).
  unfold tilePercent. rewrite T. cbv zeta.
  destruct (division _ _) as [|t] eqn:E; [discriminate|].
  cbn [andThen]. intros [= <-]. rewrite !app_nil_r.
  exact (default_divisor _ _ _ F E).
Qed.

Lemma batch_default data ds :
  isType data "batch_progress" = true -> ToBoolean (get "total" data) = false ->
  percentages data = Done ds -> map snd ds = [Finite 1].
Proof.
  intros T F. rewrite (percentages_parts data (isType_value _ _ T)).
  rewrite (tile_off data), (download_off data)
    by (apply (isType_one data "batch_progress"); [exact T | discriminate]).
  unfold batchPercent. rewrite T. cbv zeta.
  destruct (division _ _) as [|t] eqn:E; [discriminate|].
  cbn [andThen]. intros [= <-]. rewrite !app_nil_r.
  exact (default_divisor _ _ _ F E).
Qed.

Lemma download_default data ds :
  isType data "download_progress" = true -> ToBoolean (get "total" data) = false ->
  percentages data = Done ds -> map snd ds = [Finite 1].
Proof.
  intros T F. rewrite (percentages_parts data (isType_value _ _ T)).
  rewrite (tile_off data), (batch_off data)
    by (apply (isType_one data "download_progress"); [exact T | discriminate]).
  unfold downloadPercent. rewrite T. cbv zeta.
  pose proof (default_divisor (orElse (get "downloaded" data) (JNum (Finite 0)))
                (get "total" data)) as D.
  rewrite (falsy_default _ (JNum (Finite 1)) F) in *.
  change (positive (JNum (Finite 1))) with (Some true).
  destruct (division _ _) as [|t] eqn:E; [discriminate|].
  cbn [andThen app]. intros [= <-]. exact (D t F eq_refl).
Qed.

(** the total "0" in a download frame: no division *)
Lemma download_of_text_total :
  percentages (JObj [("type", JStr "download_progress");
                     ("downloaded", JNum (Finite 3)); ("total", JStr "0")])
  = Done [].
Proof. vm_compute. reflexivity. Qed.

End Values.

(** * The claims *)

Section Claims.
Import JS.

(** C1 (as amended).  The poll loop forwards each sub-unit id at most once
    as a [comparison-result] event, and exactly once when a poll run
    reports it, whatever pushed frames come in between.  Pushed
    [comparison_model_done] frames are not checked against the Seen-set:
    each successful one is forwarded as a [comparison-model-done] event.
    Completion is announced at most once, by the poll run after which the
    Seen-set has the expected size, and that run sets no further timer.
    With three models and poll results B, A, A, C the results forwarded are
    B, A, C, and the one completion toast comes right after C. *)
Theorem C1_results_forwarded_once (cid : string) (ins : list App.Input)
    (s : App.State) (id : string) :
  let x := fst (App.comparison cid ins s) in
  let fx := snd (App.comparison cid ins s) in
  count (App.isResultFor id) fx = App.inSeen id (App.seen (App.closure x)) /\
  (count (App.isResultFor id) fx <= 1)%nat /\
  (forall ins1 rs ins2,
     ins = ins1 ++ App.Polled (App.snapshot rs) :: ins2 ->
     App.pending (fst (App.comparison cid ins1 s)) = true ->
     In id (map Compare.model_id rs) ->
     count (App.isResultFor id) fx = 1%nat) /\
  count (App.isModelDoneFor id) fx = length (List.filter (App.reportsDone id) ins) /\
  (count App.isComplete fx <= 1)%nat /\
  (count App.isComplete fx = 1%nat ->
   App.pending x = false /\ App.isComparing (App.page x) = false) /\
  (forall rB rA rA' rC,
     ins = [App.Polled (App.snapshot [rB]); App.Polled (App.snapshot [rA]);
            App.Polled (App.snapshot [rA']); App.Polled (App.snapshot [rC])] ->
     length (App.compareModels s) = 3%nat ->
     Compare.model_id rB = "B" -> Compare.model_id rA = "A" ->
     Compare.model_id rA' = "A" -> Compare.model_id rC = "C" ->
     List.filter App.isResult fx
       = [App.resultEvent rB; App.resultEvent rA; App.resultEvent rC] /\
     count App.isComplete fx = 1%nat /\
     exists fx0,
       fx = fx0 ++ [App.resultEvent rC; toast "Comparison complete" "success"]).
Proof.
  intros x fx. subst x fx. rewrite !comparison_run. cbn [fst snd].
  rewrite !count_cons. cbn [App.isResultFor App.isModelDoneFor App.isComplete Nat.add].
  pose proof (run_results cid id ins (App.started s)) as R.
  cbn [App.started App.closure App.seen] in R.
  change (App.inSeen id ∅) with 0%nat in R. rewrite Nat.add_0_r in R.
  split; [exact R|]. split; [rewrite R; apply inSeen_le|]. split.
  { intros ins1 rs ins2 -> P I. rewrite R, run_app. cbn [fst].
    rewrite comparison_run in P. cbn [fst] in P.
    cbn [App.run App.deliver]. rewrite P.
    pose proof (poll_snapshot_seen cid rs
                  (App.closure (fst (App.run cid ins1 (App.started s))))
                  (App.page (fst (App.run cid ins1 (App.started s))))) as Q.
    destruct (App.poll cid (App.snapshot rs) _ _) as [[c s1] fx1]. cbn [fst] in Q.
    pose proof (run_seen_grows cid ins2
                  {| App.page := s1; App.closure := c;
                     App.pending := existsb isSetTimeout fx1 |}) as G.
    destruct (App.run cid ins2 _) as [x2 fx2]. cbn [fst App.closure] in *.
    unfold App.inSeen. destruct (decide (id ∈ App.seen (App.closure x2))) as [|N];
      [reflexivity|].
    exfalso. apply N, G. rewrite Q. apply elem_of_union_r, elem_of_list_to_set.
    now apply list_elem_of_In. }
  split; [apply run_model_done|].
  pose proof (run_complete cid ins (App.started s)) as C.
  split; [|split].
  - destruct (App.run cid ins (App.started s)) as [x1 fx1]. apply C.
  - destruct (App.run cid ins (App.started s)) as [x1 fx1]. apply C.
  - intros rB rA rA' rC -> L HB HA HA' HC.
    pose proof (scenario_B_A_A_C cid s rB rA rA' rC L HB HA HA' HC) as S.
    rewrite comparison_run in S. destruct S as (S1 & S2 & S3 & _).
    rewrite count_cons in S2. exact (conj S1 (conj S2 S3)).
Qed.

(** three models; B, A, A again and C arrive in four poll runs *)
Lemma C1_results_forwarded_once_witness :
  let ins := [App.Polled (App.snapshot [Sample.result "B"]);
              App.Polled (App.snapshot [Sample.result "A"]);
              App.Polled (App.snapshot [Sample.result "A"]);
              App.Polled (App.snapshot [Sample.result "C"])] in
  let fx := snd (App.comparison "cmp-1" ins (Sample.comparing ["A"; "B"; "C"])) in
  List.filter App.isResult fx
    = [App.resultEvent (Sample.result "B"); App.resultEvent (Sample.result "A");
       App.resultEvent (Sample.result "C")] /\
  count App.isComplete fx = 1%nat /\
  count (App.isResultFor "A") fx = 1%nat.
Proof.
  intros ins fx.
  destruct (C1_results_forwarded_once "cmp-1" ins (Sample.comparing ["A"; "B"; "C"]) "A")
    as (_ & _ & O & _ & _ & _ & S).
  destruct (S (Sample.result "B") (Sample.result "A") (Sample.result "A")
              (Sample.result "C") eq_refl eq_refl eq_refl eq_refl eq_refl eq_refl)
    as (S1 & S2 & _).
  split; [exact S1|]. split; [exact S2|].
  apply (O [App.Polled (App.snapshot [Sample.result "B"])] [Sample.result "A"]
           [App.Polled (App.snapshot [Sample.result "A"]);
            App.Polled (App.snapshot [Sample.result "C"])] eq_refl).
  - vm_compute. reflexivity.
  - now left.
Defined.

(** C1, the claim as stated fails: when the push channel and a poll
    snapshot both report model A, the page dispatches two completion
    notifications for A, a [comparison-model-done] and a
    [comparison-result]. *)
Lemma C1_push_and_poll_notify_twice :
  let ins := [App.Push (Sample.modelDone "A");
              App.Polled (App.snapshot [Sample.result "A"])] in
  let fx := snd (App.comparison "cmp-1" ins (Sample.comparing ["A"])) in
  App.notifications "A" fx = 2%nat /\ App.notifications "A" fx <> 1%nat.
Proof.
  cbv zeta.
  assert (E : App.notifications "A"
                (snd (App.comparison "cmp-1"
                        [App.Push (Sample.modelDone "A");
                         App.Polled (App.snapshot [Sample.result "A"])]
                        (Sample.comparing ["A"]))) = 2%nat)
    by (vm_compute; reflexivity).
  split; [exact E|]. rewrite E. discriminate.
Qed.

(** C2 (as amended).  In the job poll loop a snapshot with status
    completed or failed is final: the loop stops there with
    [batchRunning = false], so no later poll result changes the panel, and
    every poll before it leaves the panel as it is.  The progress tracker
    keeps no status: a frame that sets percentage and label sets them from
    the frame and [startTime] alone, whatever was on display. *)
Theorem C2_batch_job_ends_once (jobId : string) (os1 os2 : list (Fetched Job.Snapshot))
    (data : Job.Snapshot) (s : BatchPanel.State) :
  BatchPanel.terminal data = true ->
  BatchPanel.pollLoop jobId (os1 ++ Resolved data :: os2) s
    = BatchPanel.pollLoop jobId (os1 ++ [Resolved data]) s /\
  BatchPanel.batchRunning
    (fst (BatchPanel.pollLoop jobId (os1 ++ [Resolved data]) s)) = false /\
  (forall o s0,
     existsb isSetTimeout (snd (BatchPanel.poll jobId o s0)) = true ->
     fst (BatchPanel.poll jobId o s0) = s0) /\
  (forall now frame t t',
     ProgressTracker.overwrites frame = true ->
     ProgressTracker.startTime t = ProgressTracker.startTime t' ->
     ProgressTracker.handleWSEvent now frame t
     = ProgressTracker.handleWSEvent now frame t').
Proof.
  intros T. split; [now apply pollLoop_stops|]. split; [now apply pollLoop_stopped|].
  split; [apply poll_running|].
  intros now frame [p l st] [p' l' st'] O E.
  cbn [ProgressTracker.startTime] in E. subst st'.
  unfold ProgressTracker.overwrites in O. cbn [existsb] in O.
  repeat (apply orb_true_iff in O; destruct O as [O|O]); try discriminate O;
    apply String.eqb_eq in O;
    unfold ProgressTracker.handleWSEvent; rewrite O; reflexivity.
Qed.

(** a failed fetch, a running snapshot, the completed one, and a late one *)
Lemma C2_batch_job_ends_once_witness :
  fst (BatchPanel.pollLoop "job-1"
         ([Rejected; Resolved (Sample.jobSnapshot "running" 0 0 0)]
            ++ Resolved (Sample.jobSnapshot "completed" 8 1 1)
            :: [Resolved (Sample.jobSnapshot "failed" 0 0 0)])
         Sample.batchRunning)
  = BatchPanel.set_run false "Complete: 8 processed, 1 skipped, 1 failed"
      Sample.batchRunning.
Proof.
  destruct (C2_batch_job_ends_once "job-1"
              [Rejected; Resolved (Sample.jobSnapshot "running" 0 0 0)]
              [Resolved (Sample.jobSnapshot "failed" 0 0 0)]
              (Sample.jobSnapshot "completed" 8 1 1) Sample.batchRunning eq_refl)
    as (E & _).
  rewrite E. vm_compute. reflexivity.
Defined.

(** C2, the claim as stated fails for the tracker: after [image_complete]
    it shows 100 and "Complete!", and a later [model_loading] frame puts it
    back to 0 and "Loading model: ...". *)
Lemma C2_tracker_leaves_complete :
  let s1 := ProgressTracker.handleWSEvent 0 (Sample.frame "image_complete")
              ProgressTracker.initial in
  let s2 := ProgressTracker.handleWSEvent 0 (Sample.modelLoading "esrgan") s1 in
  ProgressTracker.status s1 = ProgressTracker.completed /\
  ProgressTracker.status s2 = ProgressTracker.running /\
  ProgressTracker.progressPercent s1 = 100%Z /\
  ProgressTracker.progressPercent s2 = 0%Z /\
  ProgressTracker.progressLabel s2 = "Loading model: esrgan...".
Proof. vm_compute. repeat split. Qed.







(** C5 (as amended).  In both poll loops the poll after a failed fetch is
    set later than the poll after a successful one: 3000 ms against
    2000 ms in [pollJob], 2000 ms against 1500 ms in [pollComparison].
    Failed fetches never end a loop.  When the fetch fails twice and then
    reports the end, three fetches are made and no timer is left; their
    delays are 1000, 3000, 3000 ms in [pollJob] and 2000, 2000, 2000 ms in
    [pollComparison]. *)
Theorem C5_poll_retry_delays :
  (forall jobId s, delays (snd (BatchPanel.poll jobId Rejected s)) = [3000%Z]) /\
  (forall jobId data s,
     BatchPanel.terminal data = false ->
     delays (snd (BatchPanel.poll jobId (Resolved data) s)) = [2000%Z]) /\
  (forall jobId n os s,
     BatchPanel.pollLoop jobId (repeat Rejected n ++ os) s =
     (fst (BatchPanel.pollLoop jobId os s),
      concat (repeat (BatchPanel.failedPoll jobId) n)
        ++ snd (BatchPanel.pollLoop jobId os s))) /\
  (forall jobId data os s,
     BatchPanel.terminal data = true ->
     let fx := snd (BatchPanel.pollJob jobId
                      (Rejected :: Rejected :: Resolved data :: os) s) in
     count isFetch fx = 3%nat /\ delays fx = [1000; 3000; 3000]%Z) /\
  (forall cid c s, delays (snd (App.poll cid Rejected c s)) = [2000%Z]) /\
  (forall cid rs c s,
     existsb isSetTimeout (snd (App.poll cid (App.snapshot rs) c s)) = true ->
     delays (snd (App.poll cid (App.snapshot rs) c s)) = [1500%Z]) /\
  (forall cid n ins x,
     App.pending x = true ->
     App.run cid (repeat (App.Polled Rejected) n ++ ins) x =
     (fst (App.run cid ins x),
      concat (repeat (App.failedPoll cid) n) ++ snd (App.run cid ins x))) /\
  (forall cid rs os s,
     (length (App.compareModels s)
      <= size (list_to_set (map Compare.model_id rs) : gset string))%nat ->
     let fx := snd (App.comparison cid
                      (App.Polled Rejected :: App.Polled Rejected
                         :: App.Polled (App.snapshot rs) :: map App.Polled os) s) in
     count isFetch fx = 3%nat /\ delays fx = [2000; 2000; 2000]%Z).
Proof.
  split; [reflexivity|]. split.
  { intros jobId data s T. unfold BatchPanel.terminal in T. unfold BatchPanel.poll.
    destruct (String.eqb (Job.status data) "completed"); [discriminate|].
    destruct (String.eqb (Job.status data) "failed"); [discriminate|reflexivity]. }
  split; [intros; apply pollLoop_failures|]. split.
  { intros jobId data os s T. cbv zeta.
    unfold BatchPanel.pollJob.
    change (Rejected :: Rejected :: Resolved data :: os)
      with (repeat Rejected 2 ++ ([] ++ Resolved data :: os)).
    rewrite pollLoop_failures, (pollLoop_stops jobId [] data os _ T).
    cbn [List.app BatchPanel.pollLoop].
    destruct (poll_terminal jobId data s T) as [E _].
    unfold BatchPanel.terminal in T. unfold BatchPanel.poll in *.
    destruct (String.eqb (Job.status data) "completed"); [split; reflexivity|].
    destruct (String.eqb (Job.status data) "failed"); [split; reflexivity|discriminate]. }
  split; [reflexivity|]. split.
  { intros cid rs c s. unfold App.poll, App.snapshot. cbn [Compare.results].
    pose proof (forResults_effects rs (App.seen c)) as E.
    destruct (App.forResults rs (App.seen c)) as [seen' fx]. cbn [snd] in E.
    assert (D : delays fx = []).
    { apply delays_none. intros e He. destruct (E e He) as (r & _ & ->). reflexivity. }
    assert (X : existsb isSetTimeout fx = false).
    { destruct (existsb isSetTimeout fx) eqn:B; [|reflexivity].
      apply existsb_exists in B. destruct B as (e & He & B).
      destruct (E e He) as (r & _ & ->). discriminate B. }
    destruct (size seen' <? App.expectedCount c)%nat; cbn [snd].
    - intros _. cbn [delays]. rewrite delays_app, D. reflexivity.
    - cbn [existsb isSetTimeout orb]. rewrite existsb_app, X. discriminate. }
  split; [intros; now apply run_failures|].
  intros cid rs os s L. cbv zeta. unfold App.comparison, App.pollComparison.
  change (App.Polled Rejected :: App.Polled Rejected
            :: App.Polled (App.snapshot rs) :: map App.Polled os)
    with (repeat (App.Polled Rejected) 2
            ++ (App.Polled (App.snapshot rs) :: map App.Polled os)).
  rewrite run_failures by reflexivity.
  cbn [App.run App.deliver App.pending App.closure App.page].
  destruct (poll_completes cid rs
              {| App.expectedCount := length (App.compareModels s); App.seen := ∅ |} s)
    as (c' & fx & -> & E).
  { cbn [App.expectedCount App.seen]. rewrite union_empty_l_L. exact L. }
  assert (D : delays fx = []).
  { apply delays_none. intros e He. destruct (E e He) as (r & _ & ->). reflexivity. }
  assert (X : existsb isSetTimeout fx = false).
  { destruct (existsb isSetTimeout fx) eqn:B; [|reflexivity].
    apply existsb_exists in B. destruct B as (e & He & B).
    destruct (E e He) as (r & _ & ->). discriminate B. }
  assert (F : count isFetch fx = 0%nat).
  { apply count_none. intros e He. destruct (E e He) as (r & _ & ->). reflexivity. }
  assert (P : existsb isSetTimeout
                (Fetch "GET" ("/api/compare/" +:+ cid) None
                   :: fx ++ [toast "Comparison complete" "success"]) = false).
  { cbn [existsb isSetTimeout orb]. rewrite existsb_app, X. reflexivity. }
  rewrite P, run_stopped by reflexivity. cbn [fst snd repeat concat List.app].
  split.
  - rewrite !app_nil_r, count_cons, !count_app, count_cons, count_app, F.
    change (count isFetch (App.failedPoll cid)) with 1%nat. reflexivity.
  - rewrite !app_nil_r. cbn [delays]. rewrite !delays_app.
    change (delays (App.failedPoll cid)) with [2000%Z].
    cbn [delays]. rewrite delays_app, D. reflexivity.
Qed.

(** two failed fetches and then the end, in both loops *)
Lemma C5_poll_retry_delays_witness :
  delays (snd (BatchPanel.pollJob "job-1"
                 [Rejected; Rejected; Resolved (Sample.jobSnapshot "completed" 8 1 1)]
                 Sample.batchRunning)) = [1000; 3000; 3000]%Z /\
  delays (snd (App.comparison "cmp-1"
                 [App.Polled Rejected; App.Polled Rejected;
                  App.Polled (App.snapshot [Sample.result "A"])]
                 (Sample.comparing ["A"]))) = [2000; 2000; 2000]%Z /\
  delays (snd (BatchPanel.poll "job-1" (Resolved (Sample.jobSnapshot "running" 0 0 0))
                 Sample.batchRunning)) = [2000%Z] /\
  delays (snd (App.poll "cmp-1" (App.snapshot [Sample.result "A"])
                 {| App.expectedCount := 2; App.seen := ∅ |}
                 (Sample.comparing ["A"; "B"]))) = [1500%Z].
Proof.
  destruct C5_poll_retry_delays as (_ & S1 & _ & J & _ & S2 & _ & C).
  split; [exact (proj2 (J "job-1" (Sample.jobSnapshot "completed" 8 1 1) []
                          Sample.batchRunning eq_refl))|].
  split; [refine (proj2 (C "cmp-1" [Sample.result "A"] [] (Sample.comparing ["A"]) _));
          vm_compute; lia|].
  split; [exact (S1 "job-1" (Sample.jobSnapshot "running" 0 0 0) Sample.batchRunning eq_refl)|].
  apply S2. vm_compute. reflexivity.
Defined.

(** C5, the claim as stated fails for the comparison loop: its first poll
    and its poll after a failure are both set 2000 ms ahead, so with two
    failures and then every result the second fetch has no longer a delay
    than the first. *)
Lemma C5_comparison_retry_not_longer :
  let fx := snd (App.comparison "cmp-1"
                   [App.Polled Rejected; App.Polled Rejected;
                    App.Polled (App.snapshot [Sample.result "A"])]
                   (Sample.comparing ["A"])) in
  count isFetch fx = 3%nat /\
  delays fx = [2000; 2000; 2000]%Z /\
  ~ (nth 0 (delays fx) 0 < nth 1 (delays fx) 0)%Z.
Proof.
  cbv zeta.
  assert (E : delays (snd (App.comparison "cmp-1"
                   [App.Polled Rejected; App.Polled Rejected;
                    App.Polled (App.snapshot [Sample.result "A"])]
                   (Sample.comparing ["A"]))) = [2000; 2000; 2000]%Z)
    by (vm_compute; reflexivity).
  split; [vm_compute; reflexivity|]. split; [exact E|]. rewrite E. cbn. lia.
Qed.

(** C6 (as amended).  A failed fetch of a poll loop is never shown to the
    user and is always retried: after any number [n] of consecutive
    failures the panel, respectively the page, is unchanged, nothing was
    dispatched, and the next poll is set.  No number of failures marks the
    job failed. *)
Theorem C6_poll_failures_always_retried (n : nat) :
  (forall jobId s,
     BatchPanel.pollJob jobId (repeat Rejected n) s =
     (s, SetTimeout (PollJob jobId) 1000
           :: concat (repeat (BatchPanel.failedPoll jobId) n))) /\
  (forall cid s,
     App.comparison cid (repeat (App.Polled Rejected) n) s =
     ({| App.page := s;
         App.closure := {| App.expectedCount := length (App.compareModels s);
                           App.seen := ∅ |};
         App.pending := true |},
      SetTimeout (PollComparison cid) 2000
        :: concat (repeat (App.failedPoll cid) n))) /\
  (forall jobId,
     count isDispatch (concat (repeat (BatchPanel.failedPoll jobId) n)) = 0%nat /\
     existsb isSetTimeout (BatchPanel.failedPoll jobId) = true) /\
  (forall cid,
     count isDispatch (concat (repeat (App.failedPoll cid) n)) = 0%nat /\
     existsb isSetTimeout (App.failedPoll cid) = true).
Proof.
  split; [intros; apply pollJob_failures|]. split.
  { intros cid s. unfold App.comparison, App.pollComparison.
    rewrite <- (app_nil_r (repeat (App.Polled Rejected) n)), run_failures by reflexivity.
    cbn [App.run fst snd List.app]. now rewrite app_nil_r. }
  split; intros id; (split; [|reflexivity]).
  - rewrite count_failed_job. change (count isDispatch (BatchPanel.failedPoll id)) with 0%nat. lia.
  - rewrite count_failed_compare. change (count isDispatch (App.failedPoll id)) with 0%nat. lia.
Qed.

(** C6, the claim as stated fails: there is no bound after which failed
    polls change the panel of a running batch, let alone mark it failed. *)
Lemma C6_no_failure_bound :
  BatchPanel.batchRunning Sample.batchRunning = true /\
  ~ exists bound : nat,
      fst (BatchPanel.pollJob "job-1" (repeat Rejected bound) Sample.batchRunning)
      <> Sample.batchRunning.
Proof.
  split; [reflexivity|]. intros [bound H]. apply H.
  now rewrite pollJob_failures.
Qed.

(** C7 (as amended).  On the close event of a socket the keepalive interval
    is cleared and exactly one reconnect is set, 3000 ms ahead.  An error
    event closes the socket and sets no timer: from then on the keepalive
    sends nothing, and the reconnect waits for the close event that
    follows.  The page has no teardown: a reconnect that is set stays set
    under every event until it fires. *)
Theorem C7_reconnect_after_close (w : App.World) :
  App.reachable w ->
  (forall i w' fx,
     App.step (App.SockClose i) w = Some (w', fx) ->
     (forall id t, App.timers (App.browser w') !! id = Some t ->
                   App.callback t <> App.Ping) /\
     exists id,
       App.timers (App.browser w) !! id = None /\
       App.timers (App.browser w') !! id = Some App.reconnectTimer /\
       App.wsReconnectTimer (App.this w') = Some id /\
       (forall id' t, App.timers (App.browser w') !! id' = Some t ->
                      App.callback t = App.Reconnect -> id' = id)) /\
  (forall i w' fx,
     App.step (App.SockError i) w = Some (w', fx) ->
     App.sockets (App.browser w') !! i = Some App.CLOSING /\
     App.timers (App.browser w') = App.timers (App.browser w) /\
     (forall id t, App.timers (App.browser w') !! id = Some t ->
                   App.callback t <> App.Reconnect) /\
     App.ping w' = w' /\
     is_Some (App.step (App.SockClose i) w')) /\
  (forall id t l w' fx,
     App.timers (App.browser w) !! id = Some t ->
     App.callback t = App.Reconnect ->
     App.step l w = Some (w', fx) ->
     App.timers (App.browser w') !! id = Some t \/
     exists throws, l = App.TimerFires id throws).
Proof.
  intros R. apply reachable_Inv in R. split; [|split].
  - intros i w' fx S. exact (close_schedules_reconnect w i w' fx R S).
  - intros i w' fx S. exact (error_forces_close w i w' fx R S).
  - intros id t l w' fx H K S. exact (reconnect_stays_pending w id t l w' fx R H K S).
Qed.

(** the first socket opens and closes: timer 2 is the reconnect *)
Lemma C7_reconnect_after_close_witness :
  App.reachable App.afterOpen /\
  App.step (App.SockClose 0) App.afterOpen = Some (App.afterClose, []) /\
  (forall id t, App.timers (App.browser App.afterClose) !! id = Some t ->
                App.callback t <> App.Ping) /\
  App.timers (App.browser App.afterClose) !! 2%nat = Some App.reconnectTimer.
Proof.
  assert (R : App.reachable App.afterOpen).
  { apply (App.reach_step (App.init Rejected false App.fresh) (App.SockOpen 0)
             App.afterOpen []); [apply App.reach_init | reflexivity]. }
  destruct (C7_reconnect_after_close App.afterOpen R) as (C & _ & _).
  destruct (C 0%nat App.afterClose [] eq_refl) as (P & _).
  split; [exact R|]. split; [reflexivity|]. split; [exact P|].
  vm_compute. reflexivity.
Defined.

(** C7, the claim as stated fails: the page has no teardown.  Once the
    first socket has closed, no event the page can get removes the pending
    reconnect, other than the firing of that timer. *)
Lemma C7_no_teardown :
  App.reachable App.afterClose /\
  App.timers (App.browser App.afterClose) !! 2%nat = Some App.reconnectTimer /\
  ~ exists l w' fx,
      App.step l App.afterClose = Some (w', fx) /\
      (forall throws, l <> App.TimerFires 2 throws) /\
      App.timers (App.browser w') !! 2%nat = None.
Proof.
  assert (H : App.timers (App.browser App.afterClose) !! 2%nat = Some App.reconnectTimer)
    by (vm_compute; reflexivity).
  split; [exact afterClose_reachable|]. split; [exact H|].
  intros (l & w' & fx & S & NL & E).
  destruct (reconnect_stays_pending _ _ _ _ _ _ (reachable_Inv _ afterClose_reachable)
              H eq_refl S) as [P|[throws ->]].
  - congruence.
  - exact (NL throws eq_refl).
Qed.

(** C8.  A completed job whose snapshot carries a result shows
    "Complete: <completed> processed, <skipped> skipped, <failed> failed"
    with the counts of that result; for 8, 1 and 1 this is
    "Complete: 8 processed, 1 skipped, 1 failed". *)
Theorem C8_batch_summary (jobId : string) (data : Job.Snapshot) (r : Job.Result)
    (rest : list Job.Result) (s : BatchPanel.State) :
  Job.status data = "completed" ->
  Job.results data = Some (r :: rest) ->
  let s' := fst (BatchPanel.poll jobId (Resolved data) s) in
  BatchPanel.batchRunning s' = false /\
  BatchPanel.batchStatus s' =
    "Complete: " +:+ toString (Z.of_N (Job.completed r)) +:+ " processed, "
      +:+ toString (Z.of_N (Job.skipped r)) +:+ " skipped, "
      +:+ toString (Z.of_N (Job.failed r)) +:+ " failed" /\
  (Job.completed r = 8%N -> Job.skipped r = 1%N -> Job.failed r = 1%N ->
   BatchPanel.batchStatus s' = "Complete: 8 processed, 1 skipped, 1 failed").
Proof.
  intros St Rs. cbv zeta. unfold BatchPanel.poll. rewrite St, Rs.
  cbn [String.eqb Ascii.eqb Bool.eqb fst BatchPanel.set_run
       BatchPanel.batchRunning BatchPanel.batchStatus].
  split; [reflexivity|]. split; [reflexivity|].
  intros -> -> ->. reflexivity.
Qed.

(** the snapshot with counts 8, 1 and 1 *)
Lemma C8_batch_summary_witness :
  BatchPanel.batchStatus
    (fst (BatchPanel.poll "job-1" (Resolved (Sample.jobSnapshot "completed" 8 1 1))
            Sample.batchRunning))
  = "Complete: 8 processed, 1 skipped, 1 failed".
Proof.
  exact (proj2 (proj2 (C8_batch_summary "job-1" (Sample.jobSnapshot "completed" 8 1 1)
                         {| Job.completed := 8; Job.skipped := 1; Job.failed := 1 |} []
                         Sample.batchRunning eq_refl eq_refl))
               eq_refl eq_refl eq_refl).
Defined.

(** C9 (as amended).  [handleWSEvent] is handed whatever the frame parsed
    to, and on null it throws, reading [data.type].  The download
    percentage divides by zero on no frame at all: its division is under
    [total > 0].  The tile and the batch percentage divide by zero on no
    frame whose total is absent, null, a boolean or a number; a total that
    is absent or falsy counts as 1.  On a frame that is not null and has
    no member that throws when converted, the percentages are evaluated.
    On a frame with the fields of [WsData] the one division is that of the
    count by the total, or by 1, and its quotient gives the percentage of
    the reducer. *)
Theorem C9_percent_divisions (data : Json.Value) (frame : WsData) :
  ProgressTracker.percentages Json.JNull = ProgressTracker.TypeError /\
  ProgressTracker.nonzero (ProgressTracker.downloadPercent data) /\
  (ProgressTracker.plain (Json.get "tiles_total" data) = true ->
   ProgressTracker.nonzero (ProgressTracker.tilePercent data)) /\
  (ProgressTracker.plain (Json.get "total" data) = true ->
   ProgressTracker.nonzero (ProgressTracker.batchPercent data)) /\
  (ProgressTracker.plain (Json.get "tiles_total" data) = true ->
   ProgressTracker.plain (Json.get "total" data) = true ->
   ProgressTracker.nonzero (ProgressTracker.percentages data)) /\
  (forall ds,
     ProgressTracker.percentages data = ProgressTracker.Done ds ->
     (ProgressTracker.isType data "tile_progress" = true /\
      Json.ToBoolean (Json.get "tiles_total" data) = false) \/
     (ProgressTracker.isType data "batch_progress" = true /\
      Json.ToBoolean (Json.get "total" data) = false) \/
     (ProgressTracker.isType data "download_progress" = true /\
      Json.ToBoolean (Json.get "total" data) = false) ->
     map snd ds = [Json.Finite 1]) /\
  (data <> Json.JNull -> ProgressTracker.converts data = true ->
   exists ds, ProgressTracker.percentages data = ProgressTracker.Done ds) /\
  ProgressTracker.percentages (toJson frame) =
    ProgressTracker.Done
      match ProgressTracker.ratio frame with
      | Some (c, t) => [(Json.Finite (ofN c), Json.Finite (ofN t))]
      | None => []
      end /\
  (forall now s c t,
     ProgressTracker.ratio frame = Some (c, t) ->
     (0 < t)%N /\
     ProgressTracker.progressPercent (ProgressTracker.handleWSEvent now frame s)
     = Math_round (fmul (fdiv (ofN c) (ofN t)) 100)).
Proof.
  split; [reflexivity|].
  split; [apply download_nonzero|].
  split; [apply tile_nonzero|].
  split; [apply batch_nonzero|].
  split.
  { intros T B. apply nonzero_percentages;
      [now apply tile_nonzero | now apply batch_nonzero | apply download_nonzero]. }
  split.
  { intros ds E [[T F] | [[T F] | [T F]]].
    - exact (tile_default data ds T F E).
    - exact (batch_default data ds T F E).
    - exact (download_default data ds T F E). }
  split; [apply converts_percentages|].
  split; [apply percentages_toJson|].
  intros now s c t R. exact (ratio_percent now frame s c t R).
Qed.

(** C9, the claim as stated fails: a tile frame whose total is the string
    "0" and a batch frame whose total is the empty array divide 3 by
    zero, since both totals are truthy and convert to 0; and a frame that
    is null makes the reducer throw. *)
Lemma C9_divides_by_zero :
  ProgressTracker.percentages
    (Json.JObj [("type", Json.JStr "tile_progress");
                ("tiles_done", Json.JNum (Json.Finite 3));
                ("tiles_total", Json.JStr "0")])
  = ProgressTracker.Done [(Json.Finite 3, Json.Finite 0)] /\
  ProgressTracker.percentages
    (Json.JObj [("type", Json.JStr "batch_progress");
                ("completed", Json.JNum (Json.Finite 3));
                ("total", Json.JArr [])])
  = ProgressTracker.Done [(Json.Finite 3, Json.Finite 0)] /\
  ProgressTracker.percentages Json.JNull = ProgressTracker.TypeError.
Proof. split; [|split]; vm_compute; reflexivity. Qed.

(** C10.  Each submission returns at once when an input is missing:
    [startUpscale] without a file or a model, [startComparison] without a
    file or with no model to compare, [startBatch] without an input
    directory or a model.  The fields are unchanged and nothing is asked of
    the browser: no request, no toast. *)
Theorem C10_submissions_guarded :
  (forall s, App.uploadedFile s = None \/ App.selectedModel s = "" ->
             App.startUpscale s = (s, [])) /\
  (forall s, App.uploadedFile s = None \/ App.compareModels s = [] ->
             App.startComparison s = (s, [])) /\
  (forall s, BatchPanel.batchInputDir s = "" \/ BatchPanel.batchModel s = "" ->
             BatchPanel.startBatch s = (s, [])).
Proof.
  split; [|split]; intros s [H|H].
  - unfold App.startUpscale. now rewrite H.
  - unfold App.startUpscale. rewrite H. now destruct (App.uploadedFile s).
  - unfold App.startComparison. now rewrite H.
  - unfold App.startComparison. rewrite H. now destruct (App.uploadedFile s).
  - unfold BatchPanel.startBatch. now rewrite H.
  - unfold BatchPanel.startBatch. rewrite H. cbn [String.eqb]. now rewrite orb_true_r.
Qed.

(** the initial page has no file, the initial panel no input directory *)
Lemma C10_submissions_guarded_witness :
  App.startUpscale App.initial = (App.initial, []) /\
  App.startComparison (Sample.comparing []) = (Sample.comparing [], []) /\
  BatchPanel.startBatch BatchPanel.initial = (BatchPanel.initial, []).
Proof.
  destruct C10_submissions_guarded as (U & C & B).
  split; [apply U; now left|]. split; [apply C; now right | apply B; now left].
Defined.

End Claims.

(** * Proofs for the components around *)

(** ** Numbers *)
Section Numbers.
Import JS.
Local Open Scope Q_scope.

Lemma pow2_le_inv a b : pow2 a <= pow2 b -> (a <= b)%Z.
Proof.
  intros H. destruct (Z_le_gt_dec a b) as [|G]; [assumption|]. exfalso.
  assert (pow2 b < pow2 a) by (apply pow2_lt; lia). lra.
Qed.

Lemma pow2_neg a : pow2 (- a) == / pow2 a.
Proof. unfold pow2. apply Qpower_opp. Qed.

(** an integer of at most 53 bits times a power of two is a number *)
Lemma round53_exact n e : (0 < n <= 2 ^ 53)%Z ->
  round53 (inject_Z n * pow2 e) == inject_Z n * pow2 e.
Proof.
  intros [Hp Hb].
  assert (N0 : 0 < inject_Z n) by (change 0 with (inject_Z 0); rewrite <- Zlt_Qlt; lia).
  pose proof (pow2_pos e) as Pe.
  assert (Q0 : 0 < inject_Z n * pow2 e) by (apply Qmult_lt_0_compat; assumption).
  rewrite (round53_of_pos _ Q0). unfold round53_pos. cbv zeta.
  destruct (ilog2_spec _ Q0) as [L _].
  set (l := ilog2 (inject_Z n * pow2 e)) in *.
  assert (Hl : (l <= 53 + e)%Z).
  { apply pow2_le_inv. rewrite pow2_add.
    rewrite Zle_Qle, pow2_inject in Hb by lia.
    apply Qle_trans with (1 := L). apply Qmult_le_compat_r; lra. }
  pose proof (pow2_pos (l - 52)) as Pl.
  destruct (Z.eq_dec l (53 + e)%Z) as [E|NE].
  - assert (En : n = (2 ^ 53)%Z).
    { apply Z.le_antisymm; [exact Hb|]. rewrite Zle_Qle, pow2_inject by lia.
      rewrite E, pow2_add in L.
      apply Qmult_le_r with (z := pow2 e); assumption. }
    assert (S : inject_Z n * pow2 e / pow2 (l - 52) == inject_Z (2 ^ 52)).
    { rewrite En, !pow2_inject by lia.
      unfold Qdiv. rewrite <- pow2_neg, <- !pow2_add.
      replace (53 + e + - (l - 52))%Z with 52%Z by lia. reflexivity. }
    rewrite (rne_proper _ _ S), rne_inject, En, !pow2_inject by lia.
    rewrite <- !pow2_add. replace (52 + (l - 52))%Z with (53 + e)%Z by lia.
    reflexivity.
  - assert (S : inject_Z n * pow2 e / pow2 (l - 52)
                == inject_Z (n * 2 ^ (e - l + 52))).
    { rewrite inject_Z_mult, pow2_inject by lia.
      unfold Qdiv. rewrite <- pow2_neg, <- Qmult_assoc, <- pow2_add.
      replace (e + - (l - 52))%Z with (e - l + 52)%Z by lia. reflexivity. }
    rewrite (rne_proper _ _ S), rne_inject, inject_Z_mult, pow2_inject by lia.
    rewrite <- Qmult_assoc, <- pow2_add.
    replace (e - l + 52 + (l - 52))%Z with e by lia. reflexivity.
Qed.

(** rounding a number gives it back *)
Lemma round53_idem q : round53 (round53 q) == round53 q.
Proof.
  destruct (Q_dec q 0) as [[Qn|Qp]|Qz].
  - rewrite (round53_of_neg q Qn).
    assert (P : 0 < - q) by lra.
    destruct (scaled_range _ P) as [L U].
    apply rne_lower in L. apply rne_upper in U.
    set (m := rne (- q / pow2 (ilog2 (- q) - 52))) in *.
    assert (R : round53_pos (- q) == inject_Z m * pow2 (ilog2 (- q) - 52))
      by reflexivity.
    pose proof (round53_pos_gt0 _ P) as G.
    rewrite (round53_of_neg (- round53_pos (- q))) by lra.
    apply Qopp_comp.
    assert (E : - - round53_pos (- q) == inject_Z m * pow2 (ilog2 (- q) - 52))
      by (rewrite Qopp_involutive; exact R).
    assert (G' : 0 < - - round53_pos (- q)) by lra.
    rewrite <- (round53_of_pos _ G'), (round53_proper _ _ E), R.
    apply round53_exact. lia.
  - rewrite (round53_of_pos q Qp).
    destruct (scaled_range _ Qp) as [L U].
    apply rne_lower in L. apply rne_upper in U.
    unfold round53_pos at 2. unfold round53_pos. cbv zeta.
    apply round53_exact. lia.
  - rewrite (round53_of_zero q Qz). reflexivity.
Qed.

Lemma isNumber_round53 q : isNumber (round53 q).
Proof. apply round53_idem. Qed.

Lemma isNumber_exact n e : (0 < n <= 2 ^ 53)%Z -> isNumber (inject_Z n * pow2 e).
Proof. apply round53_exact. Qed.

Lemma isNumber_proper x y : x == y -> isNumber x -> isNumber y.
Proof.
  unfold isNumber. intros E H. rewrite <- E at 2. rewrite <- H.
  apply round53_proper. symmetry. exact E.
Qed.

Lemma isNumber_0 : isNumber 0.
Proof. reflexivity. Qed.

Lemma isNumber_1 : isNumber 1.
Proof. apply (isNumber_proper (inject_Z 1 * pow2 0)); [reflexivity|]. apply isNumber_exact. lia. Qed.

Lemma isNumber_10 : isNumber 10.
Proof. apply (isNumber_proper (inject_Z 10 * pow2 0)); [reflexivity|]. apply isNumber_exact. lia. Qed.

Lemma isNumber_quarter : isNumber (25 # 100).
Proof. apply (isNumber_proper (inject_Z 1 * pow2 (-2))); [reflexivity|]. apply isNumber_exact. lia. Qed.

Lemma isNumber_opp q : isNumber q -> isNumber (- q).
Proof.
  unfold isNumber. intros H.
  destruct (Q_dec q 0) as [[Qn|Qp]|Qz].
  - assert (P : 0 < - q) by lra. rewrite (round53_of_pos _ P).
    rewrite (round53_of_neg _ Qn) in H. lra.
  - assert (P : - q < 0) by lra. rewrite (round53_of_neg _ P).
    rewrite <- (round53_of_pos (- - q)) by lra.
    rewrite (round53_proper (- - q) q) by apply Qopp_involutive. lra.
  - rewrite (round53_of_zero (- q)) by lra. lra.
Qed.

Lemma Math_max_le x y : x <= Math_max x y /\ y <= Math_max x y.
Proof.
  unfold Math_max. destruct (Qle_bool x y) eqn:E.
  - apply Qle_bool_iff in E. lra.
  - assert (~ x <= y) by (rewrite <- Qle_bool_iff; congruence). lra.
Qed.

Lemma Math_min_le x y : Math_min x y <= x /\ Math_min x y <= y.
Proof.
  unfold Math_min. destruct (Qle_bool x y) eqn:E.
  - apply Qle_bool_iff in E. lra.
  - assert (~ x <= y) by (rewrite <- Qle_bool_iff; congruence). lra.
Qed.

Lemma Math_max_cases x y : Math_max x y = x \/ Math_max x y = y.
Proof. unfold Math_max. destruct (Qle_bool x y); auto. Qed.

Lemma Math_min_cases x y : Math_min x y = x \/ Math_min x y = y.
Proof. unfold Math_min. destruct (Qle_bool x y); auto. Qed.

Lemma Math_max_lub x y z : x <= z -> y <= z -> Math_max x y <= z.
Proof. intros. destruct (Math_max_cases x y) as [-> | ->]; assumption. Qed.

Lemma Math_min_glb x y z : z <= x -> z <= y -> z <= Math_min x y.
Proof. intros. destruct (Math_min_cases x y) as [-> | ->]; assumption. Qed.

(** the literal [0.1] *)
Lemma tenth_range : 1 # 16 <= literal (1 # 10) /\ literal (1 # 10) <= 1 # 8.
Proof.
  unfold literal. split.
  - assert (E : round53 (1 # 16) == 1 # 16).
    { apply (isNumber_proper (inject_Z 1 * pow2 (-4))); [reflexivity|].
      apply isNumber_exact. lia. }
    rewrite <- E. apply round53_mono. lra.
  - assert (E : round53 (1 # 8) == 1 # 8).
    { apply (isNumber_proper (inject_Z 1 * pow2 (-3))); [reflexivity|].
      apply isNumber_exact. lia. }
    rewrite <- E. apply round53_mono. lra.
Qed.

Lemma literal_125 : literal (125 # 100) == 5 # 4.
Proof.
  unfold literal. rewrite (round53_proper _ (inject_Z 5 * pow2 (-2))) by reflexivity.
  rewrite round53_exact by lia. reflexivity.
Qed.

(** rounding does not cross a number *)
Lemma round53_ge z x : isNumber z -> z <= x -> z <= round53 x.
Proof.
  unfold isNumber. intros H L. apply round53_mono in L. lra.
Qed.

Lemma round53_le z x : isNumber z -> x <= z -> round53 x <= z.
Proof.
  unfold isNumber. intros H L. apply round53_mono in L. lra.
Qed.

End Numbers.

Section Neighbours.
Import JS.
Local Open Scope Q_scope.

(** a positive number is a 53-bit integer times a power of two *)
Lemma number_form z : isNumber z -> 0 < z ->
  exists m e, (2 ^ 52 <= m <= 2 ^ 53)%Z /\ z == inject_Z m * pow2 e.
Proof.
  intros H P. unfold isNumber in H. rewrite (round53_of_pos _ P) in H.
  destruct (scaled_range _ P) as [L U].
  apply rne_lower in L. apply rne_upper in U.
  exists (rne (z / pow2 (ilog2 z - 52))), (ilog2 z - 52)%Z.
  split; [lia|]. symmetry. exact H.
Qed.

(** a result at least a sixteenth above a number rounds above it *)
Lemma round53_above z x : isNumber z -> 0 < z -> z * (17 # 16) <= x -> z < round53 x.
Proof.
  intros H P Hx. destruct (number_form z H P) as (m & e & [Lm Um] & E).
  pose proof (pow2_pos e) as Pe.
  assert (M : inject_Z (2 ^ 52) <= inject_Z m) by (rewrite <- Zle_Qle; exact Lm).
  change (inject_Z (2 ^ 52)) with (4503599627370496 # 1) in M.
  destruct (Z.eq_dec m (2 ^ 53)%Z) as [Em|Nm].
  - assert (W : round53 (inject_Z (2 ^ 52 + 1) * pow2 (e + 1))
                == inject_Z (2 ^ 52 + 1) * pow2 (e + 1))
      by (apply round53_exact; lia).
    assert (S : inject_Z (2 ^ 52 + 1) * pow2 (e + 1) <= x).
    { rewrite (Z.add_comm e 1), pow2_add. change (pow2 1) with 2.
      change (inject_Z (2 ^ 52 + 1)) with (4503599627370497 # 1).
      rewrite Em in E. change (inject_Z (2 ^ 53)) with (9007199254740992 # 1) in E.
      rewrite E in Hx. lra. }
    apply round53_mono in S. rewrite W in S.
    rewrite (Z.add_comm e 1), pow2_add in S. change (pow2 1) with 2 in S.
    change (inject_Z (2 ^ 52 + 1)) with (4503599627370497 # 1) in S.
    rewrite Em in E. change (inject_Z (2 ^ 53)) with (9007199254740992 # 1) in E.
    rewrite E. lra.
  - assert (W : round53 (inject_Z (m + 1) * pow2 e) == inject_Z (m + 1) * pow2 e)
      by (apply round53_exact; lia).
    assert (S : inject_Z (m + 1) * pow2 e <= x).
    { rewrite inject_Z_plus. change (inject_Z 1) with 1.
      rewrite E in Hx. nra. }
    apply round53_mono in S. rewrite W in S.
    rewrite inject_Z_plus in S. change (inject_Z 1) with 1 in S.
    rewrite E. nra.
Qed.

(** a result at least a sixteenth below a number rounds below it *)
Lemma round53_below z x : isNumber z -> 0 < z -> x <= z * (15 # 16) -> round53 x < z.
Proof.
  intros H P Hx. destruct (number_form z H P) as (m & e & [Lm Um] & E).
  pose proof (pow2_pos e) as Pe.
  assert (M : inject_Z (2 ^ 52) <= inject_Z m) by (rewrite <- Zle_Qle; exact Lm).
  change (inject_Z (2 ^ 52)) with (4503599627370496 # 1) in M.
  assert (W : round53 (inject_Z (m - 1) * pow2 e) == inject_Z (m - 1) * pow2 e)
    by (apply round53_exact; lia).
  assert (S : x <= inject_Z (m - 1) * pow2 e).
  { unfold Z.sub. rewrite inject_Z_plus. change (inject_Z (- (1))) with (- (1)).
    rewrite E in Hx. nra. }
  apply round53_mono in S. rewrite W in S.
  unfold Z.sub in S. rewrite inject_Z_plus in S.
  change (inject_Z (- (1))) with (- (1)) in S.
  rewrite E. nra.
Qed.

End Neighbours.

(** ** The image viewer *)
Section Viewer.
Import JS ImageViewer.
Local Open Scope Q_scope.

Lemma isNumber_min a b : isNumber a -> isNumber b -> isNumber (Math_min a b).
Proof. intros. destruct (Math_min_cases a b) as [-> | ->]; assumption. Qed.

Lemma isNumber_max a b : isNumber a -> isNumber b -> isNumber (Math_max a b).
Proof. intros. destruct (Math_max_cases a b) as [-> | ->]; assumption. Qed.

Lemma tenth_number : isNumber (literal (1 # 10)).
Proof. apply isNumber_round53. Qed.

(** [max(lo, min(10, x))] lies between [lo] and 10 *)
Lemma clamp_range lo x : lo <= 10 ->
  lo <= Math_max lo (Math_min 10 x) /\ Math_max lo (Math_min 10 x) <= 10.
Proof.
  intros H. split; [apply Math_max_le|].
  apply Math_max_lub; [exact H | apply Math_min_le].
Qed.

Lemma clamp_number lo x : isNumber lo -> isNumber x ->
  isNumber (Math_max lo (Math_min 10 x)).
Proof.
  intros. apply isNumber_max; [assumption|].
  apply isNumber_min; [apply isNumber_10 | assumption].
Qed.

(** a drag back at its starting point adds nothing to the offset *)
Lemma pan_back base x z : isNumber base -> fadd base (fdiv (fsub x x) z) == base.
Proof.
  intros H. unfold fsub. rewrite (round53_of_zero (x - x)) by lra.
  unfold fdiv. rewrite (round53_of_zero (0 / z)) by (unfold Qdiv; lra).
  unfold fadd. unfold isNumber in H. rewrite <- H at 2. apply round53_proper. lra.
Qed.

Lemma grows z : isNumber z -> 0 < z -> z <= fmul z (literal (125 # 100)).
Proof.
  intros H P. apply round53_ge; [exact H|]. rewrite literal_125. lra.
Qed.

Lemma shrinks z : isNumber z -> 0 < z -> fdiv z (literal (125 # 100)) <= z.
Proof.
  intros H P. apply round53_le; [exact H|].
  rewrite literal_125. unfold Qdiv. change (/ (5 # 4)) with (4 # 5). lra.
Qed.

Lemma inRange_initial : inRange initial.
Proof.
  pose proof tenth_range.
  repeat split; cbn -[literal fmul fdiv fadd fsub Math_min Math_max]; try apply isNumber_1; try apply isNumber_0; lra.
Qed.

Lemma inRange_call c s : inRange s -> inRange (call c s).
Proof.
  intros (Nz & Lo & Hi & Nx & Ny).
  pose proof tenth_range as [T1 T2].
  assert (P : 0 < zoom s) by lra.
  assert (R : inRange (resetView s)).
  { repeat split; cbn -[literal fmul fdiv fadd fsub Math_min Math_max]; try apply isNumber_1; try apply isNumber_0; try assumption; lra. }
  destruct c; cbn [call].
  - unfold initViewer. destruct detail as [[url|]|]; try (repeat split; assumption).
    destruct (String.eqb url ""); [repeat split; assumption|].
    repeat split; cbn -[literal fmul fdiv fadd fsub Math_min Math_max]; try apply isNumber_1; try apply isNumber_0; lra.
  - unfold zoomIn. repeat split; cbn -[literal fmul fdiv fadd fsub Math_min Math_max]; try assumption.
    + apply isNumber_min; [apply isNumber_10 | apply isNumber_round53].
    + apply Math_min_glb; [lra|]. pose proof (grows _ Nz P). lra.
    + apply Math_min_le.
  - unfold zoomOut. repeat split; cbn -[literal fmul fdiv fadd fsub Math_min Math_max]; try assumption.
    + apply isNumber_max; [apply tenth_number | apply isNumber_round53].
    + apply Math_max_le.
    + apply Math_max_lub; [lra|]. pose proof (shrinks _ Nz P). lra.
  - exact R.
  - unfold handleWheel. repeat split; cbn -[literal fmul fdiv fadd fsub Math_min Math_max]; try assumption.
    + apply clamp_number; [apply tenth_number | apply isNumber_round53].
    + refine (proj1 (clamp_range _ _ _)). lra.
    + refine (proj2 (clamp_range _ _ _)). lra.
  - unfold startPan. destruct (negb (button =? 0)%Z); repeat split; assumption.
  - unfold handlePan. destruct (negb (isPanning s)); repeat split; cbn -[literal fmul fdiv fadd fsub Math_min Math_max];
      try assumption; apply isNumber_round53.
  - repeat split; assumption.
Qed.

Lemma inRange_after cs s : inRange s -> inRange (after cs s).
Proof.
  revert s. induction cs as [|c cs IH]; intros s H; [exact H|].
  apply IH, inRange_call, H.
Qed.

(** what a drag rests on, through the calls that leave it going *)
Lemma keepsDrag_call c s : keepsDrag c = true -> isPanning s = true ->
  isPanning (call c s) = true /\
  panStartX (call c s) = panStartX s /\ panStartY (call c s) = panStartY s /\
  panBaseX (call c s) = panBaseX s /\ panBaseY (call c s) = panBaseY s.
Proof.
  intros K D. destruct c; try discriminate K; cbn -[literal fmul fdiv fadd fsub Math_min Math_max]; try (repeat split; assumption).
  unfold handlePan. rewrite D. cbn. repeat split; assumption.
Qed.

Lemma keepsDrag_after cs s : forallb keepsDrag cs = true -> isPanning s = true ->
  isPanning (after cs s) = true /\
  panStartX (after cs s) = panStartX s /\ panStartY (after cs s) = panStartY s /\
  panBaseX (after cs s) = panBaseX s /\ panBaseY (after cs s) = panBaseY s.
Proof.
  revert s. induction cs as [|c cs IH]; intros s K D; [repeat split; assumption|].
  cbn in K. apply andb_prop in K as [Kc K].
  destruct (keepsDrag_call c s Kc D) as (D1 & E1 & E2 & E3 & E4).
  destruct (IH (call c s) K D1) as (D2 & F1 & F2 & F3 & F4).
  change (after (c :: cs) s) with (after cs (call c s)).
  repeat split; congruence.
Qed.

(** one zoom step up or down, by button or by wheel *)
Lemma zoomIn_up s : inRange s -> zoom s < 10 -> zoom s < zoom (zoomIn s).
Proof.
  intros (Nz & Lo & Hi & _) H. pose proof tenth_range as [T1 T2].
  cbn -[literal fmul fdiv fadd fsub Math_min Math_max]. destruct (Math_min_cases 10 (fmul (zoom s) (literal (125 # 100)))) as [-> | ->];
    [exact H|].
  apply round53_above; [exact Nz | lra |]. rewrite literal_125. lra.
Qed.

Lemma zoomOut_down s : inRange s -> literal (1 # 10) < zoom s ->
  zoom (zoomOut s) < zoom s.
Proof.
  intros (Nz & Lo & Hi & _) H. pose proof tenth_range as [T1 T2].
  cbn -[literal fmul fdiv fadd fsub Math_min Math_max]. destruct (Math_max_cases (literal (1 # 10)) (fdiv (zoom s) (literal (125 # 100))))
    as [-> | ->]; [exact H|].
  apply round53_below; [exact Nz | lra |]. rewrite literal_125.
  unfold Qdiv. change (/ (5 # 4)) with (4 # 5). lra.
Qed.

Lemma wheel_up lo z : isNumber z -> 0 < lo -> lo <= z -> z < 10 ->
  z < Math_max lo (Math_min 10 (fadd z (fmul (literal (1 # 10)) z))).
Proof.
  intros Nz Pl Lo H. pose proof tenth_range as [T1 T2].
  assert (U : z < fadd z (fmul (literal (1 # 10)) z)).
  { apply round53_above; [exact Nz | lra |].
    assert (F : z * (1 # 16) <= fmul (literal (1 # 10)) z).
    { assert (E : isNumber (z * (1 # 16))).
      { destruct (number_form z Nz ltac:(lra)) as (m & e & Bm & E).
        apply (isNumber_proper (inject_Z m * pow2 (e - 4))).
        - rewrite E. unfold Z.sub. rewrite pow2_add. change (pow2 (- (4))) with (1 # 16). lra.
        - apply isNumber_exact. lia. }
      apply round53_ge; [exact E | nra]. }
    lra. }
  apply Qlt_le_trans with (Math_min 10 (fadd z (fmul (literal (1 # 10)) z))).
  - destruct (Math_min_cases 10 (fadd z (fmul (literal (1 # 10)) z))) as [-> | ->];
      assumption.
  - apply Math_max_le.
Qed.

Lemma wheel_down lo z : isNumber z -> 0 < lo -> lo < z -> z <= 10 ->
  Math_max lo (Math_min 10 (fadd z (fmul (- literal (1 # 10)) z))) < z.
Proof.
  intros Nz Pl Lo H. pose proof tenth_range as [T1 T2].
  assert (U : fadd z (fmul (- literal (1 # 10)) z) < z).
  { apply round53_below; [exact Nz | lra |].
    assert (F : fmul (- literal (1 # 10)) z <= - (z * (1 # 16))).
    { assert (E : isNumber (- (z * (1 # 16)))).
      { apply isNumber_opp.
        destruct (number_form z Nz ltac:(lra)) as (m & e & Bm & E).
        apply (isNumber_proper (inject_Z m * pow2 (e - 4))).
        - rewrite E. unfold Z.sub. rewrite pow2_add. change (pow2 (- (4))) with (1 # 16). lra.
        - apply isNumber_exact. lia. }
      apply round53_le; [exact E | nra]. }
    lra. }
  destruct (Math_max_cases lo (Math_min 10 (fadd z (fmul (- literal (1 # 10)) z))))
    as [-> | ->]; [exact Lo|].
  apply Qle_lt_trans with (2 := U). apply Math_min_le.
Qed.

End Viewer.

(** ** The comparison grid *)
Section Grid.
Import JS ComparisonView.

Lemma placeholders ms : forall s,
  fold_left (fun s modelId => set_panels (panels s ++ [placeholder modelId]) s) ms s
  = set_panels (panels s ++ map placeholder ms) s.
Proof.
  induction ms as [|m ms IH]; intros s; cbn [fold_left map].
  - rewrite app_nil_r. now destruct s.
  - rewrite IH. cbn. now rewrite <- app_assoc.
Qed.

Lemma onComparisonStart_eq originalUrl modelIds s :
  onComparisonStart originalUrl modelIds s
  = set_panels (original originalUrl :: map placeholder modelIds) (resetZoom s).
Proof. unfold onComparisonStart. rewrite placeholders. reflexivity. Qed.

Lemma settle_id m u d ok p : id (settle m u d ok p) = id p.
Proof. unfold settle. now destruct (ok && _). Qed.

Lemma onFound_ids m f ps : (forall p, id (f p) = id p) ->
  map id (onFound m f ps) = map id ps.
Proof.
  intros F. induction ps as [|p ps IH]; [reflexivity|]. cbn [onFound].
  destruct (String.eqb (id p) m); cbn [map]; [now rewrite F | now rewrite IH].
Qed.

Lemma onFound_none m f ps : find m ps = None -> onFound m f ps = ps.
Proof.
  unfold find. induction ps as [|p ps IH]; [reflexivity|]. cbn [List.find onFound].
  destruct (String.eqb (id p) m); [discriminate|]. intros H. now rewrite IH.
Qed.

Lemma onFound_first m f before p rest :
  id p = m -> Forall (fun q => id q <> m) before ->
  onFound m f (before ++ p :: rest) = before ++ f p :: rest.
Proof.
  intros E. induction 1 as [|q before N _ IH]; cbn [List.app onFound].
  - now rewrite E, String.eqb_refl.
  - apply String.eqb_neq in N. now rewrite N, IH.
Qed.

Lemma find_onFound_other m m' f ps : (forall p, id (f p) = id p) -> m' <> m ->
  find m' (onFound m f ps) = find m' ps.
Proof.
  intros F N. unfold find. induction ps as [|p ps IH]; [reflexivity|]. cbn [onFound].
  destruct (String.eqb (id p) m) eqn:E; cbn [List.find].
  - rewrite F. apply String.eqb_eq in E.
    assert (X : String.eqb (id p) m' = false) by (apply String.eqb_neq; congruence).
    now rewrite X.
  - now rewrite IH.
Qed.

(** an event that is neither a start nor a result for [m] leaves the
    panel of [m] as it is *)
Lemma listen_other m e s :
  isStart e = false -> App.isResultFor m e = false ->
  find m (panels (listen e s)) = find m (panels s).
Proof.
  intros S R. destruct e as [| name d |]; try reflexivity.
  destruct d; try reflexivity; cbn [listen isStart App.isResultFor] in *.
  - now rewrite S.
  - destruct (String.eqb name "comparison-result"); [|reflexivity].
    cbn [andb] in R. apply String.eqb_neq in R.
    unfold onComparisonResult. cbn [panels set_panels].
    apply find_onFound_other; [apply settle_id | congruence].
Qed.

Lemma observe_app fx fx' s : observe (fx ++ fx') s = observe fx' (observe fx s).
Proof. apply fold_left_app. Qed.

Lemma observe_other m fx : forall s,
  count isStart fx = 0%nat -> count (App.isResultFor m) fx = 0%nat ->
  find m (panels (observe fx s)) = find m (panels s).
Proof.
  induction fx as [|e fx IH]; intros s S R; [reflexivity|].
  rewrite count_cons in S, R.
  destruct (isStart e) eqn:Se; [discriminate S|].
  destruct (App.isResultFor m e) eqn:Re; [discriminate R|].
  change (observe (e :: fx) s) with (observe fx (listen e s)).
  rewrite IH by assumption. now apply listen_other.
Qed.

Lemma listen_ids e s : isStart e = false -> ids (listen e s) = ids s.
Proof.
  intros S. destruct e as [| name d |]; try reflexivity.
  destruct d; try reflexivity; cbn [listen isStart] in *.
  - now rewrite S.
  - destruct (String.eqb name "comparison-result"); [|reflexivity].
    apply onFound_ids, settle_id.
Qed.

Lemma observe_ids fx : forall s, count isStart fx = 0%nat -> ids (observe fx s) = ids s.
Proof.
  induction fx as [|e fx IH]; intros s S; [reflexivity|].
  rewrite count_cons in S. destruct (isStart e) eqn:Se; [discriminate S|].
  change (observe (e :: fx) s) with (observe fx (listen e s)).
  rewrite IH by assumption. now apply listen_ids.
Qed.

(** the poll loop and the push channel dispatch no [comparison-start] *)
Lemma poll_no_start cid o c s :
  count isStart (snd (App.poll cid o c s)) = 0%nat.
Proof.
  unfold App.poll. destruct o as [|data]; [reflexivity|].
  destruct (Compare.results data) as [rs|]; [|reflexivity].
  destruct (App.forResults rs (App.seen c)) as [seen' fx] eqn:F.
  assert (Z : count isStart fx = 0%nat).
  { replace fx with (snd (App.forResults rs (App.seen c))) by now rewrite F.
    apply forResults_only. reflexivity. }
  destruct (size seen' <? App.expectedCount c)%nat; cbn [snd];
    rewrite count_cons, count_app, Z; reflexivity.
Qed.

Lemma push_no_start data s :
  count isStart (snd (App.handleWSEvent data s)) = 0%nat.
Proof.
  apply count_none. intros e He.
  destruct (handleWSEvent_effects _ _ _ He) as [-> | [-> | [[-> _] | [-> | ->]]]]; reflexivity.
Qed.

Lemma run_no_start cid ins : forall x,
  count isStart (snd (App.run cid ins x)) = 0%nat.
Proof.
  induction ins as [|i ins IH]; intros x; cbn [App.run]; [reflexivity|].
  destruct (App.deliver cid i x) as [x1 fx] eqn:D.
  specialize (IH x1). destruct (App.run cid ins x1) as [x2 fx'].
  cbn [snd] in *. rewrite count_app, IH, Nat.add_0_r.
  unfold App.deliver in D. destruct i as [data|o].
  - pose proof (push_no_start data (App.page x)) as P.
    destruct (App.handleWSEvent data (App.page x)). inversion D; subst. exact P.
  - destruct (App.pending x).
    + pose proof (poll_no_start cid o (App.closure x) (App.page x)) as P.
      destruct (App.poll cid o (App.closure x) (App.page x)) as [[c s] fx0].
      inversion D; subst. exact P.
    + inversion D; subst. reflexivity.
Qed.

Lemma saveFrom_spec fetched ps : forall n,
  let '(fx, names) := saveFrom fetched n ps in
  (length names <= length fx)%nat /\
  Forall (fun e => exists p u,
            In p ps /\ id p <> "original" /\ url p = Some u /\
            u <> "" /\ e = Fetch "GET" u None) fx /\
  Forall (fun n => exists p,
            In p ps /\ id p <> "original" /\ url p <> None /\
            n = "comparison_" +:+ id p +:+ ".png") names.
Proof.
  induction ps as [|p ps IH]; intros n; cbn [saveFrom].
  - repeat split; constructor.
  - assert (W : forall m,
      let '(fx, names) := saveFrom fetched m ps in
      (length names <= length fx)%nat /\
      Forall (fun e => exists q u,
                In q (p :: ps) /\ id q <> "original" /\ url q = Some u /\
                u <> "" /\ e = Fetch "GET" u None) fx /\
      Forall (fun n => exists q,
                In q (p :: ps) /\ id q <> "original" /\ url q <> None /\
                n = "comparison_" +:+ id q +:+ ".png") names).
    { intros m. specialize (IH m). destruct (saveFrom fetched m ps) as [fx names].
      destruct IH as (L & F & N). split; [exact L|]. split.
      - eapply List.Forall_impl; [|exact F].
        intros e (q & u & I & R). exists q, u. split; [now right | exact R].
      - eapply List.Forall_impl; [|exact N].
        intros e (q & I & R). exists q. split; [now right | exact R]. }
    destruct (url p) as [u|] eqn:U; [|apply W].
    destruct (String.eqb u "") eqn:Eu; [apply W|].
    destruct (String.eqb (id p) "original") eqn:Ei; [apply W|].
    cbn [orb]. specialize (W (S n)). destruct (saveFrom fetched (S n) ps) as [fx names].
    destruct W as (L & F & N).
    apply String.eqb_neq in Eu, Ei.
    assert (F' : Forall (fun e => exists q u0,
                In q (p :: ps) /\ id q <> "original" /\ url q = Some u0 /\
                u0 <> "" /\ e = Fetch "GET" u0 None) (Fetch "GET" u None :: fx)).
    { constructor; [|exact F]. exists p, u. repeat split; try assumption. now left. }
    destruct (fetched n); cbn [length]; (split; [lia|]); (split; [exact F'|]);
      [|exact N].
    constructor; [|exact N]. exists p. repeat split; try assumption.
    + now left.
    + congruence.
Qed.

Lemma samePanel_refl p : samePanel p p.
Proof. unfold samePanel. auto. Qed.

Lemma samePanel_trans p q r : samePanel p q -> samePanel q r -> samePanel p r.
Proof.
  unfold samePanel. intros (I & L & B) (I' & L' & B').
  split; [congruence|]. split; [congruence|].
  destruct B' as [B'|B']; [destruct B as [B|B]; [left | right]; congruence|].
  right. congruence.
Qed.

Lemma settle_same m u d ok p : id p = m -> samePanel p (settle m u d ok p).
Proof.
  intros E. unfold samePanel, settle.
  destruct (ok && _); cbn [id loaded label]; repeat split; auto.
  right. now rewrite E.
Qed.

Lemma Forall2_samePanel_refl ps : Forall2 samePanel ps ps.
Proof. induction ps; constructor; [apply samePanel_refl | assumption]. Qed.

Lemma Forall2_samePanel_trans ps : forall qs rs,
  Forall2 samePanel ps qs -> Forall2 samePanel qs rs -> Forall2 samePanel ps rs.
Proof.
  induction ps as [|p ps IH]; intros qs rs A B.
  - inversion A; subst. inversion B; subst. constructor.
  - inversion A as [|? q ? qs' Hq A']; subst. inversion B as [|? r ? rs' Hr B']; subst.
    constructor; [eapply samePanel_trans; eassumption | eapply IH; eassumption].
Qed.

Lemma onFound_same m u d ok ps :
  Forall2 samePanel ps (onFound m (settle m u d ok) ps).
Proof.
  induction ps as [|p ps IH]; [constructor|]. cbn [onFound].
  destruct (String.eqb (id p) m) eqn:E.
  - apply String.eqb_eq in E. constructor; [now apply settle_same|].
    apply Forall2_samePanel_refl.
  - constructor; [apply samePanel_refl | exact IH].
Qed.

(** an event other than a start keeps panel for panel, and the zoom *)
Lemma listen_same e s : isStart e = false ->
  Forall2 samePanel (panels s) (panels (listen e s)) /\
  sharedZoom (listen e s) = sharedZoom s /\
  sharedPanX (listen e s) = sharedPanX s /\ sharedPanY (listen e s) = sharedPanY s.
Proof.
  intros S.
  assert (R : Forall2 samePanel (panels s) (panels s) /\ sharedZoom s = sharedZoom s /\
              sharedPanX s = sharedPanX s /\ sharedPanY s = sharedPanY s)
    by (split; [apply Forall2_samePanel_refl | auto]).
  destruct e as [| name d |]; try exact R.
  destruct d; try exact R; cbn [listen isStart] in *.
  - now rewrite S.
  - destruct (String.eqb name "comparison-result"); [|exact R].
    unfold onComparisonResult. cbn [panels set_panels sharedZoom sharedPanX sharedPanY].
    split; [apply onFound_same | auto].
Qed.

Lemma observe_same fx : forall s, count isStart fx = 0%nat ->
  Forall2 samePanel (panels s) (panels (observe fx s)) /\
  sharedZoom (observe fx s) = sharedZoom s /\
  sharedPanX (observe fx s) = sharedPanX s /\ sharedPanY (observe fx s) = sharedPanY s.
Proof.
  induction fx as [|e fx IH]; intros s S.
  - split; [apply Forall2_samePanel_refl | auto].
  - rewrite count_cons in S. destruct (isStart e) eqn:Se; [discriminate S|].
    change (observe (e :: fx) s) with (observe fx (listen e s)).
    destruct (IH (listen e s) S) as (A & Z & X & Y).
    destruct (listen_same e s Se) as (A' & Z' & X' & Y').
    split; [eapply Forall2_samePanel_trans; eassumption|].
    repeat split; congruence.
Qed.

(** [saveAll], panel by panel: one request for each panel that is not
    skipped, and one download for each of them whose fetch goes through *)
Lemma saveFrom_exact fetched ps : forall n,
  saveFrom fetched n ps =
  (map request (List.filter savable ps),
   map download (delivered fetched n (List.filter savable ps))).
Proof.
  induction ps as [|p ps IH]; intros n; [reflexivity|].
  cbn [saveFrom List.filter].
  assert (Sv : savable p = match url p with
                           | Some u => negb (String.eqb u "" || String.eqb (id p) "original")
                           | None => false
                           end) by reflexivity.
  destruct (url p) as [u|] eqn:U; [|rewrite Sv; apply IH].
  destruct (String.eqb u "" || String.eqb (id p) "original"); cbn [negb] in Sv; rewrite Sv.
  - apply IH.
  - rewrite (IH (S n)). cbn [map delivered].
    assert (Rq : request p = Fetch "GET" u None) by (unfold request; now rewrite U).
    rewrite Rq. destruct (fetched n); reflexivity.
Qed.

Lemma delivered_all fetched ps : forall n,
  (forall k, fetched k = true) -> delivered fetched n ps = ps.
Proof.
  induction ps as [|p ps IH]; intros n A; [reflexivity|].
  cbn [delivered]. now rewrite A, IH.
Qed.

Lemma delivered_from fetched ps : forall n,
  (forall k, (n <= k)%nat -> fetched k = true) -> delivered fetched n ps = ps.
Proof.
  induction ps as [|p ps IH]; intros n A; [reflexivity|].
  cbn [delivered]. rewrite A by lia. f_equal. apply IH. intros k Hk. apply A. lia.
Qed.

(** one failed fetch costs its own download and no other *)
Lemma delivered_but_one fetched ps : forall n j,
  (forall k, fetched k = negb (k =? n + j)%nat) ->
  delivered fetched n ps = take j ps ++ drop (S j) ps.
Proof.
  induction ps as [|p ps IH]; intros n j F; [now destruct j|].
  cbn [delivered]. rewrite F. destruct j as [|j].
  - rewrite Nat.add_0_r, Nat.eqb_refl. cbn [negb take drop List.app].
    apply delivered_from. intros k Hk. rewrite F.
    destruct (Nat.eqb_spec k (n + 0)); [lia | reflexivity].
  - destruct (Nat.eqb_spec n (n + S j)) as [E|_]; [lia|].
    cbn [negb take drop List.app]. f_equal. apply IH.
    intros k. rewrite F. now replace (S n + j)%nat with (n + S j)%nat by lia.
Qed.

Lemma saveFrom_placeholders fetched ms : forall n,
  saveFrom fetched n (map placeholder ms) = ([], []).
Proof.
  induction ms as [|m ms IH]; intros n; [reflexivity|]. cbn [map saveFrom url placeholder].
  apply IH.
Qed.

End Grid.

Section SharedView.
Import JS ComparisonView.
Local Open Scope Q_scope.

Lemma shared_initial : inRange initial.
Proof.
  repeat split; cbn -[literal fmul fdiv fadd fsub Math_min Math_max];
    try apply isNumber_1; try apply isNumber_0; lra.
Qed.

Lemma shared_listen e s : inRange s -> inRange (listen e s).
Proof.
  intros H. destruct e as [| name d |]; try exact H.
  destruct d; try exact H; cbn [listen].
  - destruct (String.eqb name "comparison-start"); [|exact H].
    rewrite onComparisonStart_eq.
    repeat split; cbn -[literal fmul fdiv fadd fsub Math_min Math_max];
      try apply isNumber_1; try apply isNumber_0; lra.
  - destruct (String.eqb name "comparison-result"); exact H.
Qed.

Lemma shared_call c s : inRange s -> inRange (call c s).
Proof.
  intros H. pose proof H as (Nz & Lo & Hi & Nx & Ny).
  destruct c; cbn [call].
  - now apply shared_listen.
  - unfold handleWheel.
    repeat split; cbn -[literal fmul fdiv fadd fsub Math_min Math_max]; try assumption.
    + apply clamp_number; [apply isNumber_quarter | apply isNumber_round53].
    + refine (proj1 (clamp_range _ _ _)). lra.
    + refine (proj2 (clamp_range _ _ _)). lra.
  - unfold startPan. destruct (negb (button =? 0)%Z); exact H.
  - unfold handlePan. destruct (negb (isPanning s)); [exact H|].
    repeat split; cbn -[literal fmul fdiv fadd fsub Math_min Math_max];
      try assumption; apply isNumber_round53.
  - exact H.
  - repeat split; cbn -[literal fmul fdiv fadd fsub Math_min Math_max];
      try apply isNumber_1; try apply isNumber_0; lra.
Qed.

Lemma shared_after cs s : inRange s -> inRange (after cs s).
Proof.
  revert s. induction cs as [|c cs IH]; intros s H; [exact H|].
  apply IH, shared_call, H.
Qed.

Lemma shared_drag_call c s : keepsDrag c = true -> isPanning s = true ->
  isPanning (call c s) = true /\
  panStartX (call c s) = panStartX s /\ panStartY (call c s) = panStartY s /\
  panBaseX (call c s) = panBaseX s /\ panBaseY (call c s) = panBaseY s.
Proof.
  intros K D. destruct c as [e| | | | |]; try discriminate K; cbn [call].
  - destruct e as [| name d |]; try discriminate K.
    destruct d; try discriminate K. cbn [listen].
    destruct (String.eqb name "comparison-result"); repeat split; assumption.
  - repeat split; assumption.
  - unfold handlePan. rewrite D. repeat split; assumption.
Qed.

Lemma shared_drag_after cs s : forallb keepsDrag cs = true -> isPanning s = true ->
  isPanning (after cs s) = true /\
  panStartX (after cs s) = panStartX s /\ panStartY (after cs s) = panStartY s /\
  panBaseX (after cs s) = panBaseX s /\ panBaseY (after cs s) = panBaseY s.
Proof.
  revert s. induction cs as [|c cs IH]; intros s K D; [repeat split; assumption|].
  cbn in K. apply andb_prop in K as [Kc K].
  destruct (shared_drag_call c s Kc D) as (D1 & E1 & E2 & E3 & E4).
  destruct (IH (call c s) K D1) as (D2 & F1 & F2 & F3 & F4).
  change (after (c :: cs) s) with (after cs (call c s)).
  repeat split; congruence.
Qed.

End SharedView.

(** ** Runs of the connection *)
Section Connection.
Import JS App.

Lemma ping_browser w :
  sockets (browser (ping w)) = sockets (browser w) /\
  timers (browser (ping w)) = timers (browser w) /\
  nextTimer (browser (ping w)) = nextTimer (browser w).
Proof.
  unfold ping. destruct (ws (this w)) as [i|]; [|repeat split].
  destruct (sockets (browser w) !! i) as [[]|]; repeat split.
Qed.

Lemma connect_timers throws w :
  timers (browser (connectWebSocket throws w)) = timers (browser w).
Proof. unfold connectWebSocket. now destruct throws. Qed.

Lemma runCallback_timers cb throws w :
  timers (browser (runCallback cb throws w)) = timers (browser w).
Proof.
  destruct cb; cbn [runCallback].
  - apply ping_browser.
  - apply connect_timers.
  - reflexivity.
Qed.

Lemma close_timers i b : timers (close i b) = timers b.
Proof. unfold close. now destruct (sockets b !! i) as [[]|]. Qed.

(** a step adds only keepalive and reconnect timers *)
Lemma step_timers l w w' fx id t :
  step l w = Some (w', fx) -> timers (browser w') !! id = Some t ->
  timers (browser w) !! id = Some t \/ callback t = Ping \/ callback t = Reconnect.
Proof.
  intros S H. destruct l as [i|i frame|i|i|id0 throws]; cbn [step] in S.
  - destruct (sockets (browser w) !! i) as [[]|] eqn:Hi; try discriminate.
    inversion S; subst; clear S.
    cbn [onopen withBrowser setInterval setTimer setSocket this browser timers] in H.
    apply lookup_insert_Some in H.
    destruct H as [[_ <-]|[_ H]]; [right; left; reflexivity | left; exact H].
  - destruct (sockets (browser w) !! i) as [[]|] eqn:Hi; try discriminate.
    injection S as S. unfold onmessage in S.
    destruct frame as [data|v|];
      [destruct (handleWSEvent data (this w)) as [s fx0]| |];
      inversion S; subst; left; exact H.
  - destruct (sockets (browser w) !! i) as [st|] eqn:Hi; [|discriminate].
    assert (E : timers (browser (onerror w)) = timers (browser w)).
    { unfold onerror. destruct (ws (this w)); [apply close_timers | reflexivity]. }
    destruct st; try discriminate; inversion S; subst; rewrite E in H; left; exact H.
  - destruct (sockets (browser w) !! i) as [st|] eqn:Hi; [|discriminate].
    assert (E : w' = onclose (withBrowser (setSocket i CLOSED) w))
      by (destruct st; try discriminate; now inversion S).
    subst w'.
    cbn [onclose withBrowser setTimeout setTimer this browser timers] in H.
    apply lookup_insert_Some in H.
    destruct H as [[_ <-]|[_ H]]; [right; right; reflexivity|]. left.
    destruct (_pingInterval (this w)); cbn in H; [|exact H].
    apply lookup_delete_Some in H. tauto.
  - destruct (timers (browser w) !! id0) as [t0|] eqn:Ht; [|discriminate].
    inversion S; subst; clear S. rewrite runCallback_timers in H. left.
    destruct (repeating t0); [exact H|]. cbn in H.
    apply lookup_delete_Some in H. tauto.
Qed.

Lemma close_nextTimer i b : nextTimer (close i b) = nextTimer b.
Proof. unfold close. now destruct (sockets b !! i) as [[]|]. Qed.

Lemma runCallback_nextTimer cb throws w :
  nextTimer (browser (runCallback cb throws w)) = nextTimer (browser w).
Proof.
  destruct cb; cbn [runCallback].
  - apply ping_browser.
  - unfold connectWebSocket. now destruct throws.
  - reflexivity.
Qed.

Lemma runCallback_pingInterval cb throws w :
  _pingInterval (this (runCallback cb throws w)) = _pingInterval (this w).
Proof.
  destruct cb; cbn [runCallback].
  - unfold ping. destruct (ws (this w)) as [i|]; [|reflexivity].
    now destruct (sockets (browser w) !! i) as [[]|].
  - unfold connectWebSocket. now destruct throws.
  - reflexivity.
Qed.

Lemma step_shaped l w w' fx : shaped w -> step l w = Some (w', fx) -> shaped w'.
Proof.
  intros (C & N & P & T) S. destruct l as [i|i frame|i|i|id0 throws]; cbn [step] in S.
  - destruct (sockets (browser w) !! i) as [[]|] eqn:Hi; try discriminate.
    inversion S; subst; clear S. unfold shaped.
    cbn [onopen withBrowser setInterval setTimer setSocket this browser timers nextTimer
         _pingInterval set_pingInterval].
    split; [rewrite lookup_insert_ne by lia; exact C|].
    split; [lia|]. split; [intros [= E]; lia|].
    intros id t H. apply lookup_insert_Some in H.
    destruct H as [[_ <-]|[_ H]]; [right; left; reflexivity | exact (T id t H)].
  - destruct (sockets (browser w) !! i) as [[]|] eqn:Hi; try discriminate.
    injection S as S. unfold onmessage in S.
    destruct frame as [data|v|]; [|inversion S; subst; repeat split; assumption..].
    pose proof (handleWSEvent_channel data (this w)) as (_ & B & _).
    destruct (handleWSEvent data (this w)) as [s fx0]. cbn [fst] in B.
    inversion S; subst. unfold shaped. cbn [this browser]. rewrite B.
    repeat split; assumption.
  - destruct (sockets (browser w) !! i) as [st|] eqn:Hi; [|discriminate].
    assert (E : w' = onerror w) by (destruct st; try discriminate; now inversion S).
    subst w'. unfold shaped, onerror.
    destruct (ws (this w)) as [j|]; [|repeat split; assumption].
    cbn [this browser]. rewrite close_timers, close_nextTimer.
    repeat split; assumption.
  - destruct (sockets (browser w) !! i) as [st|] eqn:Hi; [|discriminate].
    assert (E : w' = onclose (withBrowser (setSocket i CLOSED) w))
      by (destruct st; try discriminate; now inversion S).
    subst w'. unfold shaped.
    cbn [onclose withBrowser setTimeout setTimer this browser timers nextTimer
         _pingInterval set_wsReconnectTimer].
    assert (Nx : nextTimer (clearInterval (_pingInterval (this w))
                              (setSocket i CLOSED (browser w))) = nextTimer (browser w))
      by (now destruct (_pingInterval (this w))).
    rewrite Nx.
    split.
    { rewrite lookup_insert_ne by lia.
      destruct (_pingInterval (this w)) as [p|]; cbn; [|exact C].
      rewrite lookup_delete_ne by congruence. exact C. }
    split; [lia|]. split; [exact P|].
    intros id t H. apply lookup_insert_Some in H.
    destruct H as [[_ <-]|[_ H]]; [right; right; reflexivity|].
    destruct (_pingInterval (this w)); cbn in H; [|exact (T id t H)].
    apply lookup_delete_Some in H. exact (T id t (proj2 H)).
  - destruct (timers (browser w) !! id0) as [t0|] eqn:Ht; [|discriminate].
    inversion S; subst; clear S. unfold shaped.
    rewrite runCallback_timers, runCallback_nextTimer, runCallback_pingInterval.
    destruct (repeating t0) eqn:Rp; [repeat split; assumption|].
    assert (Z : id0 <> 0%nat).
    { intros ->. rewrite C in Ht. inversion Ht; subst. discriminate Rp. }
    cbn [withBrowser clearInterval this browser timers nextTimer].
    split; [rewrite lookup_delete_ne by congruence; exact C|].
    split; [exact N|]. split; [exact P|].
    intros id t H. apply lookup_delete_Some in H. exact (T id t (proj2 H)).
Qed.

Lemma reachable_shaped w : reachable w -> shaped w.
Proof.
  induction 1 as [r throws | w l w' fx _ IH S | w s _ IH C];
    [|exact (step_shaped _ _ _ _ IH S)|].
  2: { unfold connection in C. injection C as _ _ P. unfold shaped in *.
       cbn [this browser]. now rewrite P. }
  unfold shaped, init.
  cbn [setInterval setTimer this browser timers nextTimer].
  assert (E : browser (connectWebSocket throws
              {| this := updateLoadedCount (refresh_then r initial);
                 browser := {| sockets := []; timers := ∅; nextTimer := 0; sent := [] |} |})
              = {| sockets := if throws then [] else [CONNECTING]; timers := ∅;
                   nextTimer := 0; sent := [] |}) by (now destruct throws).
  assert (Pi : _pingInterval (this (connectWebSocket throws
              {| this := updateLoadedCount (refresh_then r initial);
                 browser := {| sockets := []; timers := ∅; nextTimer := 0; sent := [] |} |}))
              = None) by (destruct throws, r; reflexivity).
  rewrite E, Pi. cbn [timers nextTimer].
  split; [apply lookup_insert_Some; left; split; reflexivity|].
  split; [lia|]. split; [discriminate|].
  intros id t H. apply lookup_insert_Some in H.
  destruct H as [[_ <-]|[_ H]]; [left; reflexivity|].
  rewrite lookup_empty in H. discriminate.
Qed.

(** the submissions and the comparison poll leave the connection alone *)
Lemma submissions_keep_connection :
  (forall s, connection (fst (startUpscale s)) = connection s) /\
  (forall r s, connection (fst (startUpscale_then r s)) = connection s) /\
  (forall s, connection (fst (startComparison s)) = connection s) /\
  (forall r s, connection (fst (fst (startComparison_then r s))) = connection s) /\
  (forall cid o c s, connection (snd (fst (poll cid o c s))) = connection s).
Proof.
  split; [|split; [|split; [|split]]].
  - intros s. unfold startUpscale. destruct (uploadedFile s); [|reflexivity].
    now destruct (String.eqb (selectedModel s) "").
  - intros [m|d|url] s; reflexivity.
  - intros s. unfold startComparison. destruct (uploadedFile s); [|reflexivity].
    now destruct (length (compareModels s) =? 0)%nat.
  - intros [m|d|[cid img]] s; reflexivity.
  - intros cid o c s. unfold poll. destruct o as [|data]; [reflexivity|].
    destruct (Compare.results data) as [rs|]; [|reflexivity].
    destruct (forResults rs (seen c)) as [seen' fx].
    now destruct (size seen' <? expectedCount c)%nat.
Qed.

(** the interval of [init] is the only timer that counts the models *)
Lemma reachable_counter w : reachable w ->
  forall id t, timers (browser w) !! id = Some t ->
               callback t = UpdateLoadedCount -> id = 0%nat.
Proof.
  induction 1 as [r throws | w l w' fx _ IH S | w s _ IH _]; intros id t H K.
  3: exact (IH id t H K).
  - unfold init in H. 
    cbn [setInterval setTimer this browser timers nextTimer] in H.
    rewrite connect_timers in H.
    cbn [this browser timers nextTimer] in H.
    assert (N : nextTimer (browser (connectWebSocket throws
              {| this := updateLoadedCount (refresh_then r initial);
                 browser := {| sockets := []; timers := ∅; nextTimer := 0; sent := [] |} |}))
              = 0%nat) by (now destruct throws).
    rewrite N in H. apply lookup_insert_Some in H.
    destruct H as [[<- _]|[_ H]]; [reflexivity|]. rewrite lookup_empty in H. discriminate.
  - destruct (step_timers _ _ _ _ _ _ S H) as [H0 | [P | P]]; [eauto | congruence | congruence].
Qed.

(** with every socket closed and no reconnect pending, no event opens a
    socket again *)
Lemma disconnected_step l w w' fx :
  disconnected w -> step l w = Some (w', fx) ->
  disconnected w' /\ sockets (browser w') = sockets (browser w).
Proof.
  intros [A N] S. destruct l as [i|i frame|i|i|id throws]; cbn [step] in S.
  - destruct (sockets (browser w) !! i) as [[]|] eqn:Hi; try discriminate.
    apply A in Hi. discriminate.
  - destruct (sockets (browser w) !! i) as [[]|] eqn:Hi; try discriminate.
    apply A in Hi. discriminate.
  - destruct (sockets (browser w) !! i) as [st|] eqn:Hi; [|discriminate].
    pose proof (A _ _ Hi) as ->. discriminate.
  - destruct (sockets (browser w) !! i) as [st|] eqn:Hi; [|discriminate].
    pose proof (A _ _ Hi) as ->. discriminate.
  - destruct (timers (browser w) !! id) as [t|] eqn:Ht; [|discriminate].
    inversion S; subst; clear S.
    set (w1 := if repeating t then w else withBrowser (clearInterval (Some id)) w).
    assert (S1 : sockets (browser w1) = sockets (browser w))
      by (subst w1; now destruct (repeating t)).
    assert (T1 : forall id' t', timers (browser w1) !! id' = Some t' ->
                                timers (browser w) !! id' = Some t').
    { subst w1. destruct (repeating t); [easy|]. cbn. intros id' t' H.
      apply lookup_delete_Some in H. tauto. }
    assert (S2 : sockets (browser (runCallback (callback t) throws w1))
                 = sockets (browser w1)).
    { destruct (callback t) eqn:K; cbn [runCallback].
      - apply ping_browser.
      - exfalso. exact (N id t Ht K).
      - reflexivity. }
    split; [split|].
    + intros i st H. rewrite S2, S1 in H. exact (A i st H).
    + intros id' t' H. rewrite runCallback_timers in H. apply T1 in H. exact (N id' t' H).
    + now rewrite S2, S1.
Qed.

Lemma disconnected_steps ls : forall w w' fx,
  disconnected w -> steps ls w = Some (w', fx) ->
  disconnected w' /\ sockets (browser w') = sockets (browser w).
Proof.
  induction ls as [|l ls IH]; intros w w' fx D S; cbn [steps] in S.
  - inversion S; subst. split; [exact D | reflexivity].
  - destruct (step l w) as [[w1 fx1]|] eqn:S1; [|discriminate].
    destruct (steps ls w1) as [[w2 fx2]|] eqn:S2; [|discriminate].
    inversion S; subst; clear S.
    destruct (disconnected_step _ _ _ _ D S1) as [D1 E1].
    destruct (IH _ _ _ D1 S2) as [D2 E2].
    split; [exact D2 | congruence].
Qed.

(** a frame handled: one [ws-event] with the frame, first *)
Lemma wsEvents_handle data s :
  wsEvents (snd (handleWSEvent data s)) = [DWs data].
Proof.
  unfold handleWSEvent.
  destruct (String.eqb (type data) "model_loaded" || String.eqb (type data) "model_loading"),
    (String.eqb (type data) "comparison_model_done" && success data),
    (String.eqb (type data) "image_complete"),
    (String.eqb (type data) "image_error"); reflexivity.
Qed.

Lemma wsEvents_app fx fx' : wsEvents (fx ++ fx') = wsEvents fx ++ wsEvents fx'.
Proof.
  induction fx as [|e fx IH]; [reflexivity|]. cbn [List.app wsEvents].
  destruct e as [| name d |]; try exact IH.
  destruct (String.eqb name "ws-event"); [cbn [List.app]; now rewrite IH | exact IH].
Qed.

Lemma wsEvents_step l w w' fx :
  step l w = Some (w', fx) -> wsEvents fx = frames [l].
Proof.
  intros S. destruct l as [i|i frame|i|i|id throws]; cbn [step] in S.
  - destruct (sockets (browser w) !! i) as [[]|]; try discriminate. now inversion S.
  - destruct (sockets (browser w) !! i) as [[]|]; try discriminate.
    injection S as S. unfold onmessage in S. destruct frame as [data|v|].
    + pose proof (wsEvents_handle data (this w)) as E.
      destruct (handleWSEvent data (this w)) as [s fx0]. inversion S; subst. exact E.
    + now inversion S.
    + now inversion S.
  - destruct (sockets (browser w) !! i) as [[]|]; try discriminate; now inversion S.
  - destruct (sockets (browser w) !! i) as [[]|]; try discriminate; now inversion S.
  - destruct (timers (browser w) !! id); [|discriminate]. now inversion S.
Qed.

Lemma frames_cons l ls : frames (l :: ls) = frames [l] ++ frames ls.
Proof. destruct l as [|i [data|v|]| | |]; reflexivity. Qed.

End Connection.

(** ** The pattern of the uploader *)
Section Pattern.
Import ImageUploader.

Lemma eqbi_table :
  forallb (fun n => forallb (fun m =>
      Bool.eqb (eqbi (ascii_of_nat n) (ascii_of_nat m))
               (Ascii.eqb (lower (ascii_of_nat n)) (lower (ascii_of_nat m))))
    (seq 0 256)) (seq 0 256) = true.
Proof. vm_compute. reflexivity. Qed.

(** equal under the flag [i]: equal in lower case *)
Lemma eqbi_lower c a : eqbi c a = Ascii.eqb (lower c) (lower a).
Proof.
  pose proof eqbi_table as T. rewrite forallb_forall in T.
  specialize (T (nat_of_ascii c)). rewrite forallb_forall in T.
  assert (Ic : In (nat_of_ascii c) (seq 0 256))
    by (apply in_seq; pose proof (nat_ascii_bounded c); lia).
  assert (Ia : In (nat_of_ascii a) (seq 0 256))
    by (apply in_seq; pose proof (nat_ascii_bounded a); lia).
  specialize (T Ic (nat_of_ascii a) Ia).
  rewrite !ascii_nat_embedding in T. now apply Bool.eqb_prop.
Qed.

Lemma dot_table :
  forallb (fun n => implb (Ascii.eqb (lower (ascii_of_nat n)) ".")
                          (Ascii.eqb (ascii_of_nat n) "."))
          (seq 0 256) = true.
Proof. vm_compute. reflexivity. Qed.

Lemma lower_dot a : lower a = "."%char -> a = "."%char.
Proof.
  intros H. pose proof dot_table as T. rewrite forallb_forall in T.
  assert (Ia : In (nat_of_ascii a) (seq 0 256))
    by (apply in_seq; pose proof (nat_ascii_bounded a); lia).
  specialize (T _ Ia). rewrite ascii_nat_embedding, H in T.
  cbn in T. now apply Ascii.eqb_eq.
Qed.

Lemma toLowerCase_app s t : toLowerCase (s +:+ t) = toLowerCase s +:+ toLowerCase t.
Proof.
  induction s as [|a s IH]; [reflexivity|].
  change (String a s +:+ t) with (String a (s +:+ t)).
  cbn [toLowerCase]. rewrite IH. reflexivity.
Qed.

(** a match is a match at some position *)
Lemma matches_at r s :
  matches r s = true <->
  exists stem rest, s = stem +:+ rest /\ matchAt r rest (fun _ => true) = true.
Proof.
  induction s as [|a s IH]; cbn [matches].
  - rewrite orb_false_r. split.
    + intros H. exists "", "". split; [reflexivity | exact H].
    + intros (stem & rest & E & H). destruct stem; [|discriminate E].
      change ("" +:+ rest) with rest in E. now subst rest.
  - rewrite orb_true_iff, IH. split.
    + intros [H | (stem & rest & E & H)].
      * exists "", (String a s). split; [reflexivity | exact H].
      * exists (String a stem), rest. split; [|exact H].
        change (String a stem +:+ rest) with (String a (stem +:+ rest)). now rewrite E.
    + intros (stem & rest & E & H). destruct stem as [|b stem].
      * change ("" +:+ rest) with rest in E. subst rest. now left.
      * change (String b stem +:+ rest) with (String b (stem +:+ rest)) in E.
        injection E as -> E. right. now exists stem, rest.
Qed.

Ltac crack H :=
  lazymatch type of H with
  | (eqbi ?c _ && _) = true =>
      let E := fresh "E" in
      apply andb_prop in H; destruct H as [E H];
      rewrite eqbi_lower in E; apply Ascii.eqb_eq in E;
      let v := eval vm_compute in (lower c) in change (lower c) with v in E;
      crack H
  | (_ || _) = true => apply orb_prop in H; destruct H as [H|H]; crack H
  | match ?s with EmptyString => _ | String _ _ => _ end = true =>
      destruct s; [try discriminate H | try discriminate H]; crack H
  | _ => idtac
  end.

(** what the pattern takes after the dot, to the end of the name *)
Lemma extension_sound a ext :
  matchAt extension (String a ext) (fun _ => true) = true ->
  a = "."%char /\ In (toLowerCase ext) extensions.
Proof.
  intros H. unfold extension in H. cbn [word matchAt] in H.
  crack H; (split; [apply lower_dot; congruence|]); cbn [toLowerCase];
    repeat match goal with E : _ = lower _ |- _ => rewrite <- E; clear E end;
    unfold extensions; cbn [In]; tauto.
Qed.

Lemma lowered s t : toLowerCase s = t ->
  match t with
  | EmptyString => s = EmptyString
  | String c t' => exists a s', s = String a s' /\ lower a = c /\ toLowerCase s' = t'
  end.
Proof.
  intros <-. destruct s as [|a s]; [reflexivity|]. now exists a, s.
Qed.

Ltac spell H :=
  repeat (apply lowered in H;
          first [ destruct H as (? & ? & -> & ? & H) | subst ]).

Lemma extension_complete ext :
  In (toLowerCase ext) extensions ->
  matchAt extension (String "." ext) (fun _ => true) = true.
Proof.
  intros H. unfold extensions in H. cbn [In] in H.
  repeat (destruct H as [H|H]); try contradiction; symmetry in H; spell H;
    unfold extension; cbn [word matchAt]; rewrite !eqbi_lower;
    repeat match goal with E : lower _ = _ |- _ => rewrite E; clear E end;
    reflexivity.
Qed.

End Pattern.

(** ** Numbers in print *)
Section Print.
Import JS.

Lemma to_int_proper z : Z.to_int z <> Decimal.Pos Decimal.Nil /\
                        Z.to_int z <> Decimal.Neg Decimal.Nil.
Proof.
  destruct z as [|p|p]; cbn; split; try discriminate;
    intros H; injection H as H; revert H; apply DecimalPos.Unsigned.to_uint_nonnil.
Qed.

(** the decimal digits tell the integer *)
Lemma toString_inj z z' : toString z = toString z' -> z = z'.
Proof.
  unfold toString. intros H. apply (f_equal NilZero.int_of_string) in H.
  destruct (to_int_proper z) as [A B], (to_int_proper z') as [A' B'].
  rewrite !NilZero.isi in H by assumption.
  injection H as H. now apply DecimalZ.to_int_inj.
Qed.

Lemma digit_cases r : (0 <= r < 10)%Z ->
  exists c, toString r = String c "" /\ (c = "0"%char -> r = 0%Z).
Proof.
  intros H.
  assert (C : (r = 0 \/ r = 1 \/ r = 2 \/ r = 3 \/ r = 4 \/ r = 5 \/ r = 6 \/ r = 7
               \/ r = 8 \/ r = 9)%Z) by lia.
  repeat (destruct C as [-> | C]); try subst r;
    (eexists; split; [reflexivity|]; try reflexivity; discriminate).
Qed.

Lemma length_append s t : String.length (s +:+ t) = (String.length s + String.length t)%nat.
Proof.
  induction s as [|a s IH]; [reflexivity|].
  change (String a s +:+ t) with (String a (s +:+ t)). cbn [String.length].
  now rewrite IH.
Qed.

(** [toFixed(1)] of a number that is not negative prints "0.0" exactly
    below a twentieth *)
Lemma toFixed1_zero x : (0 <= x)%Q -> toFixed1 x = "0.0" <-> (x < 1 # 20)%Q.
Proof.
  intros P. unfold toFixed1.
  assert (S : Qle_bool 0 x = true) by now apply Qle_bool_iff.
  rewrite S. rewrite (Qabs_pos x P).
  set (n := Qfloor (x * 10 + (1 # 2))).
  assert (F1 : (inject_Z n <= x * 10 + (1 # 2))%Q) by apply Qfloor_le.
  assert (F2 : (x * 10 + (1 # 2) < inject_Z (n + 1))%Q) by apply Qlt_floor.
  assert (N0 : (0 <= n)%Z).
  { assert (L : (inject_Z 0 <= x * 10 + (1 # 2))%Q) by (change (inject_Z 0) with 0%Q; lra).
    apply Qfloor_resp_le in L. rewrite Qfloor_Z in L. exact L. }
  split.
  - intros H.
    assert (Z0 : n = 0%Z).
    { pose proof (Z.mod_pos_bound n 10 ltac:(lia)) as B.
      pose proof (Z.div_mod n 10 ltac:(lia)) as DM.
      destruct (digit_cases (n mod 10) B) as (c & R & Rc). rewrite R in H.
      change ("" +:+ toString (n / 10) +:+ "." +:+ String c "")
        with (toString (n / 10) +:+ "." +:+ String c "") in H.
      pose proof (f_equal String.length H) as L. rewrite !length_append in L.
      destruct (toString (n / 10)) as [|a [|b rest]] eqn:Q; cbn in L; try lia.
      vm_compute in H. injection H as -> ->.
      assert (n / 10 = 0)%Z by (apply toString_inj; rewrite Q; reflexivity).
      specialize (Rc eq_refl). lia. }
    rewrite Z0 in F2. change (inject_Z (0 + 1)) with 1%Q in F2. lra.
  - intros L.
    assert (Z0 : n = 0%Z).
    { assert (n < 1)%Z; [|lia]. rewrite Zlt_Qlt. change (inject_Z 1) with 1%Q. lra. }
    rewrite Z0. reflexivity.
Qed.

(** megabytes, as [processFile] and the download label compute them *)
Lemma megabytes_mono n m : (n <= m)%N ->
  (fdiv (fdiv (ofN n) 1024) 1024 <= fdiv (fdiv (ofN m) 1024) 1024)%Q.
Proof.
  intros H. apply fdiv_mono; [reflexivity|]. apply fdiv_mono; [reflexivity|].
  now apply ofN_le.
Qed.

Lemma megabytes_nonneg n : (0 <= fdiv (fdiv (ofN n) 1024) 1024)%Q.
Proof.
  assert (Z : (fdiv (fdiv (ofN 0) 1024) 1024 == 0)%Q) by reflexivity.
  rewrite <- Z. apply megabytes_mono. lia.
Qed.

End Print.

Section Strings.

Lemma append_cancel_r u : forall s t, s +:+ u = t +:+ u -> s = t.
Proof.
  induction s as [|a s IH]; intros [|b t] H.
  - reflexivity.
  - exfalso. apply (f_equal String.length) in H. rewrite !length_append in H.
    cbn in H. lia.
  - exfalso. apply (f_equal String.length) in H. rewrite !length_append in H.
    cbn in H. lia.
  - change (String a (s +:+ u) = String b (t +:+ u)) in H.
    injection H as -> H. f_equal. now apply IH.
Qed.

End Strings.

(** ** Percentages *)
Section Percent.
Import JS ProgressTracker.

Lemma percentOf_range d t : (0 < t)%N -> (d <= t)%N ->
  (0 <= percentOf d t <= 100)%Z /\ (d = t -> percentOf d t = 100%Z).
Proof.
  intros Pt L. pose proof (ofN_pos t Pt) as Qt. pose proof (ofN_le d t L) as Ql.
  assert (Q0 : (0 <= ofN d)%Q).
  { unfold ofN. change 0%Q with (inject_Z 0). rewrite <- Zle_Qle. lia. }
  assert (D0 : (0 <= fdiv (ofN d) (ofN t))%Q).
  { apply round53_ge; [apply isNumber_0|]. apply Qle_shift_div_l; [exact Qt | lra]. }
  assert (D1 : (fdiv (ofN d) (ofN t) <= 1)%Q).
  { apply round53_le; [apply isNumber_1|]. apply Qle_shift_div_r; [exact Qt | lra]. }
  assert (N100 : isNumber 100).
  { apply (isNumber_proper (inject_Z 100 * pow2 0)); [reflexivity|].
    apply isNumber_exact. lia. }
  assert (M0 : (0 <= fmul (fdiv (ofN d) (ofN t)) 100)%Q)
    by (apply round53_ge; [apply isNumber_0 | lra]).
  assert (M1 : (fmul (fdiv (ofN d) (ofN t)) 100 <= 100)%Q)
    by (apply round53_le; [exact N100 | lra]).
  unfold percentOf, Math_round. split; [split|].
  - assert (F : (inject_Z 0 <= fmul (fdiv (ofN d) (ofN t)) 100 + (1 # 2))%Q)
      by (change (inject_Z 0) with 0%Q; lra).
    apply Qfloor_resp_le in F. now rewrite Qfloor_Z in F.
  - assert (F : (fmul (fdiv (ofN d) (ofN t)) 100 + (1 # 2) < inject_Z (100 + 1))%Q)
      by (change (inject_Z (100 + 1)) with 101%Q; lra).
    pose proof (Qfloor_le (fmul (fdiv (ofN d) (ofN t)) 100 + (1 # 2))) as G.
    assert (inject_Z (Qfloor (fmul (fdiv (ofN d) (ofN t)) 100 + (1 # 2)))
            < inject_Z (100 + 1))%Q by lra.
    rewrite <- Zlt_Qlt in H. lia.
  - intros ->.
    assert (E1 : (1 <= fdiv (ofN t) (ofN t))%Q).
    { apply round53_ge; [apply isNumber_1|]. apply Qle_shift_div_l; [exact Qt | lra]. }
    assert (E2 : (100 <= fmul (fdiv (ofN t) (ofN t)) 100)%Q)
      by (apply round53_ge; [exact N100 | lra]).
    assert (F : (inject_Z 100 <= fmul (fdiv (ofN t) (ofN t)) 100 + (1 # 2))%Q)
      by (change (inject_Z 100) with 100%Q; lra).
    apply Qfloor_resp_le in F. rewrite Qfloor_Z in F.
    assert (U : (Qfloor (fmul (fdiv (ofN t) (ofN t)) 100 + (1 # 2)) <= 100)%Z).
    { assert (F' : (fmul (fdiv (ofN t) (ofN t)) 100 + (1 # 2) < inject_Z (100 + 1))%Q)
        by (change (inject_Z (100 + 1)) with 101%Q; lra).
      pose proof (Qfloor_le (fmul (fdiv (ofN t) (ofN t)) 100 + (1 # 2))) as G.
      assert (inject_Z (Qfloor (fmul (fdiv (ofN t) (ofN t)) 100 + (1 # 2)))
              < inject_Z (100 + 1))%Q by lra.
      rewrite <- Zlt_Qlt in H. lia. }
    lia.
Qed.

End Percent.

(** ** Submissions, to their end *)
Section Flows.
Import JS.

Lemma forResults_size rs : forall seen,
  size (fst (App.forResults rs seen))
  = (size seen + count App.isResult (snd (App.forResults rs seen)))%nat.
Proof.
  induction rs as [|r rs IH]; intros seen; cbn [App.forResults].
  - cbn [fst snd]. unfold count. cbn. lia.
  - destruct (decide (Compare.model_id r ∈ seen)) as [I|N]; [apply IH|].
    specialize (IH ({[Compare.model_id r]} ∪ seen)).
    destruct (App.forResults rs ({[Compare.model_id r]} ∪ seen)) as [seen' fx].
    cbn [fst snd] in *. rewrite count_cons.
    change (App.isResult (App.resultEvent r)) with true. cbv iota.
    rewrite IH, size_union, size_singleton; [lia|].
    apply disjoint_singleton_l. exact N.
Qed.

Lemma push_no_results data s :
  count App.isResult (snd (App.handleWSEvent data s)) = 0%nat.
Proof.
  apply count_none. intros e He.
  destruct (handleWSEvent_effects _ _ _ He) as [-> | [-> | [[-> _] | [-> | ->]]]]; reflexivity.
Qed.

(** the poll timer is set exactly while the Seen-set is short of the
    expected count, and [isComparing] is on exactly while the timer is
    set *)
Lemma deliver_pending cid i x :
  App.pending x = (size (App.seen (App.closure x)) <? App.expectedCount (App.closure x))%nat ->
  App.isComparing (App.page x) = App.pending x ->
  let '(x', fx) := App.deliver cid i x in
  App.pending x' = (size (App.seen (App.closure x')) <? App.expectedCount (App.closure x'))%nat /\
  App.isComparing (App.page x') = App.pending x' /\
  App.expectedCount (App.closure x') = App.expectedCount (App.closure x) /\
  size (App.seen (App.closure x'))
  = (size (App.seen (App.closure x)) + count App.isResult fx)%nat.
Proof.
  intros J1 J2. unfold App.deliver. destruct i as [data|o].
  - pose proof (handleWSEvent_page data (App.page x)) as [P _].
    pose proof (push_no_results data (App.page x)) as Z.
    destruct (App.handleWSEvent data (App.page x)) as [s fx]. cbn [fst snd] in *.
    cbn [App.page App.closure App.pending]. rewrite Z.
    repeat split; try assumption; try lia. congruence.
  - destruct (App.pending x) eqn:Px.
    2:{ rewrite Px. repeat split; try assumption. unfold count. cbn. lia. }
    unfold App.poll. destruct o as [|data].
    { cbn [App.page App.closure App.pending existsb isSetTimeout orb].
      repeat split; try assumption. unfold count. cbn. lia. }
    destruct (Compare.results data) as [rs|].
    2:{ cbn [App.page App.closure App.pending existsb isSetTimeout orb].
        repeat split; try assumption. unfold count. cbn. lia. }
    pose proof (forResults_size rs (App.seen (App.closure x))) as Sz.
    pose proof (forResults_no_timer rs (App.seen (App.closure x))) as NT.
    destruct (App.forResults rs (App.seen (App.closure x))) as [seen' fx].
    cbn [fst snd] in *.
    destruct (size seen' <? App.expectedCount (App.closure x))%nat eqn:Lt;
      cbn [App.page App.closure App.pending App.seen App.expectedCount];
      rewrite count_cons, count_app; cbn [existsb isSetTimeout orb];
      rewrite existsb_app, NT; cbn [existsb isSetTimeout orb App.isResult];
      rewrite Lt; unfold count at 2; cbn [List.filter App.isResult toast length].
    + repeat split; try reflexivity; try assumption. lia.
    + repeat split; try reflexivity. lia.
Qed.

Lemma run_pending cid ins : forall x,
  App.pending x = (size (App.seen (App.closure x)) <? App.expectedCount (App.closure x))%nat ->
  App.isComparing (App.page x) = App.pending x ->
  let '(x', fx) := App.run cid ins x in
  App.pending x' = (size (App.seen (App.closure x')) <? App.expectedCount (App.closure x'))%nat /\
  App.isComparing (App.page x') = App.pending x' /\
  App.expectedCount (App.closure x') = App.expectedCount (App.closure x) /\
  size (App.seen (App.closure x'))
  = (size (App.seen (App.closure x)) + count App.isResult fx)%nat.
Proof.
  induction ins as [|i ins IH]; intros x J1 J2; cbn [App.run].
  - repeat split; try assumption. unfold count. cbn. lia.
  - pose proof (deliver_pending cid i x J1 J2) as D.
    destruct (App.deliver cid i x) as [x1 fx1]. destruct D as (K1 & K2 & E1 & S1).
    specialize (IH x1 K1 K2). destruct (App.run cid ins x1) as [x2 fx2].
    destruct IH as (L1 & L2 & E2 & S2). rewrite count_app.
    repeat split; try assumption; try congruence. lia.
Qed.

Lemma poll_job_id job o s :
  BatchPanel.batchJobId (fst (BatchPanel.poll job o s)) = BatchPanel.batchJobId s.
Proof.
  unfold BatchPanel.poll. destruct o as [|data]; [reflexivity|].
  destruct (String.eqb (Job.status data) "completed"); [reflexivity|].
  destruct (String.eqb (Job.status data) "failed"); reflexivity.
Qed.

Lemma poll_goes_on job o s : BatchPanel.ends o = false ->
  fst (BatchPanel.poll job o s) = s /\
  existsb isSetTimeout (snd (BatchPanel.poll job o s)) = true.
Proof.
  unfold BatchPanel.ends, BatchPanel.terminal, BatchPanel.poll.
  destruct o as [|data]; [split; reflexivity|]. intros H.
  apply orb_false_iff in H. destruct H as [-> ->]. split; reflexivity.
Qed.

(** the job loop stops at the first poll that ends it, and at no other *)
Lemma pollLoop_running job os : forall s,
  BatchPanel.batchRunning s = true ->
  BatchPanel.batchRunning (fst (BatchPanel.pollLoop job os s))
  = negb (existsb BatchPanel.ends os) /\
  BatchPanel.batchJobId (fst (BatchPanel.pollLoop job os s)) = BatchPanel.batchJobId s.
Proof.
  induction os as [|o os IH]; intros s R; cbn [BatchPanel.pollLoop existsb].
  - split; [exact R | reflexivity].
  - destruct (BatchPanel.ends o) eqn:E.
    + destruct o as [|data]; [discriminate E|]. cbn [BatchPanel.ends] in E.
      destruct (poll_terminal job data s E) as [T1 T2].
      pose proof (poll_job_id job (Resolved data) s) as Id.
      destruct (BatchPanel.poll job (Resolved data) s) as [s1 fx]. cbn [fst snd] in *.
      rewrite T1. cbn [fst orb negb]. split; assumption.
    + destruct (poll_goes_on job o s E) as [G1 G2].
      destruct (BatchPanel.poll job o s) as [s1 fx]. cbn [fst snd] in *. subst s1.
      rewrite G2. specialize (IH s R).
      destruct (BatchPanel.pollLoop job os s) as [s2 fx2]. cbn [fst orb] in *. exact IH.
Qed.

End Flows.

(** * Properties of the components *)

(** ** app.js: the connection *)
Section ConnectionProperties.
Import JS App.

Lemma afterOpen_reachable : reachable afterOpen.
Proof.
  apply (reach_step (init Rejected false fresh) (SockOpen 0) afterOpen []).
  - apply reach_init.
  - reflexivity.
Qed.

(** X1.  The page never holds two live connections: in every state it can
    reach, at most one socket is not closed, and that socket is
    [this.ws] *)
Theorem X1_one_live_connection (w : World) (i j : nat) (si sj : ReadyState) :
  reachable w ->
  sockets (browser w) !! i = Some si -> si <> CLOSED ->
  sockets (browser w) !! j = Some sj -> sj <> CLOSED ->
  i = j /\ ws (this w) = Some i.
Proof.
  intros R Hi Ni Hj Nj. destruct (reachable_Inv w R) as [I1 _ _ _].
  pose proof (I1 i si Hi Ni) as Ei. pose proof (I1 j sj Hj Nj) as Ej.
  split; [congruence | exact Ei].
Qed.

Lemma X1_one_live_connection_witness :
  0%nat = 0%nat /\ ws (this afterOpen) = Some 0%nat.
Proof.
  apply (X1_one_live_connection afterOpen 0 0 OPEN OPEN).
  - exact afterOpen_reachable.
  - reflexivity.
  - discriminate.
  - reflexivity.
  - discriminate.
Defined.

(** X2.  The timers of [init] and [connectWebSocket] do not pile up:
    however often the connection opens, fails and closes, and whatever
    the other methods of [app()] do in between, at most two of them are
    set.  One is the 5 s interval of [init] that counts the
    models, always there under id 0.  Any other is the 30 s keepalive
    interval, held in [_pingInterval] while the socket in [this.ws] is
    open or closing, or the 3 s reconnect timeout, held in
    [wsReconnectTimer] while every socket is closed.  (The timeouts of
    the comparison poll are not timers of this table.) *)
Theorem X2_timers_never_pile_up (w : World) :
  reachable w ->
  (size (timers (browser w)) <= 2)%nat /\
  timers (browser w) !! 0%nat = Some counterTimer /\
  forall id t,
    timers (browser w) !! id = Some t -> id <> 0%nat ->
    (t = pingTimer /\ _pingInterval (this w) = Some id /\
     exists i, ws (this w) = Some i /\
       (sockets (browser w) !! i = Some OPEN \/
        sockets (browser w) !! i = Some CLOSING)) \/
    (t = reconnectTimer /\ wsReconnectTimer (this w) = Some id /\ allClosed w).
Proof.
  intros R. pose proof (reachable_Inv w R) as [I1 I2 I3 I4].
  pose proof (reachable_counter w R) as C.
  destruct (reachable_shaped w R) as (C0 & _ & _ & T).
  split; [|split; [exact C0|]].
  - set (x := match _pingInterval (this w) with
              | Some p =>
                  match timers (browser w) !! p with
                  | Some t => match callback t with
                              | Ping => p
                              | _ => default 0%nat (wsReconnectTimer (this w))
                              end
                  | None => default 0%nat (wsReconnectTimer (this w))
                  end
              | None => default 0%nat (wsReconnectTimer (this w))
              end).
    assert (D : dom (timers (browser w)) ⊆ ({[0%nat]} ∪ {[x]} : gset nat)).
    { intros id Hid. apply elem_of_dom in Hid. destruct Hid as [t Ht].
      apply elem_of_union. destruct (callback t) eqn:K.
      - right. apply elem_of_singleton. destruct (I3 id t Ht K) as [P _].
        subst x. rewrite P, Ht, K. reflexivity.
      - right. apply elem_of_singleton.
        destruct (I4 id t Ht K) as (_ & Rc & A).
        assert (NP : forall p t', timers (browser w) !! p = Some t' -> callback t' <> Ping).
        { intros p t' Hp Kp. destruct (I3 p t' Hp Kp) as (_ & i & _ & [S|S]);
            apply A in S; discriminate. }
        subst x. rewrite Rc. cbn [default].
        destruct (_pingInterval (this w)) as [p|]; [|reflexivity].
        destruct (timers (browser w) !! p) as [t'|] eqn:Hp; [|reflexivity].
        destruct (callback t') eqn:K'; try reflexivity.
        exfalso. exact (NP p t' Hp K').
      - left. apply elem_of_singleton. exact (C id t Ht K). }
    rewrite <- size_dom. etransitivity; [apply subseteq_size, D|].
    rewrite size_union_alt, size_singleton.
    assert (size (({[x]} : gset nat) ∖ {[0%nat]}) <= 1)%nat.
    { etransitivity; [apply subseteq_size, subseteq_difference_l; reflexivity|].
      now rewrite size_singleton. }
    lia.
  - intros id t H N. destruct (T id t H) as [-> | [-> | ->]].
    + exfalso. apply N. exact (C id _ H eq_refl).
    + left. split; [reflexivity|]. exact (I3 id _ H eq_refl).
    + right. split; [reflexivity|]. exact (proj2 (I4 id _ H eq_refl)).
Qed.

(** after the first close: the counter and the reconnect timeout *)
Lemma X2_timers_never_pile_up_witness :
  (size (timers (browser afterClose)) <= 2)%nat /\
  timers (browser afterClose) !! 0%nat = Some counterTimer /\
  timers (browser afterClose) !! 2%nat = Some reconnectTimer.
Proof.
  destruct (X2_timers_never_pile_up afterClose afterClose_reachable) as (A & B & _).
  split; [exact A|]. split; [exact B | reflexivity].
Defined.

(** X3.  When [new WebSocket] throws in a reconnect attempt, the page stays
    disconnected for good: the [catch] only logs, so no event that follows
    creates a socket or sets another reconnect timer *)
Theorem X3_failed_reconnect_is_final (w w' : World) (id : nat) (t : Timer)
    (ls : list Label) (fx : list Effect) :
  reachable w ->
  timers (browser w) !! id = Some t -> callback t = Reconnect ->
  steps (TimerFires id true :: ls) w = Some (w', fx) ->
  sockets (browser w') = sockets (browser w) /\
  allClosed w' /\
  forall id' t', timers (browser w') !! id' = Some t' -> callback t' <> Reconnect.
Proof.
  intros R Ht K S. pose proof (reachable_Inv w R) as [I1 I2 I3 I4].
  destruct (I4 id t Ht K) as (-> & Rc & A).
  cbn [steps step] in S. rewrite Ht in S.
  cbn [repeating reconnectTimer callback runCallback connectWebSocket] in S.
  destruct (steps ls (withBrowser (clearInterval (Some id)) w)) as [[w2 fx2]|] eqn:S2;
    [|discriminate].
  inversion S; subst; clear S.
  assert (D : disconnected (withBrowser (clearInterval (Some id)) w)).
  { split; [exact A|]. intros id' t' H K'. cbn in H.
    apply lookup_delete_Some in H. destruct H as [NE H].
    destruct (I4 id' t' H K') as (_ & Rc' & _). congruence. }
  destruct (disconnected_steps _ _ _ _ D S2) as [[A' N'] E].
  split; [exact E|]. split; assumption.
Qed.

Lemma X3_failed_reconnect_is_final_witness :
  exists w',
    steps [TimerFires 2 true; TimerFires 0 false] afterClose = Some (w', []) /\
    sockets (browser w') = [CLOSED] /\
    forall id' t', timers (browser w') !! id' = Some t' -> callback t' <> Reconnect.
Proof.
  eexists. split; [reflexivity|].
  destruct (X3_failed_reconnect_is_final afterClose _ 2 reconnectTimer
              [TimerFires 0 false] [] afterClose_reachable eq_refl eq_refl eq_refl)
    as (E & _ & N).
  split; [exact E | exact N].
Defined.

(** X4.  Whatever [JSON.parse] makes of a frame is republished on the
    window once, as a [ws-event] carrying it, in the order of arrival: an
    object with the fields of a frame, and as well null, a boolean, a
    number, a string or an array; a frame on which [JSON.parse] throws is
    dropped without a trace *)
Theorem X4_frames_republished_in_order (ls : list Label) (w w' : World)
    (fx : list Effect) :
  steps ls w = Some (w', fx) -> wsEvents fx = frames ls.
Proof.
  revert w w' fx. induction ls as [|l ls IH]; intros w w' fx S; cbn [steps] in S.
  - now inversion S.
  - destruct (step l w) as [[w1 fx1]|] eqn:S1; [|discriminate].
    destruct (steps ls w1) as [[w2 fx2]|] eqn:S2; [|discriminate].
    inversion S; subst; clear S.
    rewrite wsEvents_app, frames_cons, (wsEvents_step _ _ _ _ S1), (IH _ _ _ S2).
    reflexivity.
Qed.

Lemma X4_frames_republished_in_order_witness :
  exists w' fx,
    steps [SockMessage 0 (Object (Sample.tile 1 4)); SockMessage 0 Malformed;
           SockMessage 0 (Other (Json.Num (Json.Finite 5)));
           SockMessage 0 (Other Json.Null); TimerFires 1 false;
           SockMessage 0 (Other (Json.Arr []));
           SockMessage 0 (Object (Sample.modelDone "A"))]
          afterOpen = Some (w', fx) /\
    wsEvents fx = [DWs (Sample.tile 1 4); DValue (Json.Num (Json.Finite 5));
                   DValue Json.Null; DValue (Json.Arr []);
                   DWs (Sample.modelDone "A")].
Proof.
  destruct (steps [SockMessage 0 (Object (Sample.tile 1 4)); SockMessage 0 Malformed;
                   SockMessage 0 (Other (Json.Num (Json.Finite 5)));
                   SockMessage 0 (Other Json.Null); TimerFires 1 false;
                   SockMessage 0 (Other (Json.Arr []));
                   SockMessage 0 (Object (Sample.modelDone "A"))]
                  afterOpen) as [[w' fx]|] eqn:S.
  - exists w', fx. split; [reflexivity|].
    exact (X4_frames_republished_in_order _ _ _ _ S).
  - vm_compute in S. discriminate S.
Defined.

(** X5.  A connection that closes is replaced by exactly one new one: the
    close event leaves a reconnect timer, and when that timer fires the
    page has one more socket, connecting and held in [this.ws], with no
    timer of the connection left *)
Theorem X5_closed_connection_is_replaced (w w1 : World) (i : nat) (fx : list Effect) :
  reachable w -> step (SockClose i) w = Some (w1, fx) ->
  exists id w2,
    step (TimerFires id false) w1 = Some (w2, []) /\
    sockets (browser w2) = sockets (browser w1) ++ [CONNECTING] /\
    allClosed w1 /\
    ws (this w2) = Some (length (sockets (browser w1))) /\
    forall id' t, timers (browser w2) !! id' = Some t ->
                  callback t = UpdateLoadedCount.
Proof.
  intros R S. pose proof (reachable_Inv w R) as I.
  pose proof (step_Inv _ _ _ _ I S) as I'.
  destruct (close_schedules_reconnect w i w1 fx I S) as (NP & id & _ & Ht & Rc & U).
  destruct I' as [J1 J2 J3 J4].
  destruct (J4 id reconnectTimer Ht eq_refl) as (_ & _ & A).
  exists id. eexists. cbn [step]. rewrite Ht.
  cbn [repeating reconnectTimer callback runCallback connectWebSocket newWebSocket
       withBrowser clearInterval this browser sockets timers].
  split; [reflexivity|]. cbn [this browser sockets timers ws set_ws].
  repeat split; try assumption.
  intros id' t H. apply lookup_delete_Some in H. destruct H as [NE H].
  destruct (callback t) eqn:K; [| |reflexivity]; exfalso.
  - exact (NP id' t H K).
  - exact (NE (eq_sym (U id' t H K))).
Qed.

Lemma X5_closed_connection_is_replaced_witness :
  exists id w2,
    step (TimerFires id false) afterClose = Some (w2, []) /\
    sockets (browser w2) = sockets (browser afterClose) ++ [CONNECTING] /\
    allClosed afterClose /\
    ws (this w2) = Some (length (sockets (browser afterClose))) /\
    forall id' t, timers (browser w2) !! id' = Some t ->
                  callback t = UpdateLoadedCount.
Proof.
  exact (X5_closed_connection_is_replaced afterOpen afterClose 0 []
           afterOpen_reachable eq_refl).
Defined.

(** X6.  The count of loaded models lags behind a [model_loaded] or
    [model_loading] frame: [handleWSEvent] starts the refresh of the list
    but counts before the answer is in, so the count is that of the list
    as it was, also once the new list has arrived; it is the count of the
    new list only after the next [updateLoadedCount] *)
Theorem X6_model_count_lags (data : WsData) (s : State) (l : list ModelInfo) :
  type data = "model_loaded" \/ type data = "model_loading" ->
  let s' := refresh_then (Resolved l) (fst (handleWSEvent data s)) in
  In (Fetch "GET" "/api/models" None) (snd (handleWSEvent data s)) /\
  models s' = l /\
  loadedModelCount s' = loaded (models s) /\
  loadedModelCount (updateLoadedCount s') = loaded l.
Proof.
  intros T. cbv zeta. unfold handleWSEvent.
  assert (E : String.eqb (type data) "model_loaded"
              || String.eqb (type data) "model_loading" = true).
  { destruct T as [-> | ->]; reflexivity. }
  rewrite E. cbn [fst snd]. split; [|repeat split].
  destruct (String.eqb (type data) "comparison_model_done" && success data),
    (String.eqb (type data) "image_complete"),
    (String.eqb (type data) "image_error"); cbn; tauto.
Qed.

Lemma X6_model_count_lags_witness :
  let s' := refresh_then (Resolved [{| is_loaded := true |}])
              (fst (handleWSEvent (Sample.frame "model_loaded") initial)) in
  models s' = [{| is_loaded := true |}] /\ loadedModelCount s' = 0%nat /\
  loadedModelCount (updateLoadedCount s') = 1%nat.
Proof.
  destruct (X6_model_count_lags (Sample.frame "model_loaded") initial
              [{| is_loaded := true |}] (or_introl eq_refl)) as (_ & A & B & C).
  cbv zeta. split; [exact A|]. split; [exact B | exact C].
Defined.

End ConnectionProperties.

(** ** ProgressTracker.js: the reducer *)
Section TrackerProperties.
Import JS ProgressTracker.

(** X7.  A tile, batch or download frame whose count does not exceed its
    total shows a percentage between 0 and 100, and exactly 100 when the
    two are equal; the percentage is not clamped, the bound comes from the
    frame *)
Theorem X7_percent_stays_in_bounds (now : Z) (data : WsData) (s : State) (d t : N) :
  ratio data = Some (d, t) -> (d <= t)%N ->
  let p := progressPercent (handleWSEvent now data s) in
  (0 <= p <= 100)%Z /\ (d = t -> p = 100%Z).
Proof.
  intros R L. cbv zeta. destruct (ratio_percent now data s d t R) as [P ->].
  now apply percentOf_range.
Qed.

Lemma X7_percent_stays_in_bounds_witness :
  let p := progressPercent (handleWSEvent 5000 (Sample.download 3 4) initial) in
  (0 <= p <= 100)%Z /\ (3%N = 4%N -> p = 100%Z).
Proof.
  apply (X7_percent_stays_in_bounds 5000 (Sample.download 3 4) initial 3 4).
  - reflexivity.
  - lia.
Defined.

(** X8.  A [model_loading] or [comparison_model_start] frame restarts the
    clock of the estimate: a tile frame within two seconds after it shows
    no time remaining, however long the tracker has been running *)
Theorem X8_eta_restarts_with_model (t0 now : Z) (loading data : WsData) (s : State) :
  type loading = "model_loading" \/ type loading = "comparison_model_start" ->
  type data = "tile_progress" -> (now - t0 <= 2000)%Z ->
  let s1 := handleWSEvent t0 loading s in
  startTime s1 = Some t0 /\ progressPercent s1 = 0%Z /\
  progressLabel (handleWSEvent now data s1) = tilesLabel data.
Proof.
  intros L T E. cbv zeta.
  assert (S1 : startTime (handleWSEvent t0 loading s) = Some t0
               /\ progressPercent (handleWSEvent t0 loading s) = 0%Z).
  { unfold handleWSEvent. destruct L as [-> | ->]; split; reflexivity. }
  destruct S1 as [S1 P1]. split; [exact S1|]. split; [exact P1|].
  rewrite (handle_tile now data _ T). cbn [progressLabel].
  assert (G : gtb (elapsed now (handleWSEvent t0 loading s)) 2 = false).
  { unfold gtb. apply negb_false_iff, Qle_bool_iff, elapsed_le.
    unfold elapsedMs. rewrite S1. exact E. }
  rewrite G, andb_false_r. reflexivity.
Qed.

Lemma X8_eta_restarts_with_model_witness :
  let s1 := handleWSEvent 600000 (Sample.modelLoading "esrgan") (init 0 initial) in
  startTime s1 = Some 600000%Z /\ progressPercent s1 = 0%Z /\
  progressLabel (handleWSEvent 601500 (Sample.tile 3 4) s1)
  = tilesLabel (Sample.tile 3 4).
Proof.
  apply (X8_eta_restarts_with_model 600000 601500 (Sample.modelLoading "esrgan")
           (Sample.tile 3 4) (init 0 initial)).
  - left. reflexivity.
  - reflexivity.
  - lia.
Defined.

End TrackerProperties.

(** ** app.js and the batch panel: submissions *)
Section FlowProperties.
Import JS.

(** X9.  An accepted upscale always settles: [isProcessing] is on while the
    request is out and off after any answer; the result URL is cleared
    at the start, so that after a failure no earlier result is left; the
    answer gives one event, [result-ready] or an error toast *)
Theorem X9_upscale_always_settles (s : App.State) (file : File) (r : Response string) :
  App.uploadedFile s = Some file -> App.selectedModel s <> "" ->
  let s1 := fst (App.startUpscale s) in
  let '(s2, fx) := App.startUpscale_then r s1 in
  App.isProcessing s1 = true /\ App.resultUrl s1 = None /\
  App.isProcessing s2 = false /\
  App.resultUrl s2 = match r with Ok url => Some url | _ => None end /\
  fx = [match r with
        | Ok url => DispatchEvent "result-ready" (DResultReady url)
        | NotOk detail => toast (orS detail "Upscale failed") "error"
        | Threw message => toast message "error"
        end].
Proof.
  intros U M. apply String.eqb_neq in M. cbv zeta.
  unfold App.startUpscale. rewrite U, M. cbn [fst].
  destruct r; cbn; repeat split.
Qed.

Lemma X9_upscale_always_settles_witness :
  let s := App.set_resultUrl (Some "blob:old")
             (ImageUploader.store Sample.photo (Sample.chosen "esrgan")) in
  let s1 := fst (App.startUpscale s) in
  let '(s2, fx) := App.startUpscale_then (NotOk None) s1 in
  App.isProcessing s1 = true /\ App.resultUrl s1 = None /\
  App.isProcessing s2 = false /\
  App.resultUrl s2 = None /\
  fx = [toast "Upscale failed" "error"].
Proof.
  apply (X9_upscale_always_settles
           (App.set_resultUrl (Some "blob:old")
              (ImageUploader.store Sample.photo (Sample.chosen "esrgan")))
           {| file_name := "Photo.JPG" |} (NotOk None)).
  - reflexivity.
  - discriminate.
Defined.

(** X10.  During a comparison the poll timer is set exactly while fewer
    distinct results have been forwarded than models were selected, and
    [isComparing] is on exactly while the timer is set, whatever is
    pushed, polled or fails in between *)
Theorem X10_comparison_pending_iff (cid : string) (ins : list App.Input) (s : App.State) :
  App.compareModels s <> [] -> App.isComparing s = true ->
  let '(x, fx) := App.comparison cid ins s in
  (App.pending x = true <->
   (count App.isResult fx < length (App.compareModels s))%nat) /\
  App.isComparing (App.page x) = App.pending x.
Proof.
  intros NE C. unfold App.comparison, App.pollComparison.
  assert (L : (0 < length (App.compareModels s))%nat)
    by (destruct (App.compareModels s); [contradiction | cbn; lia]).
  pose proof (run_pending cid ins
    {| App.page := s;
       App.closure := {| App.expectedCount := length (App.compareModels s);
                         App.seen := ∅ |};
       App.pending := true |}) as R.
  cbn [App.page App.closure App.pending App.seen App.expectedCount] in R.
  rewrite size_empty in R.
  assert (T : true = (0 <? length (App.compareModels s))%nat)
    by (symmetry; apply Nat.ltb_lt; exact L).
  specialize (R T C).
  destruct (App.run cid ins _) as [x fx]. destruct R as (J1 & J2 & E & Sz).
  rewrite count_app.
  change (count App.isResult [SetTimeout (PollComparison cid) 2000]) with 0%nat.
  split; [|exact J2]. rewrite J1, E, Sz. rewrite Nat.ltb_lt. lia.
Qed.

Lemma X10_comparison_pending_iff_witness :
  let '(x, fx) :=
    App.comparison "cmp-1"
      [App.Polled Rejected; App.Push (Sample.modelDone "A");
       App.Polled (App.snapshot [Sample.result "A"])]
      (Sample.comparing ["A"; "B"]) in
  (App.pending x = true <-> (count App.isResult fx < 2)%nat) /\
  App.isComparing (App.page x) = App.pending x.
Proof.
  apply (X10_comparison_pending_iff "cmp-1"
           [App.Polled Rejected; App.Push (Sample.modelDone "A");
            App.Polled (App.snapshot [Sample.result "A"])]
           (Sample.comparing ["A"; "B"])).
  - discriminate.
  - reflexivity.
Defined.

(** X11.  An accepted batch runs until a poll returns a completed or failed
    snapshot and no longer: [batchRunning] is on from [startBatch] through
    every poll that fails or finds the job unfinished, and off from the
    first snapshot that ends the job; an answer to the POST that is not ok
    switches it off at once and schedules no poll *)
Theorem X11_batch_runs_until_terminal (s : BatchPanel.State) (job : string)
    (os : list (Fetched Job.Snapshot)) :
  BatchPanel.batchInputDir s <> "" -> BatchPanel.batchModel s <> "" ->
  let s1 := fst (BatchPanel.startBatch s) in
  let '(s2, fx2) := BatchPanel.startBatch_then (Ok job) s1 in
  let s3 := fst (BatchPanel.pollLoop job os s2) in
  BatchPanel.batchRunning s1 = true /\ BatchPanel.batchStatus s1 = "" /\
  fx2 = [SetTimeout (PollJob job) 1000] /\
  BatchPanel.batchJobId s3 = Some job /\
  BatchPanel.batchRunning s3 = negb (existsb BatchPanel.ends os) /\
  forall detail,
    BatchPanel.startBatch_then (NotOk detail) s1
    = (BatchPanel.set_batchRunning false s1, [toast "Batch start failed" "error"]).
Proof.
  intros I M. apply String.eqb_neq in I, M. cbv zeta.
  unfold BatchPanel.startBatch. rewrite I, M. cbn [orb fst BatchPanel.startBatch_then].
  destruct (pollLoop_running job os
              (BatchPanel.set_batchJobId (Some job) (BatchPanel.set_run true "" s))
              eq_refl) as [R J].
  repeat split; assumption.
Qed.

Lemma X11_batch_runs_until_terminal_witness :
  let s := BatchPanel.set_run false "" Sample.batchRunning in
  let os := [Rejected; Resolved (Sample.jobSnapshot "running" 1 0 0);
             Resolved (Sample.jobSnapshot "failed" 1 0 1); Rejected] in
  BatchPanel.batchRunning
    (fst (BatchPanel.pollLoop "job-7" os
            (fst (BatchPanel.startBatch_then (Ok "job-7")
                    (fst (BatchPanel.startBatch s)))))) = false.
Proof.
  cbv zeta.
  pose proof (X11_batch_runs_until_terminal
    (BatchPanel.set_run false "" Sample.batchRunning) "job-7"
    [Rejected; Resolved (Sample.jobSnapshot "running" 1 0 0);
     Resolved (Sample.jobSnapshot "failed" 1 0 1); Rejected]
    ltac:(discriminate) ltac:(discriminate)) as H.
  cbv zeta in H.
  destruct (BatchPanel.startBatch_then (Ok "job-7") _) as [s2 fx2].
  destruct H as (_ & _ & _ & _ & R & _). exact R.
Defined.

End FlowProperties.

(** ** ProgressTracker.js: the uploader *)
Section UploaderProperties.
Import JS ImageUploader.

(** X12.  The uploader takes a file exactly when its MIME type is one of the
    five listed or its name ends, in any mix of upper and lower case, with
    a dot and one of png, jpg, jpeg, webp, bmp, tif, tiff; either of the
    two is enough *)
Theorem X12_uploader_accepts (file : UploadFile) :
  accepted file = true <->
  In (type file) validTypes \/
  exists stem ext,
    name file = stem +:+ "." +:+ ext /\ In (toLowerCase ext) extensions.
Proof.
  unfold accepted. rewrite orb_true_iff, existsb_exists, matches_at. split.
  - intros [(t & I & E) | (stem & rest & E & M)].
    + left. apply String.eqb_eq in E. now subst t.
    + right. destruct rest as [|a ext]; [discriminate M|].
      destruct (extension_sound a ext M) as [-> I].
      exists stem, ext. split; [exact E | exact I].
  - intros [I | (stem & ext & E & I)].
    + left. exists (type file). split; [exact I | apply String.eqb_refl].
    + right. exists stem, (String "." ext). split; [exact E|].
      now apply extension_complete.
Qed.

(** X13.  A file that is turned down leaves the earlier choice in force: the
    name on display and the file that [startUpscale] posts stay those of
    the file accepted before *)
Theorem X13_rejected_file_keeps_earlier (f1 f2 : UploadFile) (d : Document)
    (s : State) (a : App.State) :
  accepted f1 = true -> accepted f2 = false ->
  legacy d || stacked d = true -> App.selectedModel a <> "" ->
  let '(s1, a1, _) := processFile f1 d s a in
  let '(s2, a2, fx) := processFile f2 d s1 a1 in
  fx = [Window (toast "Unsupported file format" "error")] /\
  fileName s2 = name f1 /\ fileSize s2 = fileSize s1 /\
  exists rest,
    snd (App.startUpscale a2)
    = [Fetch "POST" "/api/upscale"
         (Some (("file", FormFile {| file_name := name f1 |}) :: rest))].
Proof.
  intros A1 A2 D M. unfold processFile. rewrite A1, A2. cbn [negb fileName fileSize].
  split; [reflexivity|]. split; [reflexivity|]. split; [reflexivity|].
  apply String.eqb_neq in M.
  assert (U : forall a0, App.selectedModel a0 = App.selectedModel a ->
    App.uploadedFile a0 = Some {| file_name := name f1 |} ->
    exists rest,
      snd (App.startUpscale a0)
      = [Fetch "POST" "/api/upscale"
           (Some (("file", FormFile {| file_name := name f1 |}) :: rest))]).
  { intros a0 E1 E2. unfold App.startUpscale. rewrite E2, E1, M. cbn [snd].
    eexists. reflexivity. }
  destruct (legacy d), (stacked d); try discriminate D; apply U; reflexivity.
Qed.

Lemma X13_rejected_file_keeps_earlier_witness :
  let '(s1, a1, _) :=
    processFile Sample.photo Sample.inApp initial (Sample.chosen "esrgan") in
  let '(s2, a2, fx) := processFile Sample.notes Sample.inApp s1 a1 in
  fx = [Window (toast "Unsupported file format" "error")] /\
  fileName s2 = name Sample.photo /\ fileSize s2 = fileSize s1 /\
  exists rest,
    snd (App.startUpscale a2)
    = [Fetch "POST" "/api/upscale"
         (Some (("file", FormFile {| file_name := name Sample.photo |}) :: rest))].
Proof.
  apply (X13_rejected_file_keeps_earlier Sample.photo Sample.notes Sample.inApp
           initial (Sample.chosen "esrgan")).
  - vm_compute. reflexivity.
  - vm_compute. reflexivity.
  - reflexivity.
  - discriminate.
Defined.

(** X14.  The size on display is "0.0 MB" exactly for a file of fewer than
    52429 bytes *)
Theorem X14_small_file_shows_zero (file : UploadFile) (d : Document)
    (s : State) (a : App.State) :
  accepted file = true ->
  fileSize (fst (fst (processFile file d s a))) = "0.0 MB"
  <-> (size file < 52429)%N.
Proof.
  intros A. unfold processFile. rewrite A. cbn [negb fst fileSize].
  pose proof (megabytes_nonneg (size file)) as P.
  change "0.0 MB" with ("0.0" +:+ " MB"). split.
  - intros H. apply append_cancel_r in H. apply (toFixed1_zero _ P) in H.
    destruct (N.lt_ge_cases (size file) 52429) as [L|G]; [exact L|]. exfalso.
    pose proof (megabytes_mono _ _ G) as M.
    assert (E : (1 # 20 <= fdiv (fdiv (ofN 52429) 1024) 1024)%Q)
      by (vm_compute; discriminate).
    lra.
  - intros L. f_equal. apply (toFixed1_zero _ P).
    assert (G : (size file <= 52428)%N) by lia.
    pose proof (megabytes_mono _ _ G) as M.
    assert (E : (fdiv (fdiv (ofN 52428) 1024) 1024 < 1 # 20)%Q)
      by (vm_compute; reflexivity).
    lra.
Qed.

Lemma X14_small_file_shows_zero_witness :
  fileSize (fst (fst (processFile
                        {| name := "icon.png"; type := "image/png"; size := 52428 |}
                        Sample.inApp initial (Sample.chosen "esrgan"))))
  = "0.0 MB"
  <-> (52428 < 52429)%N.
Proof.
  apply (X14_small_file_shows_zero
           {| name := "icon.png"; type := "image/png"; size := 52428 |}
           Sample.inApp initial (Sample.chosen "esrgan")).
  reflexivity.
Defined.

End UploaderProperties.

Section PanelProperties.
Import ComparisonView.

(** X15.  An accepted comparison rebuilds the grid: the listener of the
    [comparison-start] event that [startComparison] dispatches drops the
    panels of an earlier comparison, resets zoom and offsets, and leaves
    the panel of the original image followed by one empty panel per
    selected model, in the order of the selection; the grid then has two
    columns for up to three models and three columns for more *)
Theorem X15_comparison_start_builds_grid (s : App.State) (cid img : string) (v : State) :
  let v' := observe (snd (App.startComparison_then (Ok (cid, img)) s)) v in
  panels v' = original ("/api/images/" +:+ img)
                :: map placeholder (App.compareModels s) /\
  length (panels v') = S (length (App.compareModels s)) /\
  gridCols v' = (if (length (App.compareModels s) =? 0)%nat then 1
                 else if (length (App.compareModels s) <=? 3)%nat then 2
                 else 3)%nat /\
  sharedZoom v' = 1%Q /\ sharedPanX v' = 0%Q /\ sharedPanY v' = 0%Q.
Proof.
  cbv zeta. unfold App.startComparison_then, App.pollComparison.
  cbn [snd observe fold_left listen String.eqb Ascii.eqb Bool.eqb].
  rewrite onComparisonStart_eq. unfold gridCols.
  cbn [panels set_panels sharedZoom sharedPanX sharedPanY resetZoom length].
  rewrite length_map. cbn [App.compareModels App.set_comparisonId]. repeat split.
  destruct (length (App.compareModels s)) as [|[|[|[|n]]]]; reflexivity.
Qed.

(** X16.  While a comparison runs, nothing that is pushed or polled adds,
    removes or reorders a panel of the grid or gives one another id:
    panel for panel the id and [loaded] stay, and the label stays or
    becomes "<id> (failed)"; the number of columns, the zoom and the
    offsets stay as well *)
Theorem X16_results_keep_the_grid (cid : string) (ins : list App.Input)
    (x : App.Session) (v : State) :
  let v' := observe (snd (App.run cid ins x)) v in
  ids v' = ids v /\ gridCols v' = gridCols v /\
  Forall2 samePanel (panels v) (panels v') /\
  sharedZoom v' = sharedZoom v /\
  sharedPanX v' = sharedPanX v /\ sharedPanY v' = sharedPanY v.
Proof.
  cbv zeta.
  assert (E : ids (observe (snd (App.run cid ins x)) v) = ids v)
    by apply observe_ids, run_no_start.
  split; [exact E|]. split.
  - unfold gridCols.
    assert (L : length (panels (observe (snd (App.run cid ins x)) v)) = length (panels v)).
    { unfold ids in E. now rewrite <- (length_map id), E, length_map. }
    now rewrite L.
  - apply observe_same, run_no_start.
Qed.

(** X17.  A result goes to the first panel that carries its model id and to no
    other: panels before and after it, later panels of the same id
    included, stay as they are, and a result for an id without a panel
    changes nothing *)
Theorem X17_result_goes_to_first_panel (modelId : string) (imageUrl : option string)
    (duration : Q) (success : bool) (s : State) :
  (find modelId (panels s) = None ->
   onComparisonResult modelId imageUrl duration success s = s) /\
  (forall before p rest,
     panels s = before ++ p :: rest ->
     id p = modelId -> Forall (fun q => id q <> modelId) before ->
     panels (onComparisonResult modelId imageUrl duration success s)
     = before ++ settle modelId imageUrl duration success p :: rest).
Proof.
  split.
  - intros N. unfold onComparisonResult. rewrite (onFound_none _ _ _ N). now destruct s.
  - intros before p rest E I B. unfold onComparisonResult. cbn [panels set_panels].
    rewrite E. now apply onFound_first.
Qed.

Lemma X17_result_goes_to_first_panel_witness :
  let s := set_panels [original "/api/images/in"; placeholder "A"; placeholder "A"] initial in
  panels (onComparisonResult "A" (Some "/api/images/a") 2 true s)
  = [original "/api/images/in";
     settle "A" (Some "/api/images/a") 2 true (placeholder "A");
     placeholder "A"] /\
  onComparisonResult "B" (Some "/api/images/b") 2 true s = s.
Proof.
  cbv zeta. split.
  - apply (proj2 (X17_result_goes_to_first_panel "A" (Some "/api/images/a") 2 true
             (set_panels [original "/api/images/in"; placeholder "A"; placeholder "A"]
                initial))
             [original "/api/images/in"] (placeholder "A") [placeholder "A"]).
    + reflexivity.
    + reflexivity.
    + repeat constructor. discriminate.
  - apply (proj1 (X17_result_goes_to_first_panel "B" (Some "/api/images/b") 2 true _)).
    reflexivity.
Defined.

(** X18.  Once the poll loop has seen a model, the panel of that model is
    final: no frame pushed and no snapshot polled later in the comparison
    changes it, not even one that reports the model differently *)
Theorem X18_settled_panel_is_final (cid : string) (ins1 ins2 : list App.Input)
    (x : App.Session) (v : State) (m : string) :
  m ∈ App.seen (App.closure (fst (App.run cid ins1 x))) ->
  find m (panels (observe (snd (App.run cid (ins1 ++ ins2) x)) v))
  = find m (panels (observe (snd (App.run cid ins1 x)) v)).
Proof.
  intros S. rewrite run_app. cbn [snd]. rewrite observe_app.
  apply observe_other; [apply run_no_start|].
  pose proof (run_results cid m ins2 (fst (App.run cid ins1 x))) as R.
  pose proof (inSeen_le m
    (App.seen (App.closure (fst (App.run cid ins2 (fst (App.run cid ins1 x))))))) as B.
  assert (A : App.inSeen m (App.seen (App.closure (fst (App.run cid ins1 x)))) = 1%nat).
  { unfold App.inSeen.
    destruct (decide (m ∈ App.seen (App.closure (fst (App.run cid ins1 x)))));
      [reflexivity | contradiction]. }
  rewrite A in R. lia.
Qed.

Lemma X18_settled_panel_is_final_witness :
  let v := set_panels [original "/api/images/in"; placeholder "A"; placeholder "B"] initial in
  let x := App.started (Sample.comparing ["A"; "B"]) in
  let first := [App.Polled (App.snapshot [Sample.result "A"])] in
  let later :=
    [App.Polled (App.snapshot
       [{| Compare.model_id := "A"; Compare.image_id := None;
           Compare.duration_seconds := 9; Compare.success := false;
           Compare.error := Some "out of memory" |}])] in
  find "A" (panels (observe (snd (App.run "cmp-1" (first ++ later) x)) v))
  = find "A" (panels (observe (snd (App.run "cmp-1" first x)) v)).
Proof.
  cbv zeta. apply X18_settled_panel_is_final.
  apply (bool_decide_unpack _). vm_compute. exact I.
Defined.

(** X19.  [Save All] asks for every panel that carries an image and is not
    the original, in grid order, and for nothing else; it downloads, under
    "comparison_<id>.png", those of them whose fetch goes through: all of
    them when no fetch fails, and all but that one when one fetch fails;
    right after a comparison has started there is nothing to save *)
Theorem X19_save_all_skips_original (fetched : nat -> bool) (s : State) :
  let '(fx, names) := saveAll fetched s in
  let saved := List.filter savable (panels s) in
  fx = map request saved /\
  names = map download (delivered fetched 0 saved) /\
  ((forall k, fetched k = true) -> names = map download saved) /\
  (forall j, (forall k, fetched k = negb (k =? j)%nat) ->
             names = map download (take j saved ++ drop (S j) saved)) /\
  (forall p, In p saved <->
             In p (panels s) /\ id p <> "original" /\
             exists u, url p = Some u /\ u <> "") /\
  forall originalUrl modelIds,
    saveAll fetched (onComparisonStart originalUrl modelIds s) = ([], []).
Proof.
  unfold saveAll. rewrite saveFrom_exact. cbv zeta.
  split; [reflexivity|]. split; [reflexivity|]. split; [|split; [|split]].
  - intros A. now rewrite delivered_all.
  - intros j F. now rewrite (delivered_but_one fetched _ 0 j F).
  - intros p. rewrite List.filter_In. unfold savable. split.
    + intros [I S]. split; [exact I|].
      destruct (url p) as [u|]; [|discriminate]. apply negb_true_iff, orb_false_iff in S.
      destruct S as [U O]. apply String.eqb_neq in U, O.
      split; [exact O|]. exists u. split; [reflexivity | exact U].
    + intros (I & O & u & -> & U). split; [exact I|].
      apply String.eqb_neq in U, O. now rewrite U, O.
  - intros originalUrl modelIds. rewrite onComparisonStart_eq.
    cbn [panels set_panels saveFrom url original id String.eqb Ascii.eqb Bool.eqb orb].
    destruct (String.eqb originalUrl ""); apply saveFrom_placeholders.
Qed.

End PanelProperties.

(** ** ImageViewer.js *)
Section ViewerProperties.
Import JS ImageViewer.
Local Open Scope Q_scope.

(** X20.  The zoom of the image viewer stays between 0.1 and 10, whatever
    methods are called on a fresh viewer and in whatever order: the
    buttons clamp on one side only, the wheel on both.  It is positive,
    so that [handlePan] never divides by zero. *)
Theorem X20_viewer_zoom_in_range (cs : list Call) :
  let s := after cs initial in
  literal (1 # 10) <= zoom s /\ zoom s <= 10 /\ 0 < zoom s.
Proof.
  cbv zeta. destruct (inRange_after cs initial inRange_initial) as (_ & Lo & Hi & _).
  pose proof tenth_range. repeat split; try assumption. lra.
Qed.

(** X21.  Below 10 a zoom-in step (the button, or the wheel turned up) gives
    a strictly larger zoom, and above 0.1 a zoom-out step (the button, or
    the wheel turned down) a strictly smaller one: rounding never
    swallows a step *)
Theorem X21_viewer_zoom_steps_move (cs : list Call) (deltaY : Q) :
  let s := after cs initial in
  (zoom s < 10 -> deltaY <= 0 ->
   zoom s < zoom (zoomIn s) /\ zoom s < zoom (handleWheel deltaY s)) /\
  (literal (1 # 10) < zoom s -> 0 < deltaY ->
   zoom (zoomOut s) < zoom s /\ zoom (handleWheel deltaY s) < zoom s).
Proof.
  cbv zeta. pose proof (inRange_after cs initial inRange_initial) as R.
  pose proof R as (Nz & Lo & Hi & _). pose proof tenth_range as [T1 T2].
  set (s := after cs initial) in *. split.
  - intros H D. split; [now apply zoomIn_up|].
    unfold handleWheel, gtb. 
    assert (E : Qle_bool deltaY 0 = true) by now apply Qle_bool_iff.
    rewrite E. cbn -[literal fmul fdiv fadd fsub Math_min Math_max].
    apply wheel_up; try assumption. lra.
  - intros H D. split; [now apply zoomOut_down|].
    unfold handleWheel, gtb.
    assert (E : Qle_bool deltaY 0 = false).
    { destruct (Qle_bool deltaY 0) eqn:E; [|reflexivity].
      apply Qle_bool_iff in E. lra. }
    rewrite E. cbn -[literal fmul fdiv fadd fsub Math_min Math_max].
    apply wheel_down; try assumption. lra.
Qed.

Lemma X21_viewer_zoom_steps_move_witness :
  1 < zoom (zoomIn initial) /\ zoom (handleWheel 120 initial) < 1.
Proof.
  destruct (X21_viewer_zoom_steps_move [] (-120)) as [U _].
  destruct (X21_viewer_zoom_steps_move [] 120) as [_ D].
  split.
  - apply U; [reflexivity | unfold Qle; simpl; lia].
  - apply D; [vm_compute; reflexivity | reflexivity].
Defined.

(** X22.  A drag is anchored where it began: with the pointer back at the point
    of the press, the offsets are those of before the drag, whatever moves
    and zoom steps came in between *)
Theorem X22_viewer_drag_returns (cs moves : list Call) (x y : Q) :
  forallb keepsDrag moves = true ->
  let s := after cs initial in
  let s' := handlePan x y (after moves (startPan 0 x y s)) in
  panX s' == panX s /\ panY s' == panY s.
Proof.
  intros K. cbv zeta.
  destruct (inRange_after cs initial inRange_initial) as (_ & _ & _ & Nx & Ny).
  set (s := after cs initial) in *.
  destruct (keepsDrag_after moves (startPan 0 x y s) K eq_refl) as (D & E1 & E2 & E3 & E4).
  unfold handlePan. rewrite D. cbn [negb panX panY].
  rewrite E1, E2, E3, E4. cbn [startPan Z.eqb negb panStartX panStartY panBaseX panBaseY].
  split; apply pan_back; assumption.
Qed.

Lemma X22_viewer_drag_returns_witness :
  let s' := handlePan 5 7 (after [HandlePan 100 50; HandleWheel 120; HandlePan 3 9]
                                 (startPan 0 5 7 initial)) in
  panX s' == 0 /\ panY s' == 0.
Proof.
  exact (X22_viewer_drag_returns [] [HandlePan 100 50; HandleWheel 120; HandlePan 3 9] 5 7 eq_refl).
Defined.

End ViewerProperties.

(** ** ComparisonView.js *)
Section GridProperties.
Import JS ComparisonView.
Local Open Scope Q_scope.

(** X23.  The shared zoom of the comparison view stays between 0.25 and 10
    under every sequence of wheel, pan and reset calls and of window
    events, so that [handlePan] never divides by zero; inside these bounds
    a wheel step up gives a strictly larger zoom and a wheel step down a
    strictly smaller one *)
Theorem X23_shared_zoom_in_range (cs : list Call) (deltaY : Q) :
  let s := after cs initial in
  (25 # 100 <= sharedZoom s /\ sharedZoom s <= 10) /\
  (sharedZoom s < 10 -> deltaY <= 0 ->
   sharedZoom s < sharedZoom (handleWheel deltaY s)) /\
  (25 # 100 < sharedZoom s -> 0 < deltaY ->
   sharedZoom (handleWheel deltaY s) < sharedZoom s).
Proof.
  cbv zeta. destruct (shared_after cs initial shared_initial) as (Nz & Lo & Hi & _).
  set (s := after cs initial) in *. split; [split; assumption|]. split.
  - intros H D. unfold handleWheel, gtb.
    assert (E : Qle_bool deltaY 0 = true) by now apply Qle_bool_iff.
    rewrite E. cbn -[literal fmul fdiv fadd fsub Math_min Math_max].
    apply wheel_up; try assumption. reflexivity.
  - intros H D. unfold handleWheel, gtb.
    assert (E : Qle_bool deltaY 0 = false).
    { destruct (Qle_bool deltaY 0) eqn:E; [|reflexivity].
      apply Qle_bool_iff in E. lra. }
    rewrite E. cbn -[literal fmul fdiv fadd fsub Math_min Math_max].
    apply wheel_down; try assumption. reflexivity.
Qed.

Lemma X23_shared_zoom_in_range_witness :
  1 < sharedZoom (handleWheel (-120) initial) /\
  sharedZoom (handleWheel 120 initial) < 1.
Proof.
  destruct (X23_shared_zoom_in_range [] (-120)) as (_ & U & _).
  destruct (X23_shared_zoom_in_range [] 120) as (_ & _ & D).
  split.
  - apply U; [reflexivity | unfold Qle; simpl; lia].
  - apply D; reflexivity.
Defined.

(** X24.  A drag over the grid is anchored where it began, also when wheel steps
    and results of the comparison arrive during the drag *)
Theorem X24_shared_drag_returns (cs moves : list Call) (x y : Q) :
  forallb keepsDrag moves = true ->
  let s := after cs initial in
  let s' := handlePan x y (after moves (startPan 0 x y s)) in
  sharedPanX s' == sharedPanX s /\ sharedPanY s' == sharedPanY s.
Proof.
  intros K. cbv zeta.
  destruct (shared_after cs initial shared_initial) as (_ & _ & _ & Nx & Ny).
  set (s := after cs initial) in *.
  destruct (shared_drag_after moves (startPan 0 x y s) K eq_refl) as (D & E1 & E2 & E3 & E4).
  unfold handlePan. rewrite D. cbn [negb sharedPanX sharedPanY].
  rewrite E1, E2, E3, E4. cbn [startPan Z.eqb negb panStartX panStartY panBaseX panBaseY].
  split; apply pan_back; assumption.
Qed.

Lemma X24_shared_drag_returns_witness :
  let s' := handlePan 5 7 (after [HandlePan 100 50; HandleWheel 120]
                                 (startPan 0 5 7 initial)) in
  sharedPanX s' == 0 /\ sharedPanY s' == 0.
Proof.
  exact (X24_shared_drag_returns [] [HandlePan 100 50; HandleWheel 120] 5 7 eq_refl).
Defined.

End GridProperties.

(** ** ModelSelector and SettingsPanel *)
Section SelectorProperties.
Import JS ModelSelector.

Lemma shown_fresh (l : list Entry) : forall h : list Entry,
  omap (fun a => (h ++ l) !! a) (seq (length h) (length l)) = l.
Proof.
  induction l as [|x l IH]; intros h; [reflexivity|].
  cbn [length seq]. unfold omap. cbn [list_omap]. fold (@omap list _ nat Entry).
  rewrite (lookup_app_r h (x :: l) (length h)) by lia.
  rewrite Nat.sub_diag. cbn [lookup list_lookup].
  f_equal. specialize (IH (h ++ [x])).
  rewrite <- app_assoc, length_app in IH. cbn [List.app length] in IH.
  rewrite Nat.add_1_r in IH. exact IH.
Qed.

Lemma set_downloading_lookup a v p e :
  heap p !! a = Some e ->
  heap (set_downloading a v p) !! a
  = Some {| key := key e; name := name e; is_downloaded := is_downloaded e;
            downloading := v |}.
Proof.
  intros H. unfold set_downloading. cbn [heap]. rewrite H.
  apply list_lookup_insert_eq. now apply lookup_lt_Some in H.
Qed.

Lemma set_is_downloaded_lookup a v p e :
  heap p !! a = Some e ->
  heap (set_is_downloaded a v p) !! a
  = Some {| key := key e; name := name e; is_downloaded := v;
            downloading := downloading e |}.
Proof.
  intros H. unfold set_is_downloaded. cbn [heap]. rewrite H.
  apply list_lookup_insert_eq. now apply lookup_lt_Some in H.
Qed.

(** [loadModels] leaves the objects made earlier as they are *)
Lemma loadModels_keeps r1 r2 p a e :
  heap p !! a = Some e -> heap (fst (loadModels r1 r2 p)) !! a = Some e.
Proof.
  intros H. unfold loadModels, loadModels_then.
  destruct r2 as [|ms]; cbn [fst heap set_loading this]; [exact H|].
  now apply lookup_app_l_Some.
Qed.

(** X25.  A refresh of the registry while a download is out loses sight of it:
    the list is rebuilt from fresh objects, none of them marked as
    downloading, while the mark stays on the object of the old list to
    which [downloadModel] holds on *)
Theorem X25_refresh_forgets_pending_download (p : Page) (a : nat) (e : Entry)
    (r1 : Fetched (list App.ModelInfo)) (ms : list Entry) :
  heap p !! a = Some e ->
  let p1 := fst (downloadModel a p) in
  let p2 := fst (loadModels r1 (Resolved ms) p1) in
  (exists e', heap p2 !! a = Some e' /\ downloading e' = true) /\
  shown p2 = map fresh ms /\
  Forall (fun e' => downloading e' = false) (shown p2).
Proof.
  intros H. cbv zeta. unfold downloadModel. cbn [fst].
  pose proof (set_downloading_lookup a true p e H) as H1.
  split; [|split].
  - eexists. split; [apply loadModels_keeps, H1 | reflexivity].
  - unfold shown, loadModels, loadModels_then.
    cbn [fst heap this availableModels set_loading].
    rewrite <- (length_map fresh ms). apply shown_fresh.
  - assert (S : shown (fst (loadModels r1 (Resolved ms) (set_downloading a true p)))
                = map fresh ms).
    { unfold shown, loadModels, loadModels_then.
      cbn [fst heap this availableModels set_loading].
      rewrite <- (length_map fresh ms). apply shown_fresh. }
    rewrite S. apply List.Forall_forall. intros x Hx. apply in_map_iff in Hx.
    destruct Hx as (m & <- & _). reflexivity.
Qed.

Lemma X25_refresh_forgets_pending_download_witness :
  let m := {| key := "esrgan-x4"; name := "ESRGAN x4"; is_downloaded := false;
              downloading := false |} in
  let p := fst (loadModels (Resolved []) (Resolved [m]) initial) in
  let p2 := fst (loadModels (Resolved []) (Resolved [m]) (fst (downloadModel 0 p))) in
  (exists e', heap p2 !! 0%nat = Some e' /\ downloading e' = true) /\
  shown p2 = [m] /\
  Forall (fun e' => downloading e' = false) (shown p2).
Proof.
  cbv zeta.
  exact (X25_refresh_forgets_pending_download
    (fst (loadModels (Resolved [])
            (Resolved [{| key := "esrgan-x4"; name := "ESRGAN x4";
                          is_downloaded := false; downloading := false |}]) initial))
    0 _ (Resolved [])
    [{| key := "esrgan-x4"; name := "ESRGAN x4"; is_downloaded := false;
        downloading := false |}] eq_refl).
Defined.

(** X26.  Whatever the answer to a download, and whatever the list refresh
    after an ok answer brings, the entry is not left marked as
    downloading; it is marked as downloaded exactly after an ok answer,
    and a failure is reported in one error toast *)
Theorem X26_download_always_clears_mark (p : Page) (a : nat) (e : Entry)
    (r : Response unit) (r1 : Fetched (list App.ModelInfo))
    (r2 : Fetched (list Entry)) :
  heap p !! a = Some e ->
  let p1 := fst (downloadModel a p) in
  let '(p3, fx) := downloadModel_then a r r1 r2 p1 in
  heap p1 !! a = Some {| key := key e; name := name e;
                         is_downloaded := is_downloaded e; downloading := true |} /\
  heap p3 !! a
  = Some {| key := key e; name := name e;
            is_downloaded := match r with Ok _ => true | _ => is_downloaded e end;
            downloading := false |} /\
  match r with
  | Ok _ => loading (this p3) = false /\
            exists rest, fx = Toast (name e +:+ " downloaded") "success" :: rest
  | NotOk _ => fx = [Toast "Download failed: Download failed" "error"]
  | Threw message => fx = [Toast ("Download failed: " +:+ message) "error"]
  end.
Proof.
  intros H. cbv zeta. unfold downloadModel. cbn [fst].
  pose proof (set_downloading_lookup a true p e H) as H1.
  unfold downloadModel_then. destruct r as [message|detail|[]].
  - split; [exact H1|]. split; [|reflexivity].
    rewrite (set_downloading_lookup a false _ _ H1). reflexivity.
  - split; [exact H1|]. split; [|reflexivity].
    rewrite (set_downloading_lookup a false _ _ H1). reflexivity.
  - pose proof (set_is_downloaded_lookup a true _ _ H1) as H2. rewrite H2.
    cbn [name is_downloaded key downloading] in *.
    pose proof (loadModels_keeps r1 r2 _ a _ H2) as H3.
    assert (L : loading (this (fst (loadModels r1 r2
                  (set_is_downloaded a true (set_downloading a true p))))) = false)
      by (unfold loadModels, loadModels_then; now destruct r2).
    destruct (loadModels r1 r2 (set_is_downloaded a true (set_downloading a true p)))
      as [p' fx']. cbn [fst] in *.
    split; [exact H1|]. split.
    + rewrite (set_downloading_lookup a false _ _ H3). reflexivity.
    + split; [exact L|]. eexists. reflexivity.
Qed.

Lemma X26_download_always_clears_mark_witness :
  let m := {| key := "esrgan-x4"; name := "ESRGAN x4"; is_downloaded := false;
              downloading := false |} in
  let p := fst (loadModels (Resolved []) (Resolved [m]) initial) in
  let p1 := fst (downloadModel 0 p) in
  let '(p3, fx) := downloadModel_then 0 (NotOk None) Rejected Rejected p1 in
  heap p1 !! 0%nat = Some {| key := "esrgan-x4"; name := "ESRGAN x4";
                             is_downloaded := false; downloading := true |} /\
  heap p3 !! 0%nat = Some m /\
  fx = [Toast "Download failed: Download failed" "error"].
Proof.
  cbv zeta.
  exact (X26_download_always_clears_mark
    (fst (loadModels (Resolved [])
            (Resolved [{| key := "esrgan-x4"; name := "ESRGAN x4";
                          is_downloaded := false; downloading := false |}]) initial))
    0 _ (NotOk None) Rejected Rejected eq_refl).
Defined.

End SelectorProperties.

Section SettingsProperties.
Import JS SettingsPanel.

(** X27.  The panel comes back whole from what it saves: loading the object
    that [saveSettings] sends restores every field.  The other way round
    something is lost: what is saved after a load is what was loaded with
    [tile_overlap] set to 32, hence the same object only if its
    [tile_overlap] was 32.  A load that fails is silent and leaves the
    panel as it was, so that the save after it sends what the panel held
    before. *)
Theorem X27_save_after_load (data : Settings.Body) (s s' : State) :
  loadSettings_then (Resolved (saveSettings s)) s' = s /\
  saveSettings (loadSettings_then (Resolved data) s) = withOverlap 32 data /\
  (saveSettings (loadSettings_then (Resolved data) s) = data
   <-> Settings.tile_overlap data = Some 32%N) /\
  saveSettings (loadSettings_then Rejected s) = saveSettings s.
Proof.
  split; [now destruct s|]. split; [reflexivity|]. split; [|reflexivity].
  destruct data as [ts ov df jq fp ds ml].
  cbn [loadSettings_then saveSettings Settings.tile_overlap tileSize defaultFormat
       jpegQuality fp16 defaultScale maxLoadedModels Settings.tile_size
       Settings.default_format Settings.jpeg_quality Settings.fp16
       Settings.default_scale Settings.max_loaded_models].
  split.
  - intros H. now injection H as <-.
  - intros ->. reflexivity.
Qed.

End SettingsProperties.
